(** * A shallow embedding of the Vim-mode prompt editor of gemini-cli

    The development follows the TypeScript sources:

    - [handleVimAction], the text-buffer reducer for the [vim_*] actions
      (vim-buffer-actions.ts);
    - [useVim]'s [handleInput], the modal key controller (hooks/vim.ts);
    - [useInputHistory], the history navigator (hooks/useInputHistory.ts);
    - [awaitConfirmation], the confirmation waiter (scheduler/confirmation.ts).

    JavaScript numbers that hold rows, columns and counts are integers and are
    modelled by [Z]; a JavaScript string is its sequence of UTF-16 code units. *)

From Stdlib Require Import ZArith List Bool String Ascii Lia.
Import ListNotations.
Open Scope Z_scope.

(** ** JavaScript strings and arrays *)

Module JS.

(** A string value: the list of its UTF-16 code units. *)
Definition jsstring := list N.

(** An ASCII literal as a JavaScript string. *)
Definition js (s : string) : jsstring :=
  map N_of_ascii (list_ascii_of_string s).

Definition unit_eqb : N -> N -> bool := N.eqb.

Fixpoint str_eqb (a b : jsstring) : bool :=
  match a, b with
  | [], [] => true
  | x :: a', y :: b' => N.eqb x y && str_eqb a' b'
  | _, _ => false
  end.

(** [a === b] on values that may be [undefined]. *)
Definition ostr_eqb (a b : option jsstring) : bool :=
  match a, b with
  | Some x, Some y => str_eqb x y
  | None, None => true
  | _, _ => false
  end.

Definition NL : N := 10%N.

(** [s.length] *)
Definition strlen (s : jsstring) : Z := Z.of_nat (List.length s).

(** [arr[i]]: [None] stands for [undefined]. *)
Definition nthZ {A : Type} (l : list A) (i : Z) : option A :=
  if i <? 0 then None else nth_error l (Z.to_nat i).

(** [arr[i] || ''] for an array of strings (the empty string is falsy, so the
    fallback changes nothing when the line is present). *)
Definition lineAt (lines : list jsstring) (i : Z) : jsstring :=
  match nthZ lines i with
  | Some l => l
  | None => []
  end.

(** The relative index of [Array.prototype.slice] and
    [String.prototype.slice]: negative counts from the end, then clamp. *)
Definition relIndex (len i : Z) : Z :=
  if i <? 0 then Z.max (len + i) 0 else Z.min i len.

(** [arr.slice(start, end)]; [None] for an omitted [end]. *)
Definition slice {A : Type} (l : list A) (start : Z) (stop : option Z) : list A :=
  let len := Z.of_nat (List.length l) in
  let k := relIndex len start in
  let e := match stop with Some e => relIndex len e | None => len end in
  firstn (Z.to_nat (e - k)) (skipn (Z.to_nat k) l).

(** [arr.join('')] *)
Definition join0 (l : list jsstring) : jsstring := List.concat l.

(** [arr.join('\n')] *)
Fixpoint joinNL (l : list jsstring) : jsstring :=
  match l with
  | [] => []
  | [x] => x
  | x :: rest => x ++ NL :: joinNL rest
  end.

(** [s.startsWith(q)], and the test of a match of [q] at the head of [s]. *)
Fixpoint isPrefix (q s : jsstring) : bool :=
  match q, s with
  | [], _ => true
  | _ :: _, [] => false
  | x :: q', y :: s' => N.eqb x y && isPrefix q' s'
  end.

(** The first index [k >= i] at which [q] matches, where [s] is what is
    left of the string from index [i] on; [-1] when there is none. *)
Fixpoint findFrom (q s : jsstring) (i : Z) : Z :=
  if isPrefix q s then i
  else match s with
       | [] => -1
       | _ :: t => findFrom q t (i + 1)
       end.

(** [s.indexOf(q, from)]: the start position is clamped to [0 .. s.length]. *)
Definition indexOf (s q : jsstring) (from : Z) : Z :=
  let start := Z.min (Z.max from 0) (strlen s) in
  findFrom q (skipn (Z.to_nat start) s) start.

(** The last index [k <= bound] at which [q] matches, scanning the string
    left to right from index [i] and remembering the latest match in [acc]. *)
Fixpoint lastUpTo (q s : jsstring) (i bound acc : Z) : Z :=
  let acc' := if (i <=? bound) && isPrefix q s then i else acc in
  match s with
  | [] => acc'
  | _ :: t => lastUpTo q t (i + 1) bound acc'
  end.

(** [s.lastIndexOf(q, from)]; [None] for an omitted [from] (search from the
    end). A negative [from] is clamped to 0. *)
Definition lastIndexOf (s q : jsstring) (from : option Z) : Z :=
  let bound := match from with
               | Some f => Z.max f 0
               | None => strlen s
               end in
  lastUpTo q s 0 bound (-1).

(** [s.includes(q)] *)
Definition includes (s q : jsstring) : bool := negb (indexOf s q 0 =? -1).

(** [s.endsWith(q)] *)
Definition endsWith (s q : jsstring) : bool :=
  let n := List.length s in
  let m := List.length q in
  (m <=? n)%nat && str_eqb (skipn (n - m) s) q.

(** [s.split('\n')]: always at least one part. *)
Fixpoint splitNL (s : jsstring) : list jsstring :=
  match s with
  | [] => [[]]
  | c :: t =>
      if N.eqb c NL then [] :: splitNL t
      else match splitNL t with
           | [] => [[c]]
           | p :: ps => (c :: p) :: ps
           end
  end.

Definition isHighSurrogate (u : N) : bool := (0xD800 <=? u)%N && (u <=? 0xDBFF)%N.
Definition isLowSurrogate (u : N) : bool := (0xDC00 <=? u)%N && (u <=? 0xDFFF)%N.

(** [Array.from(s)]: the string cut into code points, each one a string of
    one code unit or of a surrogate pair. *)
Fixpoint arrayFrom (s : jsstring) : list jsstring :=
  match s with
  | [] => []
  | h :: t =>
      match t with
      | l :: t' =>
          if isHighSurrogate h && isLowSurrogate l
          then [h; l] :: arrayFrom t'
          else [h] :: arrayFrom t
      | [] => [[h]]
      end
  end.

(** The code units that [/\s/] matches. *)
Definition isSpaceUnit (u : N) : bool :=
  ((9 <=? u) && (u <=? 13) || (u =? 32) || (u =? 0xA0) || (u =? 0x1680)
   || (0x2000 <=? u) && (u <=? 0x200A) || (u =? 0x2028) || (u =? 0x2029)
   || (u =? 0x202F) || (u =? 0x205F) || (u =? 0x3000) || (u =? 0xFEFF))%N.

(** [/\s/.test(c)]; [undefined] is tested as the text "undefined". *)
Definition testSpace (c : option jsstring) : bool :=
  match c with
  | Some s => existsb isSpaceUnit s
  | None => false
  end.

(** [s.trim()] is empty exactly when every unit of [s] is white space. *)
Definition trimIsEmpty (s : jsstring) : bool := forallb isSpaceUnit s.

End JS.
Import JS.

(** ** Code-point helpers (utils/textUtils.ts) *)

(** Modelled from the spec: [toCodePoints] of utils/textUtils.ts is imported
    by the reducer but its file is not among the sources; the spec (4.A) has
    cursor positions count code points, so the helper cuts a string into its
    code points. *)
Definition toCodePoints (s : jsstring) : list jsstring := arrayFrom s.

(** Modelled from the spec: [cpLen] of utils/textUtils.ts (not among the
    sources) is the code-point length of a string (4.A). *)
Definition cpLen (s : jsstring) : Z := Z.of_nat (List.length (toCodePoints s)).

(** Modelled from the spec: [cpSlice] of utils/textUtils.ts (not among the
    sources) is the code-point slice [[start, end)] producing a new string
    (4.A); [None] for an omitted [end]. *)
Definition cpSlice (s : jsstring) (start : Z) (stop : option Z) : jsstring :=
  join0 (slice (toCodePoints s) start stop).

(** ** The text buffer state and its primitives (text-buffer.ts) *)

(** Modelled from the spec: one entry of the undo stack, a full snapshot of
    the state excluding the stack itself (3); the type is declared in
    text-buffer.ts, which is not among the sources. *)
Record UndoEntry := mkUndoEntry {
  u_lines : list jsstring;
  u_cursorRow : Z;
  u_cursorCol : Z;
  u_preferredCol : option Z;
  u_selectionAnchor : option (Z * Z);
  u_clipboard : option jsstring;
  u_lastSearchQuery : option jsstring
}.

Module Buf.

(** Modelled from the spec: the type [TextBufferState] is declared in
    text-buffer.ts, which is not among the sources. The fields are those the
    reducer reads and writes, as the spec's data model (3) lists them;
    [null] is [None]. *)
Record TextBufferState := mkState {
  lines : list jsstring;
  cursorRow : Z;
  cursorCol : Z;
  preferredCol : option Z;
  selectionAnchor : option (Z * Z);
  clipboard : option jsstring;
  lastSearchQuery : option jsstring;
  undoStack : list UndoEntry
}.

End Buf.
Export Buf.

(** Object spread with some fields replaced: [{...s, cursorRow, cursorCol,
    preferredCol}] and the like. *)
Definition setCursor (s : TextBufferState) (r c : Z) (p : option Z) : TextBufferState :=
  mkState (lines s) r c p (selectionAnchor s) (clipboard s)
          (lastSearchQuery s) (undoStack s).

Definition setCursorCol (s : TextBufferState) (c : Z) : TextBufferState :=
  mkState (lines s) (cursorRow s) c (preferredCol s) (selectionAnchor s)
          (clipboard s) (lastSearchQuery s) (undoStack s).

Definition setCursorRowCol (s : TextBufferState) (r c : Z) : TextBufferState :=
  mkState (lines s) r c (preferredCol s) (selectionAnchor s)
          (clipboard s) (lastSearchQuery s) (undoStack s).

Definition setLines (s : TextBufferState) (ls : list jsstring) (r c : Z)
    (p : option Z) : TextBufferState :=
  mkState ls r c p (selectionAnchor s) (clipboard s)
          (lastSearchQuery s) (undoStack s).

Definition setSelectionAnchor (s : TextBufferState) (a : option (Z * Z)) : TextBufferState :=
  mkState (lines s) (cursorRow s) (cursorCol s) (preferredCol s) a
          (clipboard s) (lastSearchQuery s) (undoStack s).

Definition setClipboard (s : TextBufferState) (t : option jsstring) : TextBufferState :=
  mkState (lines s) (cursorRow s) (cursorCol s) (preferredCol s)
          (selectionAnchor s) t (lastSearchQuery s) (undoStack s).

Definition setLastSearchQuery (s : TextBufferState) (q : option jsstring) : TextBufferState :=
  mkState (lines s) (cursorRow s) (cursorCol s) (preferredCol s)
          (selectionAnchor s) (clipboard s) q (undoStack s).

Definition setUndoStack (s : TextBufferState) (u : list UndoEntry) : TextBufferState :=
  mkState (lines s) (cursorRow s) (cursorCol s) (preferredCol s)
          (selectionAnchor s) (clipboard s) (lastSearchQuery s) u.

(** Modelled from the spec: the fresh buffer, one empty line with the cursor
    at (0,0) (8); the initial state is built in text-buffer.ts, which is not
    among the sources. *)
Definition initialState : TextBufferState :=
  mkState [[]] 0 0 None None None None [].

(** The pre-image of a state, as [pushUndo] stores it. *)
Definition snapshot (s : TextBufferState) : UndoEntry :=
  mkUndoEntry (lines s) (cursorRow s) (cursorCol s) (preferredCol s)
              (selectionAnchor s) (clipboard s) (lastSearchQuery s).

(** Modelled from the spec: the bound of the undo stack, 100 entries (4.B);
    the constant is declared in text-buffer.ts, which is not among the
    sources. *)
Definition historyLimit : nat := 100.

(** Modelled from the spec: [pushUndo] of text-buffer.ts (not among the
    sources) appends the pre-image to [undo_stack]; an entry is a full
    snapshot excluding the stack itself; the stack is bounded (100 entries)
    and overflow discards the oldest (3, 4.B). *)
Definition pushUndo (s : TextBufferState) : TextBufferState :=
  let stack := undoStack s ++ [snapshot s] in
  setUndoStack s (if (historyLimit <? List.length stack)%nat then tl stack else stack).

(** Modelled from the spec: [undo] of text-buffer.ts (not among the sources)
    pops the latest snapshot and installs it wholesale (4.B). *)
Definition undo (s : TextBufferState) : TextBufferState :=
  match rev (undoStack s) with
  | [] => s
  | e :: older =>
      mkState (u_lines e) (u_cursorRow e) (u_cursorCol e) (u_preferredCol e)
              (u_selectionAnchor e) (u_clipboard e) (u_lastSearchQuery e)
              (rev older)
  end.

(** Modelled from the spec: [replaceRangeInternal] of text-buffer.ts (not
    among the sources) slices [[start_col, end_col)] out of the affected line
    range and splices in [text] (which may contain a newline), keeps [lines]
    non-empty, places the cursor at the end of the inserted text and clears
    [preferred_col] (4.B). The reducer's own comment on it gives the prefix as
    [cpSlice(line(startRow), 0, sCol)] and the suffix as
    [cpSlice(line(endRow), eCol)]. *)
Definition replaceRangeInternal (s : TextBufferState)
    (startRow startCol endRow endCol : Z) (text : jsstring) : TextBufferState :=
  let prefix := cpSlice (lineAt (lines s) startRow) 0 (Some startCol) in
  let suffix := cpSlice (lineAt (lines s) endRow) endCol None in
  let parts := splitNL text in
  let before := firstn (Z.to_nat startRow) (lines s) in
  let after := skipn (Z.to_nat (endRow + 1)) (lines s) in
  let lastPart := last parts [] in
  let middle :=
    match parts with
    | [] => [prefix ++ suffix]
    | [p] => [prefix ++ p ++ suffix]
    | p :: rest => (prefix ++ p) :: removelast rest ++ [lastPart ++ suffix]
    end in
  let row := startRow + Z.of_nat (List.length parts) - 1 in
  let col := (if (1 <? List.length parts)%nat then 0 else cpLen prefix) + cpLen lastPart in
  setLines s (before ++ middle ++ after) row col None.

(** The helpers that the reducer imports from text-buffer.ts, whose code is
    not among the sources and whose behaviour the spec leaves open, and the
    case mapping of the JavaScript runtime: they enter as parameters, and
    every result below holds for each implementation of them. A code point
    read past the end of an array is [undefined], here [None]. *)
Class TextBufferLib := {
  isWordCharStrict : option jsstring -> bool;
  isWordCharWithCombining : option jsstring -> bool;
  isCombiningMark : option jsstring -> bool;
  findNextWordAcrossLines : list jsstring -> Z -> Z -> bool -> option (Z * Z);
  findPrevWordAcrossLines : list jsstring -> Z -> Z -> option (Z * Z);
  findWordEndInLine : jsstring -> Z -> option Z;
  getLineRangeOffsets : Z -> Z -> list jsstring -> Z * Z;
  getPositionFromOffsets : Z -> Z -> list jsstring -> Z * Z * Z * Z;
  toUpperCase : jsstring -> jsstring;
  toLowerCase : jsstring -> jsstring
}.

(** ** The actions of the reducer *)

Inductive Direction := forward | backward.
Inductive FindType := inclusive | exclusive.
Inductive PasteDirection := before | after.
Inductive Movement := mv_h | mv_j | mv_k | mv_l.

Inductive VimAction :=
  | vim_delete_word_forward (count : Z)
  | vim_delete_word_backward (count : Z)
  | vim_delete_word_end (count : Z)
  | vim_change_word_forward (count : Z)
  | vim_change_word_backward (count : Z)
  | vim_change_word_end (count : Z)
  | vim_delete_line (count : Z)
  | vim_change_line (count : Z)
  | vim_delete_to_end_of_line
  | vim_change_to_end_of_line
  | vim_delete_to_line_start
  | vim_change_movement (movement : Movement) (count : Z)
  | vim_move_left (count : Z)
  | vim_move_right (count : Z)
  | vim_move_up (count : Z)
  | vim_move_down (count : Z)
  | vim_move_word_forward (count : Z)
  | vim_move_word_backward (count : Z)
  | vim_move_word_end (count : Z)
  | vim_delete_char (count : Z)
  | vim_delete_char_before (count : Z)
  | vim_toggle_case (count : Z)
  | vim_insert_at_cursor
  | vim_append_at_cursor
  | vim_open_line_below
  | vim_open_line_above
  | vim_append_at_line_end
  | vim_insert_at_line_start
  | vim_move_to_line_start
  | vim_move_to_line_end
  | vim_move_to_first_nonwhitespace
  | vim_move_to_first_line
  | vim_move_to_last_line
  | vim_move_to_line (lineNumber : Z)
  | vim_escape_insert_mode
  | vim_set_selection_anchor
  | vim_clear_selection
  | vim_search (query : jsstring) (direction : Direction)
  | vim_search_next (direction : Direction)
  | vim_yank (text : jsstring)
  | vim_yank_selection
  | vim_paste (direction : PasteDirection)
  | vim_replace_char (char : jsstring)
  | vim_find_char (char : jsstring) (direction : Direction) (type : FindType)
  | vim_move_to_matching_pair
  | vim_delete_inner_word (count : Z)
  | vim_change_inner_word (count : Z)
  | vim_yank_inner_word (count : Z).

(** ** Loops over rows and columns *)

(** [for (i = from; ...; i++)] over the lines [ls] that start at row [i]:
    the first row at which [f] answers. *)
Fixpoint scanUp {A : Type} (f : Z -> jsstring -> option A) (ls : list jsstring)
    (i : Z) : option A :=
  match ls with
  | [] => None
  | l :: t =>
      match f i l with
      | Some p => Some p
      | None => scanUp f t (i + 1)
      end
  end.

(** [for (i = from; ...; i--)] over lines given last first. *)
Fixpoint scanDown {A : Type} (f : Z -> jsstring -> option A) (ls : list jsstring)
    (i : Z) : option A :=
  match ls with
  | [] => None
  | l :: t =>
      match f i l with
      | Some p => Some p
      | None => scanDown f t (i - 1)
      end
  end.

(** The first index [>= i] of [l] (whose head has index [i]) that satisfies [p]. *)
Fixpoint findIndexUp {A : Type} (p : A -> bool) (l : list A) (i : Z) : option Z :=
  match l with
  | [] => None
  | x :: t => if p x then Some i else findIndexUp p t (i + 1)
  end.

(** The same going down, over elements given last first. *)
Fixpoint findIndexDown {A : Type} (p : A -> bool) (l : list A) (i : Z) : option Z :=
  match l with
  | [] => None
  | x :: t => if p x then Some i else findIndexDown p t (i - 1)
  end.

(** [arr.splice(start, deleteCount)] with nothing inserted: what is left. *)
Definition spliceOut {A : Type} (l : list A) (start del : Z) : list A :=
  let len := Z.of_nat (List.length l) in
  let k := relIndex len start in
  let d := Z.min (Z.max del 0) (len - k) in
  firstn (Z.to_nat k) l ++ skipn (Z.to_nat (k + d)) l.

(** The rows [start, start+1, ...], [n] of them. *)
Fixpoint zrange (start : Z) (n : nat) : list Z :=
  match n with
  | O => []
  | S n' => start :: zrange (start + 1) n'
  end.

(** ** Matching pairs *)

Definition pairs (c : option jsstring) : option jsstring :=
  if ostr_eqb c (Some (js "(")) then Some (js ")")
  else if ostr_eqb c (Some (js "{")) then Some (js "}")
  else if ostr_eqb c (Some (js "[")) then Some (js "]")
  else if ostr_eqb c (Some (js "<")) then Some (js ">")
  else None.

Definition reversePairs (c : option jsstring) : option jsstring :=
  if ostr_eqb c (Some (js ")")) then Some (js "(")
  else if ostr_eqb c (Some (js "}")) then Some (js "{")
  else if ostr_eqb c (Some (js "]")) then Some (js "[")
  else if ostr_eqb c (Some (js ">")) then Some (js "<")
  else None.

Definition isSome {A : Type} (o : option A) : bool :=
  match o with Some _ => true | None => false end.

(** The inner loop of [findPairForward] over the code points from column
    [col] on: the column of the match, or the depth the line ends with. *)
Fixpoint pairColsForward (openChar closeChar : jsstring) (chars : list jsstring)
    (col depth : Z) : Z + Z :=
  match chars with
  | [] => inr depth
  | ch :: t =>
      if str_eqb ch openChar then pairColsForward openChar closeChar t (col + 1) (depth + 1)
      else if str_eqb ch closeChar then
        if depth =? 0 then inl col
        else pairColsForward openChar closeChar t (col + 1) (depth - 1)
      else pairColsForward openChar closeChar t (col + 1) depth
  end.

Fixpoint pairRowsForward (openChar closeChar : jsstring) (startRow startCol : Z)
    (ls : list jsstring) (row depth : Z) : option (Z * Z) :=
  match ls with
  | [] => None
  | line :: t =>
      let chars := toCodePoints line in
      let colStart := Z.max (if row =? startRow then startCol else 0) 0 in
      match pairColsForward openChar closeChar
              (skipn (Z.to_nat colStart) chars) colStart depth with
      | inl col => Some (row, col)
      | inr d => pairRowsForward openChar closeChar startRow startCol t (row + 1) d
      end
  end.

Definition findPairForward (lines : list jsstring) (startRow startCol : Z)
    (openChar closeChar : jsstring) : option (Z * Z) :=
  let r0 := Z.max startRow 0 in
  pairRowsForward openChar closeChar startRow startCol
    (skipn (Z.to_nat r0) lines) r0 0.

(** The inner loop of [findPairBackward], over code points given last first. *)
Fixpoint pairColsBackward (closeChar openChar : jsstring) (chars : list jsstring)
    (col depth : Z) : Z + Z :=
  match chars with
  | [] => inr depth
  | ch :: t =>
      if str_eqb ch closeChar then pairColsBackward closeChar openChar t (col - 1) (depth + 1)
      else if str_eqb ch openChar then
        if depth =? 0 then inl col
        else pairColsBackward closeChar openChar t (col - 1) (depth - 1)
      else pairColsBackward closeChar openChar t (col - 1) depth
  end.

Fixpoint pairRowsBackward (closeChar openChar : jsstring) (startRow startCol : Z)
    (ls : list jsstring) (row depth : Z) : option (Z * Z) :=
  match ls with
  | [] => None
  | line :: t =>
      let chars := toCodePoints line in
      let len := Z.of_nat (List.length chars) in
      let colStart := if row =? startRow then startCol else len - 1 in
      let top := Z.min colStart (len - 1) in
      match pairColsBackward closeChar openChar
              (rev (firstn (Z.to_nat (top + 1)) chars)) top depth with
      | inl col => Some (row, col)
      | inr d => pairRowsBackward closeChar openChar startRow startCol t (row - 1) d
      end
  end.

Definition findPairBackward (lines : list jsstring) (startRow startCol : Z)
    (closeChar openChar : jsstring) : option (Z * Z) :=
  let top := Z.min startRow (Z.of_nat (List.length lines) - 1) in
  pairRowsBackward closeChar openChar startRow startCol
    (rev (firstn (Z.to_nat (top + 1)) lines)) top 0.

Definition findMatchingPair (lines : list jsstring) (cursorRow cursorCol : Z)
    : option (Z * Z) :=
  let currentLine := lineAt lines cursorRow in
  let codePoints := toCodePoints currentLine in
  let isPairChar := fun c : jsstring =>
    isSome (pairs (Some c)) || isSome (reversePairs (Some c)) in
  let char0 := nthZ codePoints cursorCol in
  let '(activeCol, char) :=
    if negb (isSome (pairs char0)) && negb (isSome (reversePairs char0)) then
      let from := Z.max (cursorCol + 1) 0 in
      match findIndexUp isPairChar (skipn (Z.to_nat from) codePoints) from with
      | Some i => (i, nthZ codePoints i)
      | None => (cursorCol, char0)
      end
    else (cursorCol, char0) in
  match char, pairs char, reversePairs char with
  | Some ch, Some closer, _ =>
      findPairForward lines cursorRow (activeCol + 1) ch closer
  | Some ch, None, Some opener =>
      findPairBackward lines cursorRow (activeCol - 1) ch opener
  | _, _, _ => None
  end.

(** ** The reducer [handleVimAction] *)

Section Reducer.

Context {L : TextBufferLib}.

(** Check if we're at the end of a base word (on the last base character). *)
Fixpoint skipCombining (fuel : nat) (cps : list jsstring) (i : Z) : Z :=
  match fuel with
  | O => i
  | S f =>
      if (i <? Z.of_nat (List.length cps)) && isCombiningMark (nthZ cps i)
      then skipCombining f cps (i + 1)
      else i
  end.

Definition isAtEndOfBaseWord (lineCodePoints : list jsstring) (col : Z) : bool :=
  if negb (isWordCharStrict (nthZ lineCodePoints col)) then false
  else
    let i := skipCombining (List.length lineCodePoints) lineCodePoints (col + 1) in
    (Z.of_nat (List.length lineCodePoints) <=? i)
    || negb (isWordCharStrict (nthZ lineCodePoints i)).

(** The loop of [vim_delete_word_forward] / [vim_change_word_forward]. *)
Fixpoint deleteWordForwardLoop (n : nat) (lines : list jsstring)
    (endRow endCol : Z) : Z * Z :=
  match n with
  | O => (endRow, endCol)
  | S n' =>
      match findNextWordAcrossLines lines endRow endCol true with
      | Some (r, c) => deleteWordForwardLoop n' lines r c
      | None =>
          let currentLine := lineAt lines endRow in
          match findWordEndInLine currentLine endCol with
          | Some wordEnd => (endRow, wordEnd + 1)
          | None => (endRow, cpLen currentLine)
          end
      end
  end.

(** The loop of the backward word verbs and of [vim_move_word_backward]. *)
Fixpoint wordBackwardLoop (n : nat) (lines : list jsstring) (row col : Z) : Z * Z :=
  match n with
  | O => (row, col)
  | S n' =>
      match findPrevWordAcrossLines lines row col with
      | Some (r, c) => wordBackwardLoop n' lines r c
      | None => (row, col)
      end
  end.

(** The loop of [vim_delete_word_end] / [vim_change_word_end]: [i] is the loop
    counter, the result is [(endRow, endCol)]. *)
Fixpoint deleteWordEndLoop (n : nat) (i count : Z) (lines : list jsstring)
    (row col endRow endCol : Z) : Z * Z :=
  match n with
  | O => (endRow, endCol)
  | S n' =>
      match findNextWordAcrossLines lines row col false with
      | Some (wr, wc) =>
          if i <? count - 1 then
            match findNextWordAcrossLines lines wr (wc + 1) true with
            | Some (nr, nc) =>
                deleteWordEndLoop n' (i + 1) count lines nr nc wr (wc + 1)
            | None => (wr, wc + 1)
            end
          else deleteWordEndLoop n' (i + 1) count lines row col wr (wc + 1)
      | None => (endRow, endCol)
      end
  end.

(** The loop of [vim_move_left]. *)
Fixpoint moveLeftLoop (n : nat) (lines : list jsstring) (newRow newCol : Z) : Z * Z :=
  match n with
  | O => (newRow, newCol)
  | S n' =>
      if 0 <? newCol then moveLeftLoop n' lines newRow (newCol - 1)
      else if 0 <? newRow then
        let prevLineLength := cpLen (lineAt lines (newRow - 1)) in
        moveLeftLoop n' lines (newRow - 1)
          (if prevLineLength =? 0 then 0 else prevLineLength - 1)
      else moveLeftLoop n' lines newRow newCol
  end.

(** The inner [while] of [vim_move_right]: step over combining marks. *)
Fixpoint skipMarksRight (fuel : nat) (pts : list jsstring) (lineLength newCol : Z) : Z :=
  match fuel with
  | O => newCol
  | S f =>
      if (newCol <? Z.of_nat (List.length pts))
         && isCombiningMark (nthZ pts newCol)
         && (newCol <? lineLength - 1)
      then skipMarksRight f pts lineLength (newCol + 1)
      else newCol
  end.

(** The loop of [vim_move_right]. *)
Fixpoint moveRightLoop (n : nat) (lines : list jsstring) (newRow newCol : Z) : Z * Z :=
  match n with
  | O => (newRow, newCol)
  | S n' =>
      let currentLine := lineAt lines newRow in
      let lineLength := cpLen currentLine in
      if lineLength =? 0 then
        if newRow <? Z.of_nat (List.length lines) - 1
        then moveRightLoop n' lines (newRow + 1) 0
        else moveRightLoop n' lines newRow newCol
      else if newCol <? lineLength - 1 then
        let pts := toCodePoints currentLine in
        moveRightLoop n' lines newRow
          (skipMarksRight (List.length pts) pts lineLength (newCol + 1))
      else if newRow <? Z.of_nat (List.length lines) - 1
      then moveRightLoop n' lines (newRow + 1) 0
      else moveRightLoop n' lines newRow newCol
  end.

(** The loop of [vim_move_word_forward]. *)
Fixpoint moveWordForwardLoop (n : nat) (lines : list jsstring) (row col : Z) : Z * Z :=
  match n with
  | O => (row, col)
  | S n' =>
      match findNextWordAcrossLines lines row col true with
      | Some (r, c) => moveWordForwardLoop n' lines r c
      | None => (row, col)
      end
  end.

(** The iterations of [vim_move_word_end] after the first. *)
Fixpoint moveWordEndLoop (n : nat) (lines : list jsstring) (row col : Z) : Z * Z :=
  match n with
  | O => (row, col)
  | S n' =>
      match findNextWordAcrossLines lines row col false with
      | Some (r, c) => moveWordEndLoop n' lines r c
      | None => (row, col)
      end
  end.

(** [vim_move_word_end]: the first iteration looks whether the cursor is
    already on the end of a word. *)
Definition moveWordEnd (count : Z) (lines : list jsstring) (row col : Z) : Z * Z :=
  match Z.to_nat count with
  | O => (row, col)
  | S n' =>
      let lineCodePoints := toCodePoints (lineAt lines row) in
      let len := Z.of_nat (List.length lineCodePoints) in
      let atEndOfWord :=
        (col <? len)
        && isWordCharStrict (nthZ lineCodePoints col)
        && ((len <=? col + 1)
            || negb (isWordCharWithCombining (nthZ lineCodePoints (col + 1)))
            || (isWordCharStrict (nthZ lineCodePoints col)
                && isAtEndOfBaseWord lineCodePoints col)) in
      let first :=
        match (if atEndOfWord
               then findNextWordAcrossLines lines row (col + 1) false
               else None) with
        | Some p => Some p
        | None => findNextWordAcrossLines lines row col false
        end in
      match first with
      | Some (r, c) => moveWordEndLoop n' lines r c
      | None => (row, col)
      end
  end.

(** The ordered ends of the selection between the anchor and the cursor. *)
Definition selectionRange (anchor : Z * Z) (cursorRow cursorCol : Z)
    : Z * Z * Z * Z :=
  if (fst anchor <? cursorRow)
     || ((fst anchor =? cursorRow) && (snd anchor <? cursorCol))
  then (fst anchor, snd anchor, cursorRow, cursorCol)
  else (cursorRow, cursorCol, fst anchor, snd anchor).

(** The text of [vim_yank_selection] between the ordered ends, inclusive. *)
Definition yankedText (lines : list jsstring) (startRow startCol endRow endCol : Z)
    : jsstring :=
  if startRow =? endRow then
    cpSlice (lineAt lines startRow) startCol (Some (endCol + 1))
  else
    (cpSlice (lineAt lines startRow) startCol None ++ [NL])
    ++ List.concat (map (fun i => lineAt lines i ++ [NL])
                        (zrange (startRow + 1) (Z.to_nat (endRow - (startRow + 1)))))
    ++ cpSlice (lineAt lines endRow) 0 (Some (endCol + 1)).

(** The text that [vim_toggle_case] writes over the columns
    [[cursorCol, endCol)], for a cursor column that is not negative. *)
Definition toggleText (lineCodePoints : list jsstring) (cursorCol endCol : Z) : jsstring :=
  List.concat
    (map (fun char => if str_eqb char (toUpperCase char)
                      then toLowerCase char else toUpperCase char)
         (firstn (Z.to_nat (endCol - cursorCol))
                 (skipn (Z.to_nat cursorCol) lineCodePoints))).

(** The column of the first code point that is not white space. *)
Fixpoint firstNonSpace (cps : list jsstring) (col : Z) : Z :=
  match cps with
  | [] => col
  | c :: t => if testSpace (Some c) then firstNonSpace t (col + 1) else col
  end.

(** The forward search of [vim_search] and [vim_search_next]. The rows the
    loops visit lie inside [lines] when [0 <= cursorRow < lines.length], which
    the results on search assume. *)
Definition searchForward (lines : list jsstring) (cursorRow cursorCol : Z)
    (query : jsstring) : option (Z * Z) :=
  let currentLine := lineAt lines cursorRow in
  let idx := indexOf currentLine query (cursorCol + 1) in
  if negb (idx =? -1) then Some (cursorRow, idx)
  else
    match scanUp (fun i line =>
                    let idx := indexOf line query 0 in
                    if negb (idx =? -1) then Some (i, idx) else None)
                 (skipn (Z.to_nat (cursorRow + 1)) lines) (cursorRow + 1) with
    | Some p => Some p
    | None =>
        scanUp (fun i line =>
                  let idx := indexOf line query 0 in
                  if negb (idx =? -1) && ((i <? cursorRow) || (idx <? cursorCol))
                  then Some (i, idx) else None)
               (firstn (Z.to_nat (cursorRow + 1)) lines) 0
    end.

(** The backward search of [vim_search] and [vim_search_next]. *)
Definition searchBackward (lines : list jsstring) (cursorRow cursorCol : Z)
    (query : jsstring) : option (Z * Z) :=
  let currentLine := lineAt lines cursorRow in
  let idx := lastIndexOf currentLine query (Some (cursorCol - 1)) in
  if negb (idx =? -1) then Some (cursorRow, idx)
  else
    match scanDown (fun i line =>
                      let idx := lastIndexOf line query None in
                      if negb (idx =? -1) then Some (i, idx) else None)
                   (rev (firstn (Z.to_nat cursorRow) lines)) (cursorRow - 1) with
    | Some p => Some p
    | None =>
        scanDown (fun i line =>
                    let idx := lastIndexOf line query None in
                    if negb (idx =? -1) && ((cursorRow <? i) || (cursorCol <? idx))
                    then Some (i, idx) else None)
                 (rev (skipn (Z.to_nat cursorRow) lines))
                 (Z.of_nat (List.length lines) - 1)
    end.

(** [!clipboard], [!lastSearchQuery]: [null] and the empty string are falsy. *)
Definition falsy (o : option jsstring) : bool :=
  match o with
  | None => true
  | Some [] => true
  | Some (_ :: _) => false
  end.

(** The two [while] loops of the inner-word verbs. *)
Fixpoint innerWordBack (fuel : nat) (checkType : option jsstring -> bool)
    (cps : list jsstring) (startCol : Z) : Z :=
  match fuel with
  | O => startCol
  | S f =>
      if (0 <? startCol) && checkType (nthZ cps (startCol - 1))
      then innerWordBack f checkType cps (startCol - 1)
      else startCol
  end.

Fixpoint innerWordForth (fuel : nat) (checkType : option jsstring -> bool)
    (cps : list jsstring) (endCol : Z) : Z :=
  match fuel with
  | O => endCol
  | S f =>
      if (endCol <? Z.of_nat (List.length cps) - 1) && checkType (nthZ cps (endCol + 1))
      then innerWordForth f checkType cps (endCol + 1)
      else endCol
  end.

(** The inclusive columns [(startCol, endCol)] of the inner word. *)
Definition innerWordRange (lineCodePoints : list jsstring) (cursorCol : Z) : Z * Z :=
  let len := Z.of_nat (List.length lineCodePoints) in
  let startCol := if len <=? cursorCol then len - 1 else cursorCol in
  let charUnderCursor := nthZ lineCodePoints startCol in
  let isWordChar :=
    isWordCharStrict charUnderCursor || isWordCharWithCombining charUnderCursor in
  let checkType := fun char : option jsstring =>
    if falsy char then false
    else
      let isW := isWordCharStrict char || isWordCharWithCombining char in
      if isWordChar then isW else Bool.eqb isW isWordChar in
  (innerWordBack (Z.to_nat startCol) checkType lineCodePoints startCol,
   innerWordForth (List.length lineCodePoints) checkType lineCodePoints cursorCol).

(** The body shared by [vim_search] and [vim_search_next] once the query and
    the direction are known: where the match is, if there is one. *)
Definition searchFind (s : TextBufferState) (query : jsstring) (direction : Direction)
    : option (Z * Z) :=
  match direction with
  | forward => searchForward (lines s) (cursorRow s) (cursorCol s) query
  | backward => searchBackward (lines s) (cursorRow s) (cursorCol s) query
  end.

Definition handleVimAction (state : TextBufferState) (action : VimAction)
    : TextBufferState :=
  let lines := lines state in
  let cursorRow := cursorRow state in
  let cursorCol := cursorCol state in
  let nlines := Z.of_nat (List.length lines) in
  match action with
  | vim_delete_word_forward count
  | vim_change_word_forward count =>
      let '(endRow, endCol) :=
        deleteWordForwardLoop (Z.to_nat count) lines cursorRow cursorCol in
      if negb (endRow =? cursorRow) || negb (endCol =? cursorCol) then
        replaceRangeInternal (pushUndo state) cursorRow cursorCol endRow endCol []
      else state

  | vim_delete_word_backward count
  | vim_change_word_backward count =>
      let '(startRow, startCol) :=
        wordBackwardLoop (Z.to_nat count) lines cursorRow cursorCol in
      if negb (startRow =? cursorRow) || negb (startCol =? cursorCol) then
        replaceRangeInternal (pushUndo state) startRow startCol cursorRow cursorCol []
      else state

  | vim_delete_word_end count
  | vim_change_word_end count =>
      let '(endRow, endCol0) :=
        deleteWordEndLoop (Z.to_nat count) 0 count lines
                          cursorRow cursorCol cursorRow cursorCol in
      let endCol :=
        if endRow <? nlines then Z.min endCol0 (cpLen (lineAt lines endRow))
        else endCol0 in
      if negb (endRow =? cursorRow) || negb (endCol =? cursorCol) then
        replaceRangeInternal (pushUndo state) cursorRow cursorCol endRow endCol []
      else state

  | vim_delete_line count =>
      if nlines =? 0 then state
      else
        let linesToDelete := Z.min count (nlines - cursorRow) in
        let totalLines := nlines in
        if (totalLines =? 1) || (totalLines <=? linesToDelete) then
          let nextState := pushUndo state in
          setLines nextState [[]] 0 0 None
        else
          let nextState := pushUndo state in
          let newLines := spliceOut (Buf.lines nextState)
                                    cursorRow linesToDelete in
          let newCursorRow := Z.min cursorRow (Z.of_nat (List.length newLines) - 1) in
          let newCursorCol := 0 in
          setLines nextState newLines newCursorRow newCursorCol None

  | vim_change_line count =>
      if nlines =? 0 then state
      else
        let linesToChange := Z.min count (nlines - cursorRow) in
        let nextState := pushUndo state in
        let '(startOffset, endOffset) :=
          getLineRangeOffsets cursorRow linesToChange
                              (Buf.lines nextState) in
        let '(startRow, startCol, endRow, endCol) :=
          getPositionFromOffsets startOffset endOffset
                                 (Buf.lines nextState) in
        replaceRangeInternal nextState startRow startCol endRow endCol []

  | vim_delete_to_end_of_line
  | vim_change_to_end_of_line =>
      let currentLine := lineAt lines cursorRow in
      if cursorCol <? cpLen currentLine then
        replaceRangeInternal (pushUndo state) cursorRow cursorCol
                             cursorRow (cpLen currentLine) []
      else state

  | vim_delete_to_line_start =>
      if 0 <? cursorCol then
        let result :=
          replaceRangeInternal (pushUndo state) cursorRow 0 cursorRow cursorCol [] in
        setCursorCol result 0
      else state

  | vim_change_movement movement count =>
      let totalLines := nlines in
      match movement with
      | mv_h =>
          let startCol := Z.max 0 (cursorCol - count) in
          replaceRangeInternal (pushUndo state) cursorRow startCol
                               cursorRow cursorCol []
      | mv_j =>
          let linesToChange := Z.min count (totalLines - cursorRow) in
          if 0 <? linesToChange then
            if totalLines =? 1 then
              let currentLine := lineAt lines 0 in
              replaceRangeInternal (pushUndo state) 0 0 0 (cpLen currentLine) []
            else
              let nextState := pushUndo state in
              let '(startOffset, endOffset) :=
                getLineRangeOffsets cursorRow linesToChange
                                    (Buf.lines nextState) in
              let '(startRow, startCol, endRow, endCol) :=
                getPositionFromOffsets startOffset endOffset
                                       (Buf.lines nextState) in
              replaceRangeInternal nextState startRow startCol endRow endCol []
          else state
      | mv_k =>
          let upLines := Z.min count (cursorRow + 1) in
          if 0 <? upLines then
            if nlines =? 1 then
              let currentLine := lineAt lines 0 in
              replaceRangeInternal (pushUndo state) 0 0 0 (cpLen currentLine) []
            else
              let startRow := Z.max 0 (cursorRow - count + 1) in
              let linesToChange := cursorRow - startRow + 1 in
              let nextState := pushUndo state in
              let '(startOffset, endOffset) :=
                getLineRangeOffsets startRow linesToChange
                                    (Buf.lines nextState) in
              let '(newStartRow, startCol, endRow, endCol) :=
                getPositionFromOffsets startOffset endOffset
                                       (Buf.lines nextState) in
              let resultState :=
                replaceRangeInternal nextState newStartRow startCol endRow endCol [] in
              setCursorRowCol resultState startRow 0
          else state
      | mv_l =>
          replaceRangeInternal (pushUndo state) cursorRow cursorCol cursorRow
            (Z.min (cpLen (lineAt lines cursorRow)) (cursorCol + count)) []
      end

  | vim_move_left count =>
      let '(newRow, newCol) := moveLeftLoop (Z.to_nat count) lines cursorRow cursorCol in
      setCursor state newRow newCol None

  | vim_move_right count =>
      let '(newRow, newCol) := moveRightLoop (Z.to_nat count) lines cursorRow cursorCol in
      setCursor state newRow newCol None

  | vim_move_up count =>
      let newRow := Z.max 0 (cursorRow - count) in
      let targetLineLength := cpLen (lineAt lines newRow) in
      let newPreferredCol :=
        match preferredCol state with
        | None => cursorCol
        | Some p => p
        end in
      let newCol :=
        Z.min newPreferredCol (if 0 <? targetLineLength then targetLineLength - 1 else 0) in
      setCursor state newRow newCol (Some newPreferredCol)

  | vim_move_down count =>
      let newRow := Z.min (nlines - 1) (cursorRow + count) in
      let targetLineLength := cpLen (lineAt lines newRow) in
      let newPreferredCol :=
        match preferredCol state with
        | None => cursorCol
        | Some p => p
        end in
      let newCol :=
        Z.min newPreferredCol (if 0 <? targetLineLength then targetLineLength - 1 else 0) in
      setCursor state newRow newCol (Some newPreferredCol)

  | vim_move_word_forward count =>
      let '(row, col) := moveWordForwardLoop (Z.to_nat count) lines cursorRow cursorCol in
      setCursor state row col None

  | vim_move_word_backward count =>
      let '(row, col) := wordBackwardLoop (Z.to_nat count) lines cursorRow cursorCol in
      setCursor state row col None

  | vim_move_word_end count =>
      let '(row, col) := moveWordEnd count lines cursorRow cursorCol in
      setCursor state row col None

  | vim_delete_char count =>
      match selectionAnchor state with
      | Some anchor =>
          let nextState := pushUndo state in
          let '(startRow, startCol, endRow, endCol) :=
            selectionRange anchor cursorRow cursorCol in
          setSelectionAnchor
            (replaceRangeInternal nextState startRow startCol endRow (endCol + 1) [])
            None
      | None =>
          let currentLine := lineAt lines cursorRow in
          let lineLength := cpLen currentLine in
          if cursorCol <? lineLength then
            let deleteCount := Z.min count (lineLength - cursorCol) in
            replaceRangeInternal (pushUndo state) cursorRow cursorCol
                                 cursorRow (cursorCol + deleteCount) []
          else state
      end

  | vim_delete_char_before count =>
      if 0 <? cursorCol then
        let deleteCount := Z.min count cursorCol in
        let startCol := cursorCol - deleteCount in
        let result :=
          replaceRangeInternal (pushUndo state) cursorRow startCol
                               cursorRow cursorCol [] in
        setCursorCol result startCol
      else state

  | vim_toggle_case count =>
      let currentLine := lineAt lines cursorRow in
      let lineCodePoints := toCodePoints currentLine in
      let len := Z.of_nat (List.length lineCodePoints) in
      if cursorCol <? len then
        let nextState := pushUndo state in
        let endCol := Z.min (cursorCol + count) len in
        let newText := toggleText lineCodePoints cursorCol endCol in
        let result :=
          replaceRangeInternal nextState cursorRow cursorCol cursorRow endCol newText in
        setCursorCol result (Z.min endCol (len - 1))
      else state

  | vim_insert_at_cursor => state

  | vim_append_at_cursor =>
      let currentLine := lineAt lines cursorRow in
      let newCol := if cursorCol <? cpLen currentLine then cursorCol + 1 else cursorCol in
      setCursor state cursorRow newCol None

  | vim_open_line_below =>
      let nextState := pushUndo state in
      let endOfLine := cpLen (lineAt lines cursorRow) in
      replaceRangeInternal nextState cursorRow endOfLine cursorRow endOfLine [NL]

  | vim_open_line_above =>
      let nextState := pushUndo state in
      let resultState := replaceRangeInternal nextState cursorRow 0 cursorRow 0 [NL] in
      setCursorRowCol resultState cursorRow 0

  | vim_append_at_line_end =>
      let lineLength := cpLen (lineAt lines cursorRow) in
      setCursor state cursorRow lineLength None

  | vim_insert_at_line_start =>
      let col := firstNonSpace (toCodePoints (lineAt lines cursorRow)) 0 in
      setCursor state cursorRow col None

  | vim_move_to_line_start => setCursor state cursorRow 0 None

  | vim_move_to_line_end =>
      let lineLength := cpLen (lineAt lines cursorRow) in
      setCursor state cursorRow (if 0 <? lineLength then lineLength - 1 else 0) None

  | vim_move_to_first_nonwhitespace =>
      let col := firstNonSpace (toCodePoints (lineAt lines cursorRow)) 0 in
      setCursor state cursorRow col None

  | vim_move_to_first_line => setCursor state 0 0 None

  | vim_move_to_last_line =>
      let lastRow := nlines - 1 in
      setCursor state lastRow 0 None

  | vim_move_to_line lineNumber =>
      let targetRow := Z.min (Z.max 0 (lineNumber - 1)) (nlines - 1) in
      setCursor state targetRow 0 None

  | vim_escape_insert_mode =>
      let newCol := if 0 <? cursorCol then cursorCol - 1 else 0 in
      setCursor state cursorRow newCol None

  | vim_set_selection_anchor =>
      setSelectionAnchor state (Some (cursorRow, cursorCol))

  | vim_clear_selection => setSelectionAnchor state None

  | vim_search query direction =>
      match searchFind state query direction with
      | Some (foundRow, foundCol) =>
          setLastSearchQuery (setCursor state foundRow foundCol None) (Some query)
      | None => setLastSearchQuery state (Some query)
      end

  | vim_search_next direction =>
      if falsy (lastSearchQuery state) then state
      else
        let query := match lastSearchQuery state with Some q => q | None => [] end in
        match searchFind state query direction with
        | Some (foundRow, foundCol) => setCursor state foundRow foundCol None
        | None => state
        end

  | vim_yank text => setClipboard state (Some text)

  | vim_yank_selection =>
      match selectionAnchor state with
      | None => state
      | Some anchor =>
          let '(startRow, startCol, endRow, endCol) :=
            selectionRange anchor cursorRow cursorCol in
          setClipboard state (Some (yankedText lines startRow startCol endRow endCol))
      end

  | vim_paste direction =>
      if falsy (clipboard state) then state
      else
        let clipboard := match clipboard state with Some c => c | None => [] end in
        let nextState := pushUndo state in
        match direction with
        | after =>
            let currentLine := lineAt lines cursorRow in
            if includes clipboard [NL] then
              if endsWith clipboard [NL] then
                let endOfLine := cpLen currentLine in
                replaceRangeInternal nextState cursorRow endOfLine cursorRow endOfLine
                  (NL :: slice clipboard 0 (Some (-1)))
              else
                let insertCol := Z.min (cursorCol + 1) (cpLen currentLine) in
                replaceRangeInternal nextState cursorRow insertCol
                                     cursorRow insertCol clipboard
            else
              let insertCol := Z.min (cursorCol + 1) (cpLen currentLine) in
              replaceRangeInternal nextState cursorRow insertCol
                                   cursorRow insertCol clipboard
        | before =>
            if includes clipboard [NL] && endsWith clipboard [NL] then
              replaceRangeInternal nextState cursorRow 0 cursorRow 0 clipboard
            else
              replaceRangeInternal nextState cursorRow cursorCol
                                   cursorRow cursorCol clipboard
        end

  | vim_replace_char char =>
      let currentLine := lineAt lines cursorRow in
      if cursorCol <? cpLen currentLine then
        replaceRangeInternal (pushUndo state) cursorRow cursorCol
                             cursorRow (cursorCol + 1) char
      else state

  | vim_find_char char direction type =>
      let currentLine := lineAt lines cursorRow in
      let lineCodePoints := toCodePoints currentLine in
      let len := Z.of_nat (List.length lineCodePoints) in
      let found :=
        match direction with
        | forward =>
            let startSearchCol := Z.max (cursorCol + 1) 0 in
            findIndexUp (fun c => str_eqb c char)
                        (skipn (Z.to_nat startSearchCol) lineCodePoints) startSearchCol
        | backward =>
            let startSearchCol := Z.min (cursorCol - 1) (len - 1) in
            findIndexDown (fun c => str_eqb c char)
                          (rev (firstn (Z.to_nat (startSearchCol + 1)) lineCodePoints))
                          startSearchCol
        end in
      match found with
      | Some newCol =>
          let finalCol0 :=
            match type with
            | exclusive =>
                match direction with
                | forward => newCol - 1
                | backward => newCol + 1
                end
            | inclusive => newCol
            end in
          let finalCol := Z.max 0 (Z.min finalCol0 (cpLen currentLine - 1)) in
          setCursor state cursorRow finalCol None
      | None => state
      end

  | vim_move_to_matching_pair =>
      match findMatchingPair lines cursorRow cursorCol with
      | Some (row, col) => setCursor state row col None
      | None => state
      end

  | vim_delete_inner_word _
  | vim_change_inner_word _ =>
      let currentLine := lineAt lines cursorRow in
      let lineCodePoints := toCodePoints currentLine in
      if Z.of_nat (List.length lineCodePoints) =? 0 then state
      else
        let '(startCol, endCol) := innerWordRange lineCodePoints cursorCol in
        replaceRangeInternal (pushUndo state) cursorRow startCol
                             cursorRow (endCol + 1) []

  | vim_yank_inner_word _ =>
      let currentLine := lineAt lines cursorRow in
      let lineCodePoints := toCodePoints currentLine in
      if Z.of_nat (List.length lineCodePoints) =? 0 then state
      else
        let '(startCol, endCol) := innerWordRange lineCodePoints cursorCol in
        setClipboard state (Some (cpSlice currentLine startCol (Some (endCol + 1))))
  end.

End Reducer.

(** ** The modal controller (hooks/vim.ts) *)

Inductive VimMode := NORMAL | INSERT | VISUAL | VISUAL_LINE | COMMAND.

Inductive Operator := op_g | op_d | op_c | op_y.

Record Find := mkFind {
  f_char : jsstring;
  f_direction : Direction;
  f_type : FindType
}.

(** A key event after [normalizeKey]: every field is present (a missing field
    of the raw event becomes [''] or [false]). *)
Record Key := mkKey {
  name : string;
  sequence : jsstring;
  ctrl : bool;
  meta : bool;
  shift : bool;
  paste : bool;
  insertable : bool
}.

Module Cmd.
(** [CMD_TYPES] *)
Definition DELETE_WORD_FORWARD : string := "dw".
Definition DELETE_WORD_BACKWARD : string := "db".
Definition DELETE_WORD_END : string := "de".
Definition CHANGE_WORD_FORWARD : string := "cw".
Definition CHANGE_WORD_BACKWARD : string := "cb".
Definition CHANGE_WORD_END : string := "ce".
Definition DELETE_CHAR : string := "x".
Definition DELETE_LINE : string := "dd".
Definition CHANGE_LINE : string := "cc".
Definition DELETE_TO_EOL : string := "D".
Definition CHANGE_TO_EOL : string := "C".
Definition CHANGE_MOVEMENT_LEFT : string := "ch".
Definition CHANGE_MOVEMENT_DOWN : string := "cj".
Definition CHANGE_MOVEMENT_UP : string := "ck".
Definition CHANGE_MOVEMENT_RIGHT : string := "cl".
End Cmd.

Record VimState := mkVim {
  mode : VimMode;
  commandBuffer : jsstring;
  count : Z;
  pendingOperator : option Operator;
  pendingChord : bool;            (* ['ctrl+x'] or [null] *)
  pendingReplace : bool;
  pendingInner : bool;
  pendingFind : option Find;
  lastFind : option Find;
  lastCommand : option (string * Z)
}.

Inductive VimReducerAction :=
  | SET_MODE (m : VimMode)
  | SET_COMMAND_BUFFER (buffer : jsstring)
  | SET_COUNT (c : Z)
  | INCREMENT_COUNT (digit : Z)
  | CLEAR_COUNT
  | SET_PENDING_OPERATOR (operator : option Operator)
  | SET_PENDING_CHORD (chord : bool)
  | SET_PENDING_REPLACE (pending : bool)
  | SET_PENDING_INNER (pending : bool)
  | SET_PENDING_FIND (find : option Find)
  | SET_LAST_FIND (find : option Find)
  | SET_LAST_COMMAND (command : option (string * Z))
  | CLEAR_PENDING_STATES
  | ESCAPE_TO_NORMAL.

Definition initialVimState : VimState :=
  mkVim NORMAL [] 0 None false false false None None None.

Definition DIGIT_MULTIPLIER : Z := 10.
Definition DEFAULT_COUNT : Z := 1.

(** [{...state, ...createClearPendingState()}] *)
Definition clearPending (st : VimState) : VimState :=
  mkVim (mode st) (commandBuffer st) 0 None false false false None None
        (lastCommand st).

Definition vimReducer (st : VimState) (a : VimReducerAction) : VimState :=
  match a with
  | SET_MODE m =>
      mkVim m (commandBuffer st) (count st) (pendingOperator st) (pendingChord st)
            (pendingReplace st) (pendingInner st) (pendingFind st) (lastFind st)
            (lastCommand st)
  | SET_COMMAND_BUFFER b =>
      mkVim (mode st) b (count st) (pendingOperator st) (pendingChord st)
            (pendingReplace st) (pendingInner st) (pendingFind st) (lastFind st)
            (lastCommand st)
  | SET_COUNT c =>
      mkVim (mode st) (commandBuffer st) c (pendingOperator st) (pendingChord st)
            (pendingReplace st) (pendingInner st) (pendingFind st) (lastFind st)
            (lastCommand st)
  | INCREMENT_COUNT digit =>
      mkVim (mode st) (commandBuffer st) (count st * DIGIT_MULTIPLIER + digit)
            (pendingOperator st) (pendingChord st)
            (pendingReplace st) (pendingInner st) (pendingFind st) (lastFind st)
            (lastCommand st)
  | CLEAR_COUNT =>
      mkVim (mode st) (commandBuffer st) 0 (pendingOperator st) (pendingChord st)
            (pendingReplace st) (pendingInner st) (pendingFind st) (lastFind st)
            (lastCommand st)
  | SET_PENDING_OPERATOR o =>
      mkVim (mode st) (commandBuffer st) (count st) o (pendingChord st)
            (pendingReplace st) (pendingInner st) (pendingFind st) (lastFind st)
            (lastCommand st)
  | SET_PENDING_CHORD c =>
      mkVim (mode st) (commandBuffer st) (count st) (pendingOperator st) c
            (pendingReplace st) (pendingInner st) (pendingFind st) (lastFind st)
            (lastCommand st)
  | SET_PENDING_REPLACE p =>
      mkVim (mode st) (commandBuffer st) (count st) (pendingOperator st)
            (pendingChord st) p (pendingInner st) (pendingFind st) (lastFind st)
            (lastCommand st)
  | SET_PENDING_INNER p =>
      mkVim (mode st) (commandBuffer st) (count st) (pendingOperator st)
            (pendingChord st) (pendingReplace st) p (pendingFind st) (lastFind st)
            (lastCommand st)
  | SET_PENDING_FIND f =>
      mkVim (mode st) (commandBuffer st) (count st) (pendingOperator st)
            (pendingChord st) (pendingReplace st) (pendingInner st) f (lastFind st)
            (lastCommand st)
  | SET_LAST_FIND f =>
      mkVim (mode st) (commandBuffer st) (count st) (pendingOperator st)
            (pendingChord st) (pendingReplace st) (pendingInner st) (pendingFind st) f
            (lastCommand st)
  | SET_LAST_COMMAND c =>
      mkVim (mode st) (commandBuffer st) (count st) (pendingOperator st)
            (pendingChord st) (pendingReplace st) (pendingInner st) (pendingFind st)
            (lastFind st) c
  | CLEAR_PENDING_STATES => clearPending st
  | ESCAPE_TO_NORMAL => clearPending st
  end.

(** What the controller does to its collaborators besides the buffer. *)
Inductive Effect :=
  | Submitted (value : jsstring)
  | OpenedExternalEditor.

(** The controller's reducer state, the buffer it drives, and the calls made
    to the outside so far (latest last). *)
Record World := mkWorld {
  vim : VimState;
  buffer : TextBufferState;
  effects : list Effect
}.

Inductive VimModeStyle := vim_editor | bash_vim.

(** What the hook reads from its context, its settings and its arguments. *)
Record Env := mkEnv {
  vimEnabled : bool;
  vimModeStyle : VimModeStyle;
  disableVimCommandMode : bool;
  hasOnSubmit : bool
}.

(** The methods of the [TextBuffer] object that do not go through
    [handleVimAction]; their code (text-buffer.ts) is not among the sources,
    so they are parameters: [buffer.handleInput(key)] and
    [buffer.setText(text)]. *)
Class TextBufferPorts := {
  bufferHandleInput : Key -> TextBufferState -> TextBufferState;
  bufferSetText : jsstring -> TextBufferState -> TextBufferState
}.

(** Modelled from the spec: [buffer.text] (text-buffer.ts, not among the
    sources) is the buffer text, the lines joined by newlines. *)
Definition bufferText (b : TextBufferState) : jsstring := joinNL (lines b).

Definition isVisual (m : VimMode) : bool :=
  match m with
  | VISUAL | VISUAL_LINE => true
  | _ => false
  end.

Definition mode_eqb (a b : VimMode) : bool :=
  match a, b with
  | NORMAL, NORMAL | INSERT, INSERT | VISUAL, VISUAL
  | VISUAL_LINE, VISUAL_LINE | COMMAND, COMMAND => true
  | _, _ => false
  end.

Definition op_is (o : option Operator) (x : Operator) : bool :=
  match o, x with
  | Some op_g, op_g | Some op_d, op_d | Some op_c, op_c | Some op_y, op_y => true
  | _, _ => false
  end.

Definition nameIs (k : Key) (n : string) : bool := String.eqb (name k) n.
Definition seqIs (k : Key) (c : string) : bool := str_eqb (sequence k) (js c).

(** [DIGIT_1_TO_9.test(sequence)] *)
Definition isDigit1To9 (s : jsstring) : bool :=
  match s with
  | [u] => ((49 <=? u) && (u <=? 57))%N
  | _ => false
  end.

(** [parseInt(sequence, 10)] on a single decimal digit. *)
Definition parseDigit (s : jsstring) : Z :=
  match s with
  | u :: _ => Z.of_N u - 48
  | [] => 0
  end.

Section Controller.

Context {L : TextBufferLib} {P : TextBufferPorts}.
Variable env : Env.

(** [dispatch(action)] of the controller's reducer. *)
Definition dispatch (a : VimReducerAction) (w : World) : World :=
  mkWorld (vimReducer (vim w) a) (buffer w) (effects w).

(** Modelled from the spec: the methods [buffer.vimXxx(...)] of the
    [TextBuffer] object (text-buffer.ts, not among the sources) each dispatch
    the reducer action of the same name, which [handleVimAction] handles
    (spec 2: key, then one or more actions, then the state update). *)
Definition buf (a : VimAction) (w : World) : World :=
  mkWorld (vim w) (handleVimAction (buffer w) a) (effects w).

Definition onBuffer (f : TextBufferState -> TextBufferState) (w : World) : World :=
  mkWorld (vim w) (f (buffer w)) (effects w).

Definition emit (e : Effect) (w : World) : World :=
  mkWorld (vim w) (buffer w) (effects w ++ [e]).

Notation "w |> f" := (f w) (at level 45, left associativity, only parsing).

Definition updateMode (m : VimMode) (w : World) : World :=
  let w := dispatch (SET_MODE m) w in
  if negb (mode_eqb m COMMAND) then dispatch (SET_COMMAND_BUFFER []) w else w.

(** [state.count || DEFAULT_COUNT] *)
Definition getCurrentCount (st : VimState) : Z :=
  if count st =? 0 then DEFAULT_COUNT else count st.

Definition executeCommand (cmdType : string) (count : Z) (w : World) : bool * World :=
  if String.eqb cmdType Cmd.DELETE_WORD_FORWARD then
    (true, w |> buf (vim_delete_word_forward count))
  else if String.eqb cmdType Cmd.DELETE_WORD_BACKWARD then
    (true, w |> buf (vim_delete_word_backward count))
  else if String.eqb cmdType Cmd.DELETE_WORD_END then
    (true, w |> buf (vim_delete_word_end count))
  else if String.eqb cmdType Cmd.CHANGE_WORD_FORWARD then
    (true, w |> buf (vim_change_word_forward count) |> updateMode INSERT)
  else if String.eqb cmdType Cmd.CHANGE_WORD_BACKWARD then
    (true, w |> buf (vim_change_word_backward count) |> updateMode INSERT)
  else if String.eqb cmdType Cmd.CHANGE_WORD_END then
    (true, w |> buf (vim_change_word_end count) |> updateMode INSERT)
  else if String.eqb cmdType Cmd.DELETE_CHAR then
    (true, w |> buf (vim_delete_char count))
  else if String.eqb cmdType Cmd.DELETE_LINE then
    (true, w |> buf (vim_delete_line count))
  else if String.eqb cmdType Cmd.CHANGE_LINE then
    (true, w |> buf (vim_change_line count) |> updateMode INSERT)
  else if String.eqb cmdType Cmd.CHANGE_MOVEMENT_LEFT then
    (true, w |> buf (vim_change_movement mv_h count) |> updateMode INSERT)
  else if String.eqb cmdType Cmd.CHANGE_MOVEMENT_DOWN then
    (true, w |> buf (vim_change_movement mv_j count) |> updateMode INSERT)
  else if String.eqb cmdType Cmd.CHANGE_MOVEMENT_UP then
    (true, w |> buf (vim_change_movement mv_k count) |> updateMode INSERT)
  else if String.eqb cmdType Cmd.CHANGE_MOVEMENT_RIGHT then
    (true, w |> buf (vim_change_movement mv_l count) |> updateMode INSERT)
  else if String.eqb cmdType Cmd.DELETE_TO_EOL then
    (true, w |> buf vim_delete_to_end_of_line)
  else if String.eqb cmdType Cmd.CHANGE_TO_EOL then
    (true, w |> buf vim_change_to_end_of_line |> updateMode INSERT)
  else (false, w).

(** Handles key input in COMMAND mode; [st] is the reducer state the handler
    closed over. *)
Definition handleCommandModeInput (st : VimState) (k : Key) (w : World) : bool * World :=
  if nameIs k "escape" then (true, w |> updateMode NORMAL)
  else if nameIs k "return" then
    let cmd := commandBuffer st in
    let w := w |> updateMode NORMAL in
    if isPrefix (js ":") cmd then (true, w)
    else if isPrefix (js "/") cmd || isPrefix (js "?") cmd then
      let query := slice cmd 1 None in
      let direction := if isPrefix (js "/") cmd then forward else backward in
      match query with
      | [] => (true, w)
      | _ :: _ => (true, w |> buf (vim_search query direction))
      end
    else (true, w)
  else if nameIs k "backspace" then
    if strlen (commandBuffer st) <=? 1 then (true, w |> updateMode NORMAL)
    else (true, w |> dispatch (SET_COMMAND_BUFFER (slice (commandBuffer st) 0 (Some (-1)))))
  else if strlen (sequence k) =? 1 then
    (true, w |> dispatch (SET_COMMAND_BUFFER (commandBuffer st ++ sequence k)))
  else (true, w).

(** Handles key input in INSERT mode. *)
Definition handleInsertModeInput (k : Key) (w : World) : bool * World :=
  if nameIs k "escape" then
    (true, w |> buf vim_escape_insert_mode |> dispatch ESCAPE_TO_NORMAL
             |> updateMode NORMAL)
  else if ctrl k && nameIs k "w" then (true, w |> buf (vim_delete_word_backward 1))
  else if ctrl k && nameIs k "u" then (true, w |> buf vim_delete_to_line_start)
  else if nameIs k "tab"
          || (nameIs k "return" && negb (ctrl k))
          || nameIs k "up"
          || nameIs k "down"
          || (ctrl k && nameIs k "r") then (false, w)
  else if ctrl k && nameIs k "v" then (false, w)
  else if seqIs k "!" && (strlen (bufferText (buffer w)) =? 0) then (false, w)
  else if nameIs k "return" && negb (ctrl k) && negb (meta k) then
    if negb (trimIsEmpty (bufferText (buffer w))) && hasOnSubmit env then
      let submittedValue := bufferText (buffer w) in
      (true, w |> onBuffer (bufferSetText []) |> emit (Submitted submittedValue))
    else (true, w)
  else (true, w |> onBuffer (bufferHandleInput k)).

(** Handles change movement commands (ch, cj, ck, cl). *)
Definition handleChangeMovement (st : VimState) (movement : Movement) (w : World)
    : bool * World :=
  let count := getCurrentCount st in
  let cmdType :=
    match movement with
    | mv_h => Cmd.CHANGE_MOVEMENT_LEFT
    | mv_j => Cmd.CHANGE_MOVEMENT_DOWN
    | mv_k => Cmd.CHANGE_MOVEMENT_UP
    | mv_l => Cmd.CHANGE_MOVEMENT_RIGHT
    end in
  (true, w |> dispatch CLEAR_COUNT
           |> buf (vim_change_movement movement count)
           |> updateMode INSERT
           |> dispatch (SET_LAST_COMMAND (Some (cmdType, count)))
           |> dispatch (SET_PENDING_OPERATOR None)).

Inductive Motion := mo_w | mo_b | mo_e.

(** Handles operator-motion commands (dw/cw, db/cb, de/ce); [d] tells the
    operator: delete, or else change. *)
Definition handleOperatorMotion (st : VimState) (d : bool) (motion : Motion) (w : World)
    : bool * World :=
  let count := getCurrentCount st in
  let cmdType :=
    match d, motion with
    | true, mo_w => Cmd.DELETE_WORD_FORWARD
    | true, mo_b => Cmd.DELETE_WORD_BACKWARD
    | true, mo_e => Cmd.DELETE_WORD_END
    | false, mo_w => Cmd.CHANGE_WORD_FORWARD
    | false, mo_b => Cmd.CHANGE_WORD_BACKWARD
    | false, mo_e => Cmd.CHANGE_WORD_END
    end in
  (true, snd (executeCommand cmdType count w)
           |> dispatch (SET_LAST_COMMAND (Some (cmdType, count)))
           |> dispatch CLEAR_COUNT
           |> dispatch (SET_PENDING_OPERATOR None)).

(** The four direction keys, by letter or by arrow. *)
Definition handleDirection (st : VimState) (movement : Movement) (w : World)
    : bool * World :=
  if op_is (pendingOperator st) op_c then handleChangeMovement st movement w
  else
    let repeatCount := getCurrentCount st in
    let a :=
      match movement with
      | mv_h => vim_move_left repeatCount
      | mv_j => vim_move_down repeatCount
      | mv_k => vim_move_up repeatCount
      | mv_l => vim_move_right repeatCount
      end in
    (true, w |> buf a |> dispatch CLEAR_COUNT).

(** [j], [k] and [G] in NORMAL mode with no pending operator are left to the
    prompt when the style is bash-vim. *)
Definition yieldsToHistory (st : VimState) : bool :=
  match vimModeStyle env with
  | bash_vim => mode_eqb (mode st) NORMAL && negb (isSome (pendingOperator st))
  | vim_editor => false
  end.

(** Handles key input in NORMAL, VISUAL and VISUAL_LINE mode. *)
Definition handleNormalModeInput (st : VimState) (k : Key) (w : World) : bool * World :=
  if nameIs k "escape" then
    if isVisual (mode st) then
      (true, w |> updateMode NORMAL |> buf vim_clear_selection
               |> dispatch CLEAR_PENDING_STATES)
    else if isSome (pendingOperator st) then (true, w |> dispatch CLEAR_PENDING_STATES)
    else (false, w)
  else if mode_eqb (mode st) NORMAL && (seqIs k ":" || seqIs k "/" || seqIs k "?") then
    if (match vimModeStyle env with bash_vim => true | vim_editor => false end)
       && (seqIs k "/" || seqIs k "?") then (false, w)
    else if disableVimCommandMode env then
      (true, w |> updateMode INSERT |> onBuffer (bufferHandleInput k))
    else
      (true, w |> updateMode COMMAND |> dispatch (SET_COMMAND_BUFFER (sequence k)))
  else if isDigit1To9 (sequence k) || (seqIs k "0" && (0 <? count st)) then
    (true, w |> dispatch (INCREMENT_COUNT (parseDigit (sequence k))))
  else
    let repeatCount := getCurrentCount st in
    if seqIs k "v" then
      let w :=
        match mode st with
        | NORMAL => w |> updateMode VISUAL |> buf vim_set_selection_anchor
        | VISUAL => w |> updateMode NORMAL |> buf vim_clear_selection
        | VISUAL_LINE => w |> updateMode VISUAL
        | _ => w
        end in
      (true, w |> dispatch CLEAR_COUNT)
    else if seqIs k "V" then
      let w :=
        match mode st with
        | NORMAL => w |> updateMode VISUAL_LINE |> buf vim_set_selection_anchor
        | VISUAL_LINE => w |> updateMode NORMAL |> buf vim_clear_selection
        | VISUAL => w |> updateMode VISUAL_LINE
        | _ => w
        end in
      (true, w |> dispatch CLEAR_COUNT)
    else if seqIs k "h" then handleDirection st mv_h w
    else if seqIs k "j" then
      if yieldsToHistory st then (false, w) else handleDirection st mv_j w
    else if seqIs k "k" then
      if yieldsToHistory st then (false, w) else handleDirection st mv_k w
    else if seqIs k "l" then handleDirection st mv_l w
    else if seqIs k "w" then
      if pendingInner st && op_is (pendingOperator st) op_d then
        (true, w |> buf (vim_delete_inner_word repeatCount)
                 |> dispatch CLEAR_PENDING_STATES |> dispatch CLEAR_COUNT)
      else if pendingInner st && op_is (pendingOperator st) op_c then
        (true, w |> buf (vim_change_inner_word repeatCount) |> updateMode INSERT
                 |> dispatch CLEAR_PENDING_STATES |> dispatch CLEAR_COUNT)
      else if pendingInner st && op_is (pendingOperator st) op_y then
        (true, w |> buf (vim_yank_inner_word repeatCount)
                 |> dispatch CLEAR_PENDING_STATES |> dispatch CLEAR_COUNT)
      else if op_is (pendingOperator st) op_d then handleOperatorMotion st true mo_w w
      else if op_is (pendingOperator st) op_c then handleOperatorMotion st false mo_w w
      else (true, w |> buf (vim_move_word_forward repeatCount) |> dispatch CLEAR_COUNT)
    else if seqIs k "b" then
      if op_is (pendingOperator st) op_d then handleOperatorMotion st true mo_b w
      else if op_is (pendingOperator st) op_c then handleOperatorMotion st false mo_b w
      else (true, w |> buf (vim_move_word_backward repeatCount) |> dispatch CLEAR_COUNT)
    else if seqIs k "e" then
      if op_is (pendingOperator st) op_d then handleOperatorMotion st true mo_e w
      else if op_is (pendingOperator st) op_c then handleOperatorMotion st false mo_e w
      else (true, w |> buf (vim_move_word_end repeatCount) |> dispatch CLEAR_COUNT)
    else if seqIs k "X" then
      (true, w |> buf (vim_delete_char_before repeatCount) |> dispatch CLEAR_COUNT)
    else if seqIs k "x" then
      if isVisual (mode st) then
        (true, w |> buf vim_yank_selection |> buf (vim_delete_char 1)
                 |> updateMode NORMAL |> dispatch CLEAR_COUNT)
      else
        (true, w |> buf (vim_delete_char repeatCount)
                 |> dispatch (SET_LAST_COMMAND (Some (Cmd.DELETE_CHAR, repeatCount)))
                 |> dispatch CLEAR_COUNT)
    else if seqIs k "~" then
      (true, w |> buf (vim_toggle_case repeatCount) |> dispatch CLEAR_COUNT)
    else if seqIs k "i" then
      if isSome (pendingOperator st) then (true, w |> dispatch (SET_PENDING_INNER true))
      else (true, w |> buf vim_insert_at_cursor |> updateMode INSERT
                    |> dispatch CLEAR_COUNT)
    else if seqIs k "a" then
      (true, w |> buf vim_append_at_cursor |> updateMode INSERT |> dispatch CLEAR_COUNT)
    else if seqIs k "o" then
      (true, w |> buf vim_open_line_below |> updateMode INSERT |> dispatch CLEAR_COUNT)
    else if seqIs k "O" then
      (true, w |> buf vim_open_line_above |> updateMode INSERT |> dispatch CLEAR_COUNT)
    else if seqIs k "0" then
      (true, w |> buf vim_move_to_line_start |> dispatch CLEAR_COUNT)
    else if seqIs k "|" then
      (true, w |> buf vim_move_to_line_start |> dispatch CLEAR_COUNT)
    else if seqIs k "$" then
      (true, w |> buf vim_move_to_line_end |> dispatch CLEAR_COUNT)
    else if seqIs k "^" then
      (true, w |> buf vim_move_to_first_nonwhitespace |> dispatch CLEAR_COUNT)
    else if seqIs k "%" then
      (true, w |> buf vim_move_to_matching_pair |> dispatch CLEAR_COUNT)
    else if seqIs k "g" then
      if op_is (pendingOperator st) op_g then
        (true, w |> buf vim_move_to_first_line |> dispatch (SET_PENDING_OPERATOR None)
                 |> dispatch CLEAR_COUNT)
      else
        (true, w |> dispatch (SET_PENDING_OPERATOR (Some op_g)) |> dispatch CLEAR_COUNT)
    else if seqIs k "G" then
      if yieldsToHistory st then (false, w)
      else if 0 <? count st then
        (true, w |> buf (vim_move_to_line (count st)) |> dispatch CLEAR_COUNT)
      else (true, w |> buf vim_move_to_last_line |> dispatch CLEAR_COUNT)
    else if seqIs k "I" then
      (true, w |> buf vim_insert_at_line_start |> updateMode INSERT
               |> dispatch CLEAR_COUNT)
    else if seqIs k "A" then
      (true, w |> buf vim_append_at_line_end |> updateMode INSERT
               |> dispatch CLEAR_COUNT)
    else if seqIs k "n" then
      (true, w |> buf (vim_search_next forward) |> dispatch CLEAR_COUNT)
    else if seqIs k "N" then
      (true, w |> buf (vim_search_next backward) |> dispatch CLEAR_COUNT)
    else if seqIs k "d" then
      if isVisual (mode st) then
        (true, w |> buf vim_yank_selection |> buf (vim_delete_char 1)
                 |> updateMode NORMAL |> dispatch CLEAR_COUNT)
      else if op_is (pendingOperator st) op_d then
        let repeatCount := getCurrentCount st in
        (true, snd (executeCommand Cmd.DELETE_LINE repeatCount w)
                 |> dispatch (SET_LAST_COMMAND (Some (Cmd.DELETE_LINE, repeatCount)))
                 |> dispatch CLEAR_COUNT
                 |> dispatch (SET_PENDING_OPERATOR None))
      else (true, w |> dispatch (SET_PENDING_OPERATOR (Some op_d)))
    else if seqIs k "c" then
      if isVisual (mode st) then
        (true, w |> buf vim_yank_selection |> buf (vim_delete_char 1)
                 |> updateMode INSERT |> dispatch CLEAR_COUNT)
      else if op_is (pendingOperator st) op_c then
        let repeatCount := getCurrentCount st in
        (true, snd (executeCommand Cmd.CHANGE_LINE repeatCount w)
                 |> dispatch (SET_LAST_COMMAND (Some (Cmd.CHANGE_LINE, repeatCount)))
                 |> dispatch CLEAR_COUNT
                 |> dispatch (SET_PENDING_OPERATOR None))
      else (true, w |> dispatch (SET_PENDING_OPERATOR (Some op_c)))
    else if seqIs k "D" then
      (true, snd (executeCommand Cmd.DELETE_TO_EOL 1 w)
               |> dispatch (SET_LAST_COMMAND (Some (Cmd.DELETE_TO_EOL, 1)))
               |> dispatch CLEAR_COUNT)
    else if seqIs k "C" then
      (true, snd (executeCommand Cmd.CHANGE_TO_EOL 1 w)
               |> dispatch (SET_LAST_COMMAND (Some (Cmd.CHANGE_TO_EOL, 1)))
               |> dispatch CLEAR_COUNT)
    else if seqIs k "y" then
      if isVisual (mode st) then
        (true, w |> buf vim_yank_selection |> updateMode NORMAL
                 |> buf vim_clear_selection |> dispatch CLEAR_COUNT)
      else if op_is (pendingOperator st) op_y then
        let currentLine := lineAt (lines (buffer w)) (cursorRow (buffer w)) in
        (true, w |> buf (vim_yank (currentLine ++ [NL]))
                 |> dispatch CLEAR_COUNT
                 |> dispatch (SET_PENDING_OPERATOR None))
      else (true, w |> dispatch (SET_PENDING_OPERATOR (Some op_y)))
    else if seqIs k "p" then
      (true, w |> buf (vim_paste after) |> dispatch CLEAR_COUNT)
    else if seqIs k "P" then
      (true, w |> buf (vim_paste before) |> dispatch CLEAR_COUNT)
    else if seqIs k "u" then
      (true, w |> onBuffer undo |> dispatch CLEAR_COUNT)
    else if seqIs k "r" then
      (true, w |> dispatch (SET_PENDING_REPLACE true) |> dispatch CLEAR_COUNT)
    else if seqIs k "f" || seqIs k "F" || seqIs k "t" || seqIs k "T" then
      let findDirection := if seqIs k "f" || seqIs k "t" then forward else backward in
      let findType := if seqIs k "f" || seqIs k "F" then inclusive else exclusive in
      (true, w |> dispatch (SET_PENDING_FIND (Some (mkFind [] findDirection findType)))
               |> dispatch CLEAR_COUNT)
    else if seqIs k ";" then
      match lastFind st with
      | Some f =>
          (true, w |> buf (vim_find_char (f_char f) (f_direction f) (f_type f))
                   |> dispatch CLEAR_COUNT)
      | None => (false, w)
      end
    else if seqIs k "," then
      match lastFind st with
      | Some f =>
          let newDirection :=
            match f_direction f with forward => backward | backward => forward end in
          (true, w |> buf (vim_find_char (f_char f) newDirection (f_type f))
                   |> dispatch CLEAR_COUNT)
      | None => (false, w)
      end
    else if seqIs k "." then
      let w :=
        match lastCommand st with
        | Some (type, count) => snd (executeCommand type count w)
        | None => w
        end in
      (true, w |> dispatch CLEAR_COUNT)
    else if nameIs k "left" then handleDirection st mv_h w
    else if nameIs k "down" then handleDirection st mv_j w
    else if nameIs k "up" then handleDirection st mv_k w
    else if nameIs k "right" then handleDirection st mv_l w
    else (true, w |> dispatch CLEAR_PENDING_STATES).

(** [handleInput(key)]: whether Vim handled the key, and what it did. *)
Definition handleInput (k : Key) (w : World) : bool * World :=
  let st := vim w in
  if negb (vimEnabled env) then (false, w)
  else if pendingReplace st then
    (true, w |> buf (vim_replace_char (sequence k))
             |> dispatch (SET_PENDING_REPLACE false)
             |> dispatch CLEAR_COUNT
             |> dispatch (SET_LAST_COMMAND (Some ("r"%string, 1))))
  else
    match pendingFind st with
    | Some pf =>
        (true, w |> buf (vim_find_char (sequence k) (f_direction pf) (f_type pf))
                 |> dispatch (SET_PENDING_FIND None)
                 |> dispatch (SET_LAST_FIND
                                (Some (mkFind (sequence k) (f_direction pf) (f_type pf))))
                 |> dispatch CLEAR_COUNT)
    | None =>
        if pendingChord st then
          if ctrl k && nameIs k "e" then
            (true, w |> emit OpenedExternalEditor |> dispatch CLEAR_PENDING_STATES)
          else (true, w |> dispatch CLEAR_PENDING_STATES)
        else if ctrl k && nameIs k "x" then
          (true, w |> dispatch (SET_PENDING_CHORD true))
        else
          match mode st with
          | INSERT => handleInsertModeInput k w
          | COMMAND => handleCommandModeInput st k w
          | NORMAL | VISUAL | VISUAL_LINE => handleNormalModeInput st k w
          end
    end.

(** A run of keys, each handled on the state the previous one left. *)
Definition typeKeys (ks : list Key) (w : World) : World :=
  fold_left (fun w k => snd (handleInput k w)) ks w.

End Controller.

(** A plain printable key: its name and its sequence are the character. *)
Definition charKey (c : string) : Key :=
  mkKey c (js c) false false false false true.

(** ** The history navigator (hooks/useInputHistory.ts) *)

Module History.

(** The two [useState] cells of the hook. *)
Record HistoryState := mkHist {
  historyIndex : Z;
  originalQueryBeforeNav : jsstring
}.

(** The hook together with the prompt that owns it: [currentQuery] is the
    prompt's text, which the hook reads as a prop; [emitted] logs the calls of
    [onChange], [snapshots] the calls of [setOriginalQueryBeforeNav] made while
    navigating, [submitted] the calls of [onSubmit] (latest last).
    A value read past the end of [userMessages] is [undefined], here [None]. *)
Record Prompt := mkPrompt {
  hist : HistoryState;
  currentQuery : jsstring;
  emitted : list (option jsstring);
  snapshots : list jsstring;
  submitted : list jsstring
}.

Section Hook.

Variable userMessages : list jsstring.
Variable isActive : bool.

Definition setHistoryIndex (i : Z) (p : Prompt) : Prompt :=
  mkPrompt (mkHist i (originalQueryBeforeNav (hist p)))
           (currentQuery p) (emitted p) (snapshots p) (submitted p).

Definition setOriginalQueryBeforeNav (q : jsstring) (p : Prompt) : Prompt :=
  mkPrompt (mkHist (historyIndex (hist p)) q)
           (currentQuery p) (emitted p) (snapshots p ++ [q]) (submitted p).

(** Modelled from the spec: [onChange] is the prompt's callback "for pushing
    text back into the buffer" (4.E); the prompt component is not among the
    sources. The text pushed becomes the prompt's current text. *)
Definition onChange (v : option jsstring) (p : Prompt) : Prompt :=
  mkPrompt (hist p)
           (match v with Some t => t | None => currentQuery p end)
           (emitted p ++ [v]) (snapshots p) (submitted p).

Definition resetHistoryNav (p : Prompt) : Prompt :=
  mkPrompt (mkHist (-1) []) (currentQuery p) (emitted p) (snapshots p) (submitted p).

Definition nMessages : Z := Z.of_nat (List.length userMessages).

Definition navigateUp (p : Prompt) : bool * Prompt :=
  let h := historyIndex (hist p) in
  if negb isActive then (false, p)
  else if nMessages =? 0 then (false, p)
  else
    let step (nextIndex : Z) (p : Prompt) :=
      if negb (nextIndex =? h) then
        let p := setHistoryIndex nextIndex p in
        let newValue := nthZ userMessages (nMessages - 1 - nextIndex) in
        (true, onChange newValue p)
      else (false, p) in
    if h =? -1 then step 0 (setOriginalQueryBeforeNav (currentQuery p) p)
    else if h <? nMessages - 1 then step (h + 1) p
    else (false, p).

Definition navigateDown (p : Prompt) : bool * Prompt :=
  let h := historyIndex (hist p) in
  if negb isActive then (false, p)
  else if h =? -1 then (false, p)
  else
    let nextIndex := h - 1 in
    let original := originalQueryBeforeNav (hist p) in
    let p := setHistoryIndex nextIndex p in
    if nextIndex =? -1 then (true, onChange (Some original) p)
    else (true, onChange (nthZ userMessages (nMessages - 1 - nextIndex)) p).

Definition goToIndex (index : Z) (p : Prompt) : bool * Prompt :=
  let h := historyIndex (hist p) in
  if negb isActive then (false, p)
  else if (nMessages =? 0) && negb (index =? -1) then (false, p)
  else
    let targetIndex := Z.max (-1) (Z.min index (nMessages - 1)) in
    let original := originalQueryBeforeNav (hist p) in
    let p := if (h =? -1) && negb (targetIndex =? -1)
             then setOriginalQueryBeforeNav (currentQuery p) p else p in
    let p := setHistoryIndex targetIndex p in
    if targetIndex =? -1 then (true, onChange (Some original) p)
    else (true, onChange (nthZ userMessages (nMessages - 1 - targetIndex)) p).

(** [value.trim()]: the text without leading and trailing white space. *)
Fixpoint trimStart (s : jsstring) : jsstring :=
  match s with
  | c :: t => if isSpaceUnit c then trimStart t else s
  | [] => []
  end.

Definition trim (s : jsstring) : jsstring := rev (trimStart (rev (trimStart s))).

Definition handleSubmit (value : jsstring) (p : Prompt) : Prompt :=
  let trimmedValue := trim value in
  let p := match trimmedValue with
           | [] => p
           | _ :: _ =>
               mkPrompt (hist p) (currentQuery p) (emitted p) (snapshots p)
                        (submitted p ++ [trimmedValue])
           end in
  resetHistoryNav p.

(** [n] presses of a navigation key, each on the state the previous one left. *)
Fixpoint press (f : Prompt -> bool * Prompt) (n : nat) (p : Prompt) : Prompt :=
  match n with
  | O => p
  | S n' => press f n' (snd (f p))
  end.

End Hook.

(** The prompt before any navigation: [history_index = -1], the text holds
    the draft, nothing was emitted yet. The stored original may hold anything. *)
Definition fresh (stale draft : jsstring) : Prompt :=
  mkPrompt (mkHist (-1) stale) draft [] [] [].

End History.

(** ** The confirmation waiter (scheduler/confirmation.ts) *)

Module Confirmation.

(** Modelled from the spec: the enum [ToolConfirmationOutcome] is declared in
    tools/tools.ts, which is not among the sources; the waiter names
    [ProceedOnce] and [Cancel], its tests two more members, and any other
    member is [OtherOutcome]. *)
Inductive ToolConfirmationOutcome :=
  | ProceedOnce
  | ProceedAlways
  | ModifyWithEditor
  | Cancel
  | OtherOutcome (member : string).

Section Waiter.

(** [ToolConfirmationPayload] (tools/tools.ts) is carried through unread. *)
Variable Payload : Type.

(** A message of type TOOL_CONFIRMATION_RESPONSE; a missing [confirmed] is
    falsy, so it reads as [false]. *)
Record ToolConfirmationResponse := mkResponse {
  correlationId : string;
  r_outcome : option ToolConfirmationOutcome;
  confirmed : bool;
  r_payload : option Payload
}.

Record ConfirmationResult := mkResult {
  outcome : ToolConfirmationOutcome;
  payload : option Payload
}.

Inductive Failure :=
  | OperationCancelled            (* new Error('Operation cancelled') *)
  | SubscribeFailed (error : string).

Inductive PromiseState :=
  | Pending
  | Resolved (result : ConfirmationResult)
  | Rejected (error : Failure).

(** The waiter between two turns of the event loop: whether [onResponse] is
    subscribed on the bus, whether [onAbort] listens on the signal, and the
    state of the promise it returned. *)
Record Waiter := mkWaiter {
  subscribed : bool;
  abortListening : bool;
  promise : PromiseState
}.

(** A promise is settled once: later calls of [resolve] and [reject] do
    nothing. *)
Definition settle (v : PromiseState) (w : Waiter) : Waiter :=
  match promise w with
  | Pending => mkWaiter (subscribed w) (abortListening w) v
  | _ => w
  end.

Definition cleanup (w : Waiter) : Waiter := mkWaiter false false (promise w).

Definition onAbort (w : Waiter) : Waiter :=
  settle (Rejected OperationCancelled) (cleanup w).

Definition resultOf (msg : ToolConfirmationResponse) : ConfirmationResult :=
  mkResult (match r_outcome msg with
            | Some o => o
            | None => if confirmed msg then ProceedOnce else Cancel
            end)
           (r_payload msg).

Definition onResponse (waiterId : string) (msg : ToolConfirmationResponse)
    (w : Waiter) : Waiter :=
  if String.eqb (correlationId msg) waiterId
  then settle (Resolved (resultOf msg)) (cleanup w)
  else w.

(** [awaitConfirmation(messageBus, correlationId, signal)] up to its return:
    [aborted] is [signal.aborted] on entry, [subscribeError] the error that
    [messageBus.subscribe] throws, if it throws. *)
Definition awaitConfirmation (aborted : bool) (subscribeError : option string) : Waiter :=
  if aborted then mkWaiter false false (Rejected OperationCancelled)
  else
    match subscribeError with
    | None => mkWaiter true true Pending
    | Some e => settle (Rejected (SubscribeFailed e)) (cleanup (mkWaiter false false Pending))
    end.

(** What happens next on the event loop. *)
Inductive Event :=
  | Publish (msg : ToolConfirmationResponse)   (* the bus delivers a response *)
  | Abort.                                     (* the cancellation token fires *)

(** Modelled from the spec: the message bus (confirmation-bus/message-bus.ts)
    and the abort signal are collaborators whose code is not among the
    sources; a listener is called for an event exactly while it is
    registered (5, Cancellation). *)
Definition step (waiterId : string) (w : Waiter) (e : Event) : Waiter :=
  match e with
  | Publish msg => if subscribed w then onResponse waiterId msg w else w
  | Abort => if abortListening w then onAbort w else w
  end.

Definition run (waiterId : string) (w : Waiter) (es : list Event) : Waiter :=
  fold_left (step waiterId) es w.

(** The first event of a trace that concerns the waiter: a response with
    its correlation id, or the firing of the token. *)
Fixpoint firstRelevant (waiterId : string) (es : list Event) : option Event :=
  match es with
  | [] => None
  | Publish msg :: rest =>
      if String.eqb (correlationId msg) waiterId then Some (Publish msg)
      else firstRelevant waiterId rest
  | Abort :: _ => Some Abort
  end.

(** What the promise must hold, by the first relevant event. *)
Definition expected (first : option Event) : PromiseState :=
  match first with
  | None => Pending
  | Some (Publish msg) => Resolved (resultOf msg)
  | Some Abort => Rejected OperationCancelled
  end.

End Waiter.

End Confirmation.

(** * Vocabulary of the properties

    Predicates and concrete states in which the properties below are
    stated. *)

(** The reducer's motions: the verbs that the spec lists as motion verbs. *)
Definition isMotion (a : VimAction) : bool :=
  match a with
  | vim_move_left _ | vim_move_right _ | vim_move_up _ | vim_move_down _
  | vim_move_word_forward _ | vim_move_word_backward _ | vim_move_word_end _
  | vim_move_to_line_start | vim_move_to_line_end
  | vim_move_to_first_nonwhitespace
  | vim_move_to_first_line | vim_move_to_last_line | vim_move_to_line _
  | vim_move_to_matching_pair
  | vim_find_char _ _ _ => true
  | _ => false
  end.

(** Two states agree on everything but the cursor and the sticky column. *)
Definition sameButCursor (s s' : TextBufferState) : Prop :=
  lines s' = lines s
  /\ clipboard s' = clipboard s
  /\ undoStack s' = undoStack s
  /\ selectionAnchor s' = selectionAnchor s
  /\ lastSearchQuery s' = lastSearchQuery s.

(** Three lines, the cursor on the second. *)
Definition threeLines : TextBufferState :=
  mkState [js "a"; js "b"; js "c"] 1 0 None None None None [].

(** A state whose clipboard is the empty string. *)
Definition emptyClipboardState : TextBufferState :=
  mkState [js "foo"] 0 1 None None (Some []) None [].

(** The number of lines from the cursor row to the last line. *)
Definition linesRemaining (s : TextBufferState) : Z :=
  Z.of_nat (List.length (lines s)) - cursorRow s.

(** The number of lines of the buffer. *)
Definition linesCount (s : TextBufferState) : Z := Z.of_nat (List.length (lines s)).

(** Vim mode on, the default style, command mode enabled, a submit callback. *)
Definition defaultEnv : Env := mkEnv true vim_editor false true.

(** A fresh prompt: the initial controller state over the initial buffer. *)
Definition freshWorld : World := mkWorld initialVimState initialState [].

(** The cursor is at or past the end of its line. *)
Definition atOrPastEnd (s : TextBufferState) : bool :=
  cpLen (lineAt (lines s) (cursorRow s)) <=? cursorCol s.

(** The verbs that the reducer guards, with the condition under which the
    guard finds nothing to change. *)
Definition nothingToChange (s : TextBufferState) (a : VimAction) : bool :=
  match a with
  | vim_delete_char _ => negb (isSome (selectionAnchor s)) && atOrPastEnd s
  | vim_delete_char_before _ | vim_delete_to_line_start => cursorCol s <=? 0
  | vim_delete_to_end_of_line | vim_change_to_end_of_line
  | vim_replace_char _ | vim_toggle_case _ => atOrPastEnd s
  | vim_paste _ => falsy (clipboard s)
  | _ => false
  end.

(** The controller is idle: Vim mode is on and no prefix is pending. *)
Definition idle (env : Env) (st : VimState) : Prop :=
  vimEnabled env = true
  /\ pendingReplace st = false
  /\ pendingFind st = None
  /\ pendingChord st = false.

(** The cursor past the last character of the line. *)
Definition atEndState : TextBufferState :=
  mkState [js "ab"] 0 2 None None None None [].

(** Scenario 4 of the spec. *)
Definition fooBar : TextBufferState :=
  mkState [js "foo"; js "bar"] 0 0 None None None None [].

Definition fooBarWorld : World := mkWorld initialVimState fooBar [].

(** The state after a visual [d], [c] or [x]: yank, delete, leave the mode. *)
Definition afterVisualOperator (next : VimMode) (w : World) {L : TextBufferLib} : World :=
  dispatch CLEAR_COUNT
    (updateMode next (buf (vim_delete_char 1) (buf vim_yank_selection w))).

(** The mode that a visual [d], [c] or [x] leaves. *)
Definition modeAfter (key : string) : VimMode :=
  if String.eqb key "c" then INSERT else NORMAL.

(** VISUAL mode with "hello" selected, from the anchor (0,0) to the cursor
    (0,4), and an older text in the clipboard. *)
Definition helloWorld : World :=
  mkWorld (mkVim VISUAL [] 0 None false false false None None None)
          (mkState [js "hello world"] 0 4 None (Some (0, 0)) (Some (js "old")) None [])
          [].

(** NORMAL mode on the line "abcd" with an older text in the clipboard. *)
Definition abcdWorld : World :=
  mkWorld initialVimState
          (mkState [js "abcd"] 0 0 None None (Some (js "old")) None []) [].

(** Scenario 6 of the spec. *)
Definition oneTwoThree : list jsstring := [js "one"; js "two"; js "three"].

(** The query [q] occurs in the string [s] at index [k] (in code units). *)
Definition occursAt (q s : jsstring) (k : Z) : Prop :=
  0 <= k <= strlen s /\ isPrefix q (skipn (Z.to_nat k) s) = true.

(** The query occurs in the buffer at row [r], index [c]. *)
Definition matchAt (lines : list jsstring) (q : jsstring) (r c : Z) : Prop :=
  exists line, nthZ lines r = Some line /\ occursAt q line c.

(** The position [(r', c')] lies after [(r, c)] in reading order. *)
Definition isAfter (r' c' r c : Z) : Prop := r < r' \/ (r' = r /\ c < c').

(** The cursor on the first of two occurrences of "bc", which is also the
    stored query. *)
Definition abcXbc : TextBufferState :=
  mkState [js "abc"; js "xbc"] 0 1 None None None (Some (js "bc")) [].

(** On a line without surrogate pairs every code unit is a code point, so
    code-point columns and UTF-16 indices are the same numbers. *)
Definition noSurrogates (s : jsstring) : bool :=
  forallb (fun u => negb (isHighSurrogate u)) s.

(** The line x U+1F600 y, three code points in four UTF-16 code units, with
    the cursor on its first column. *)
Definition xFaceY : TextBufferState :=
  mkState [[0x78; 0xD83D; 0xDE00; 0x79]%N] 0 0 None None None None [].

(** The text U+1F600 U+1F600 x: three code points, five UTF-16 code units. *)
Definition twoFacesAndX : jsstring := [0xD83D; 0xDE00; 0xD83D; 0xDE00; 0x78]%N.

(** The state that a run of actions reaches from the initial state. *)
Definition reach {L : TextBufferLib} (actions : list VimAction) : TextBufferState :=
  fold_left handleVimAction actions initialState.

(** ** Vocabulary of the further properties *)

(** The cursor lies inside the text: its row is a row of the buffer, its
    column is at most the code-point length of that row, and a remembered
    column is not negative. *)
Definition cursorInText (s : TextBufferState) : Prop :=
  0 <= cursorRow s < linesCount s
  /\ 0 <= cursorCol s <= cpLen (lineAt (lines s) (cursorRow s))
  /\ match preferredCol s with Some p => 0 <= p | None => True end.

(** The cursor moves whose code is in the reducer itself (the word motions
    and the search are left out: the former go through helpers of
    text-buffer.ts, the latter counts in UTF-16 code units); a vertical move
    takes a count that is not negative. *)
Definition isPlainMove (a : VimAction) : bool :=
  match a with
  | vim_move_left _ | vim_move_right _ => true
  | vim_move_up n | vim_move_down n => 0 <=? n
  | vim_move_to_line_start | vim_move_to_line_end
  | vim_move_to_first_nonwhitespace
  | vim_move_to_first_line | vim_move_to_last_line | vim_move_to_line _
  | vim_escape_insert_mode | vim_insert_at_cursor | vim_append_at_cursor
  | vim_append_at_line_end | vim_insert_at_line_start
  | vim_find_char _ _ _ | vim_move_to_matching_pair => true
  | _ => false
  end.

(** The last column a NORMAL-mode cursor rests on. *)
Definition lastCol (line : jsstring) : Z := Z.max 0 (cpLen line - 1).

(** Three lines of different lengths, the cursor on the last column of the
    second. *)
Definition raggedLines : TextBufferState :=
  mkState [js "ab"; js "abcdef"; js "abc"] 1 5 None None None None [].

(** The side of the cursor column [c] on which a find looks. *)
Definition beyond (d : Direction) (c k : Z) : Prop :=
  match d with
  | forward => c < k
  | backward => k < c
  end.

(** Column [k] holds the occurrence of the code point [ch] that is nearest to
    the cursor column [c] on that side. *)
Definition nearest (d : Direction) (cps : list jsstring) (c : Z) (ch : jsstring) (k : Z)
    : Prop :=
  beyond d c k
  /\ nthZ cps k = Some ch
  /\ forall j, beyond d c j -> beyond d k j \/ j = k \/ nthZ cps j <> Some ch.

(** Where the cursor lands for an occurrence at column [k] on a line of
    [len] code points: on it ([f], [F]), or on the column next to it on the
    cursor's side ([t], [T]). *)
Definition landing (d : Direction) (t : FindType) (k len : Z) : Z :=
  match t, d with
  | inclusive, _ => k
  | exclusive, forward => Z.max 0 (k - 1)
  | exclusive, backward => Z.min (k + 1) (len - 1)
  end.

(** The code point at a position of the buffer, [undefined] outside the text. *)
Definition codePointAt (lines : list jsstring) (r c : Z) : option jsstring :=
  nthZ (toCodePoints (lineAt lines r)) c.

(** The bracket that closes, or opens, the bracket [ch]. *)
Definition bracketPartner (ch : jsstring) : option jsstring :=
  match pairs (Some ch) with
  | Some closer => Some closer
  | None => reversePairs (Some ch)
  end.

(** The verbs that neither move text nor are motions: entering and leaving
    insert mode, selecting, searching, yanking. *)
Definition keepsText (a : VimAction) : bool :=
  match a with
  | vim_insert_at_cursor | vim_append_at_cursor | vim_append_at_line_end
  | vim_insert_at_line_start | vim_escape_insert_mode
  | vim_set_selection_anchor | vim_clear_selection
  | vim_search _ _ | vim_search_next _
  | vim_yank _ | vim_yank_selection | vim_yank_inner_word _ => true
  | _ => false
  end.

(** What else a verb that keeps the text leaves alone: a yank all but the
    clipboard, a selection verb all but the anchor, the others the clipboard
    and the anchor. *)
Definition keepsBesides (a : VimAction) (s s' : TextBufferState) : Prop :=
  match a with
  | vim_yank _ | vim_yank_selection | vim_yank_inner_word _ =>
      s' = setClipboard s (clipboard s')
  | vim_set_selection_anchor | vim_clear_selection =>
      s' = setSelectionAnchor s (selectionAnchor s')
  | _ => clipboard s' = clipboard s /\ selectionAnchor s' = selectionAnchor s
  end.

(** The bound of [lastIndexOf]: the start index, or the end of the string. *)
Definition lastBound (s : jsstring) (from : option Z) : Z :=
  match from with
  | Some f => Z.max f 0
  | None => strlen s
  end.

(** Two occurrences of "bc", the cursor on the second. *)
Definition onSecondBc : TextBufferState :=
  mkState [js "abc"; js "xbc"] 1 1 None None None None [].

(** The modes in which keys are commands: NORMAL and the two visual modes. *)
Definition takesCommands (m : VimMode) : bool :=
  match m with
  | INSERT | COMMAND => false
  | NORMAL | VISUAL | VISUAL_LINE => true
  end.

(** Escape, Enter and Ctrl+X as key events. *)
Definition escapeKey : Key := mkKey "escape" [27%N] false false false false false.
Definition returnKey : Key := mkKey "return" [13%N] false false false false false.
Definition ctrlX : Key := mkKey "x" [24%N] true false false false false.

(** What the key after Ctrl+X calls outside the buffer: the external editor
    for Ctrl+E, nothing for any other key. *)
Definition chordEffects (k : Key) : list Effect :=
  if ctrl k && nameIs k "e" then [OpenedExternalEditor] else [].

(** The key of the decimal digit [d]. *)
Definition digitKey (d : Z) : Key :=
  charKey (String (ascii_of_N (Z.to_N (48 + d))) "").

(** The number that the digits [ds], typed after a count of [c], stand for. *)
Definition decimal (c : Z) (ds : list Z) : Z :=
  fold_left (fun c d => c * 10 + d) ds c.

Definition isDigit (d : Z) : bool := (0 <=? d) && (d <=? 9).

(** A count starts with a digit other than 0, which is a motion of its own;
    after a count of [c > 0] any digit goes on. *)
Definition startsCount (c : Z) (ds : list Z) : bool :=
  (0 <? c) || match ds with d :: _ => 0 <? d | [] => true end.

(** A key that COMMAND mode adds to the command line: one code unit, and
    none of the keys the mode reads as a command. *)
Definition isQueryKey (k : Key) : bool :=
  (strlen (sequence k) =? 1)
  && negb (nameIs k "escape") && negb (nameIs k "return")
  && negb (nameIs k "backspace") && negb (ctrl k && nameIs k "x").

(** The key that opens the search line in a direction. *)
Definition searchKey (d : Direction) : Key :=
  match d with
  | forward => charKey "/"
  | backward => charKey "?"
  end.

(** The keys that the bash-vim style leaves to the prompt in NORMAL mode. *)
Definition historyKeys : list string := ["j"; "k"; "G"; "/"; "?"]%string.

(** The two keys that enter a visual mode. *)
Definition visualKey (linewise : bool) : Key :=
  if linewise then charKey "V" else charKey "v".

(** What holds of the controller's state between keys: the count is not
    negative, and the command line is empty outside COMMAND mode. *)
Definition settled (st : VimState) : Prop :=
  0 <= count st /\ (mode st <> COMMAND -> commandBuffer st = []).

(** NORMAL mode on the line "hello" with the cursor on its second column. *)
Definition helloNormal : World :=
  mkWorld initialVimState (mkState [js "hello"] 0 1 None None None None []) [].

(** The bash-vim style. *)
Definition bashEnv : Env := mkEnv true bash_vim false true.

(** One call of the history hook's interface. *)
Inductive HistoryCall :=
  | CallUp
  | CallDown
  | CallGoTo (index : Z)
  | CallSubmit (value : jsstring).

(** The prompt after a call, and after a run of calls. *)
Definition call (userMessages : list jsstring) (isActive : bool)
    (p : History.Prompt) (c : HistoryCall) : History.Prompt :=
  match c with
  | CallUp => snd (History.navigateUp userMessages isActive p)
  | CallDown => snd (History.navigateDown userMessages isActive p)
  | CallGoTo index => snd (History.goToIndex userMessages isActive index p)
  | CallSubmit value => History.handleSubmit value p
  end.

Definition calls (userMessages : list jsstring) (isActive : bool)
    (cs : list HistoryCall) (p : History.Prompt) : History.Prompt :=
  fold_left (call userMessages isActive) cs p.

(** The history index points at the draft (-1) or at a stored message. *)
Definition indexInRange (userMessages : list jsstring) (p : History.Prompt) : Prop :=
  -1 <= History.historyIndex (History.hist p) <= History.nMessages userMessages - 1.

(** The message that the history index [i] stands for: the newest is 0. *)
Definition messageAt (userMessages : list jsstring) (i : Z) : option jsstring :=
  nthZ userMessages (History.nMessages userMessages - 1 - i).

(** The Backspace key. *)
Definition backspaceKey : Key := mkKey "backspace" [127%N] false false false false false.

(** A text without a newline. *)
Definition singleLine (t : jsstring) : bool := forallb (fun u => negb (N.eqb u NL)) t.

(** The text between the anchor and the cursor, both ends included. *)
Definition selectedText (s : TextBufferState) (anchor : Z * Z) : jsstring :=
  let '(startRow, startCol, endRow, endCol) :=
    selectionRange anchor (cursorRow s) (cursorCol s) in
  yankedText (lines s) startRow startCol endRow endCol.

(** COMMAND mode with the search line "/a". *)
Definition searchLineWorld : World :=
  mkWorld (mkVim COMMAND (js "/a") 0 None false false false None None None)
          initialState [].

(** The keys of the motions that take no further key. *)
Definition motionKeys : list string :=
  ["h"; "j"; "k"; "l"; "w"; "b"; "e"; "0"; "$"; "^"; "%"; "G"]%string.

(** VISUAL mode on the line "hello", the anchor and the cursor on its second
    column. *)
Definition visualHello : World :=
  mkWorld (mkVim VISUAL [] 0 None false false false None None None)
          (mkState [js "hello"] 0 1 None (Some (0, 1)) None None []) [].

(** * Properties *)

(** ** Basic facts on the primitives *)

Lemma pushUndo_lines (s : TextBufferState) : lines (pushUndo s) = lines s.
Proof. reflexivity. Qed.

Lemma pushUndo_clipboard (s : TextBufferState) : clipboard (pushUndo s) = clipboard s.
Proof. reflexivity. Qed.

Lemma pushUndo_cursor (s : TextBufferState) :
  cursorRow (pushUndo s) = cursorRow s /\ cursorCol (pushUndo s) = cursorCol s.
Proof. split; reflexivity. Qed.

Lemma replaceRangeInternal_clipboard s r1 c1 r2 c2 t :
  clipboard (replaceRangeInternal s r1 c1 r2 c2 t) = clipboard s.
Proof. reflexivity. Qed.

Lemma replaceRangeInternal_undoStack s r1 c1 r2 c2 t :
  undoStack (replaceRangeInternal s r1 c1 r2 c2 t) = undoStack s.
Proof. reflexivity. Qed.

Lemma sameButCursor_refl s : sameButCursor s s.
Proof. repeat split. Qed.

Lemma sameButCursor_setCursor s r c p : sameButCursor s (setCursor s r c p).
Proof. repeat split. Qed.

Create HintDb frame.
#[local] Hint Resolve sameButCursor_refl sameButCursor_setCursor : frame.

(** ** C5: motions leave the text, the clipboard and the undo stack alone *)

(** C5. For every state and every motion action (move_left, move_right,
    move_up, move_down, the three word motions, move_to_line_start/end,
    move_to_first_nonwhitespace, move_to_first/last_line, move_to_line,
    move_to_matching_pair, find_char) the resulting state has the same
    lines, clipboard and undo stack as the input state (and the same
    selection anchor and stored search query): only the cursor fields and
    preferred_col may change. *)
Theorem motion_frame (L : TextBufferLib) (s : TextBufferState) (a : VimAction) :
  isMotion a = true ->
  lines (handleVimAction s a) = lines s
  /\ clipboard (handleVimAction s a) = clipboard s
  /\ undoStack (handleVimAction s a) = undoStack s
  /\ selectionAnchor (handleVimAction s a) = selectionAnchor s
  /\ lastSearchQuery (handleVimAction s a) = lastSearchQuery s.
Proof.
  intros Hm.
  change (sameButCursor s (handleVimAction s a)).
  destruct a; try discriminate Hm; unfold handleVimAction;
    repeat match goal with
           | |- context [let '(_, _) := ?p in _] => destruct p
           | |- context [match ?x with Some _ => _ | None => _ end] => destruct x
           end;
    auto with frame.
Qed.

Lemma motion_frame_witness :
  isMotion (vim_move_down 3) = true
  /\ forall L : TextBufferLib,
       lines (handleVimAction threeLines (vim_move_down 3)) = lines threeLines
       /\ clipboard (handleVimAction threeLines (vim_move_down 3)) = clipboard threeLines
       /\ undoStack (handleVimAction threeLines (vim_move_down 3)) = undoStack threeLines
       /\ selectionAnchor (handleVimAction threeLines (vim_move_down 3))
          = selectionAnchor threeLines
       /\ lastSearchQuery (handleVimAction threeLines (vim_move_down 3))
          = lastSearchQuery threeLines.
Proof.
  split; [reflexivity | intro L; apply (motion_frame L threeLines (vim_move_down 3)); reflexivity].
Defined.

(** ** C9: pasting an empty clipboard *)

(** C9. For every state whose clipboard is the empty string, paste in either
    direction returns the state unchanged, so nothing is pushed onto the undo
    stack. *)
Theorem paste_empty_clipboard (L : TextBufferLib) (s : TextBufferState)
    (d : PasteDirection) :
  clipboard s = Some [] ->
  handleVimAction s (vim_paste d) = s
  /\ undoStack (handleVimAction s (vim_paste d)) = undoStack s.
Proof.
  intros Hc.
  assert (H : handleVimAction s (vim_paste d) = s).
  { unfold handleVimAction. rewrite Hc. reflexivity. }
  rewrite H. split; reflexivity.
Qed.

Lemma paste_empty_clipboard_witness :
  clipboard emptyClipboardState = Some []
  /\ forall L : TextBufferLib,
       handleVimAction emptyClipboardState (vim_paste after) = emptyClipboardState
       /\ undoStack (handleVimAction emptyClipboardState (vim_paste after))
          = undoStack emptyClipboardState.
Proof.
  split; [reflexivity | intro L; apply (paste_empty_clipboard L); reflexivity].
Defined.

(** ** C2: deleting lines *)

(** The claim as the spec words it fails: on three lines with the cursor on
    the second, [dd] with a count of 2 (the lines remaining) leaves the first
    line, not the single empty line. *)
Lemma delete_line_keeps_lines_above :
  linesRemaining threeLines <= 2
  /\ (forall L : TextBufferLib,
        lines (handleVimAction threeLines (vim_delete_line 2)) = [js "a"])
  /\ [js "a"] <> [[]].
Proof.
  split; [vm_compute; discriminate |].
  split; [intro L; reflexivity | discriminate].
Qed.

Lemma spliceOut_inside {A : Type} (l : list A) (start del : Z) :
  0 <= start <= Z.of_nat (List.length l) ->
  0 <= del <= Z.of_nat (List.length l) - start ->
  spliceOut l start del
  = firstn (Z.to_nat start) l ++ skipn (Z.to_nat (start + del)) l.
Proof.
  intros Hs Hd. unfold spliceOut, relIndex.
  destruct (Z.ltb_spec start 0); [lia |].
  rewrite (Z.min_l start) by lia.
  rewrite (Z.max_l del 0) by lia.
  rewrite (Z.min_l del) by lia.
  reflexivity.
Qed.

(** C2 (amended). For every state with a non-empty buffer and every count n,
    delete_line(n) yields the single-empty-line state with cursor (0,0) when
    there is one line or when min(n, lines_remaining) reaches the number of
    lines (all the lines go); otherwise, for a cursor row inside the buffer
    and n >= 0, it removes the min(n, lines_remaining) lines from the cursor
    row on and keeps the lines above; in every case the cursor column is 0
    afterwards. *)
Theorem delete_line_spec (L : TextBufferLib) (s : TextBufferState) (n : Z) :
  lines s <> [] ->
  let s' := handleVimAction s (vim_delete_line n) in
  let k := Z.min n (linesRemaining s) in
  (linesCount s = 1 \/ linesCount s <= k ->
     lines s' = [[]] /\ cursorRow s' = 0 /\ cursorCol s' = 0)
  /\ (linesCount s <> 1 -> k < linesCount s ->
      0 <= cursorRow s < linesCount s -> 0 <= n ->
        lines s' = firstn (Z.to_nat (cursorRow s)) (lines s)
                   ++ skipn (Z.to_nat (cursorRow s + k)) (lines s))
  /\ cursorCol s' = 0.
Proof.
  intros Hne s' k. subst s' k.
  unfold handleVimAction, linesCount, linesRemaining.
  assert (Hlen : 0 < Z.of_nat (List.length (lines s))).
  { destruct (lines s); [congruence | cbn [List.length]; lia]. }
  set (len := Z.of_nat (List.length (lines s))) in *.
  destruct (Z.eqb_spec len 0) as [E0 | _]; [lia |].
  destruct ((len =? 1) || (len <=? Z.min n (len - cursorRow s))) eqn:Hb.
  - repeat split; intros; reflexivity || (exfalso).
    apply orb_true_iff in Hb. destruct Hb as [Hb | Hb].
    + apply Z.eqb_eq in Hb. lia.
    + apply Z.leb_le in Hb. lia.
  - apply orb_false_iff in Hb. destruct Hb as [Hb1 Hb2].
    apply Z.eqb_neq in Hb1. apply Z.leb_gt in Hb2.
    split; [| split].
    + intros [H1 | H1]; lia.
    + intros _ _ Hrow Hn. cbn [lines setLines].
      rewrite pushUndo_lines. apply spliceOut_inside; fold len; lia.
    + reflexivity.
Qed.

Lemma delete_line_spec_witness :
  lines threeLines <> []
  /\ lines initialState <> []
  /\ forall L : TextBufferLib,
       (lines (handleVimAction threeLines (vim_delete_line 2)) = [js "a"]
        /\ cursorCol (handleVimAction threeLines (vim_delete_line 2)) = 0)
       /\ (lines (handleVimAction initialState (vim_delete_line 1)) = [[]]
           /\ cursorRow (handleVimAction initialState (vim_delete_line 1)) = 0
           /\ cursorCol (handleVimAction initialState (vim_delete_line 1)) = 0).
Proof.
  split; [discriminate |].
  split; [discriminate |].
  intros L.
  destruct (delete_line_spec L threeLines 2 ltac:(discriminate)) as (_ & Hrest & Hcol).
  destruct (delete_line_spec L initialState 1 ltac:(discriminate)) as (Hall & _ & _).
  split.
  - split; [| exact Hcol].
    apply Hrest; unfold linesCount, linesRemaining; cbn; lia.
  - apply Hall. left. reflexivity.
Defined.

(** ** C3: mutations that change no text *)

(** The claim as the spec words it fails twice over. On the fresh buffer the
    key [x] deletes nothing and leaves the buffer as it is, yet the controller
    records it as the last command; and [dd], which leaves the text of the
    fresh buffer as it is, still pushes an undo entry. *)
Lemma x_at_end_of_line_sets_last_command :
  lastCommand (vim freshWorld) = None
  /\ (forall (L : TextBufferLib) (P : TextBufferPorts),
        buffer (snd (handleInput defaultEnv (charKey "x") freshWorld)) = buffer freshWorld
        /\ lastCommand (vim (snd (handleInput defaultEnv (charKey "x") freshWorld)))
           = Some ("x"%string, 1))
  /\ (forall L : TextBufferLib,
        lines (handleVimAction initialState (vim_delete_line 1)) = lines initialState
        /\ undoStack (handleVimAction initialState (vim_delete_line 1))
           = [snapshot initialState])
  /\ Some ("x"%string, 1) <> None
  /\ [snapshot initialState] <> undoStack initialState.
Proof.
  split; [reflexivity |].
  split; [intros L P; split; reflexivity |].
  split; [intros L; split; reflexivity |].
  split; discriminate.
Qed.

Lemma ltb_of_leb_true (a b : Z) : (a <=? b) = true -> (b <? a) = false.
Proof. intros H. apply Z.leb_le in H. apply Z.ltb_ge. exact H. Qed.

Lemma guarded_noop (L : TextBufferLib) (s : TextBufferState) (a : VimAction) :
  nothingToChange s a = true -> handleVimAction s a = s.
Proof.
  destruct a; cbn [nothingToChange]; try discriminate; intros H;
    unfold handleVimAction; unfold atOrPastEnd, cpLen in *.
  - (* vim_delete_to_end_of_line *)
    now rewrite (ltb_of_leb_true _ _ H).
  - now rewrite (ltb_of_leb_true _ _ H).
  - now rewrite (ltb_of_leb_true _ _ H).
  - (* vim_delete_char *)
    apply andb_true_iff in H. destruct H as [Ha He].
    destruct (selectionAnchor s); [discriminate |].
    now rewrite (ltb_of_leb_true _ _ He).
  - now rewrite (ltb_of_leb_true _ _ H).
  - now rewrite (ltb_of_leb_true _ _ H).
  - (* vim_paste *)
    now rewrite H.
  - now rewrite (ltb_of_leb_true _ _ H).
Qed.

(** Evaluate the tests that a handler makes on a literal key. *)
Ltac key_tests :=
  repeat match goal with
         | |- context [seqIs (charKey ?a) ?c] =>
             let b := eval vm_compute in (seqIs (charKey a) c) in
             change (seqIs (charKey a) c) with b
         | |- context [nameIs (charKey ?a) ?c] =>
             let b := eval vm_compute in (nameIs (charKey a) c) in
             change (nameIs (charKey a) c) with b
         | |- context [isDigit1To9 (sequence (charKey ?a))] =>
             let b := eval vm_compute in (isDigit1To9 (sequence (charKey a))) in
             change (isDigit1To9 (sequence (charKey a))) with b
         | |- context [ctrl (charKey ?a)] =>
             change (ctrl (charKey a)) with false
         end;
  cbn [andb orb negb].

Lemma handleInput_idle (L : TextBufferLib) (P : TextBufferPorts) env k w :
  idle env (vim w) ->
  (ctrl k && nameIs k "x") = false ->
  handleInput env k w =
  match mode (vim w) with
  | INSERT => handleInsertModeInput env k w
  | COMMAND => handleCommandModeInput (vim w) k w
  | NORMAL | VISUAL | VISUAL_LINE => handleNormalModeInput env (vim w) k w
  end.
Proof.
  intros (He & Hr & Hf & Hc) Hk. unfold handleInput.
  rewrite He, Hr, Hf, Hc, Hk. reflexivity.
Qed.

(** C3 (amended). For delete_char (x) with no selection and the cursor at or
    past the end of its line, and for the other verbs the reducer guards the
    same way (X and Ctrl+U at column 0; D, C, r and ~ at or past the end of
    the line; p and P with an empty clipboard), the reducer returns the state
    unchanged, so nothing is pushed onto the undo stack. The controller's x
    key in NORMAL mode then leaves the buffer unchanged too, and records
    last_command = (x, count) all the same. *)
Theorem noop_mutation_spec (L : TextBufferLib) (P : TextBufferPorts)
    (env : Env) (s : TextBufferState) (a : VimAction) (w : World) :
  nothingToChange s a = true ->
  idle env (vim w) ->
  mode (vim w) = NORMAL ->
  nothingToChange (buffer w) (vim_delete_char 1) = true ->
  (handleVimAction s a = s /\ undoStack (handleVimAction s a) = undoStack s)
  /\ fst (handleInput env (charKey "x") w) = true
  /\ buffer (snd (handleInput env (charKey "x") w)) = buffer w
  /\ lastCommand (vim (snd (handleInput env (charKey "x") w)))
     = Some ("x"%string, getCurrentCount (vim w)).
Proof.
  intros Ha Hidle Hmode Hx.
  rewrite (guarded_noop L s a Ha).
  split; [split; reflexivity |].
  rewrite (handleInput_idle L P env _ w Hidle) by reflexivity.
  rewrite Hmode. unfold handleNormalModeInput. rewrite Hmode. key_tests.
  cbn [isVisual fst snd mode_eqb andb orb].
  unfold buf, dispatch. cbn [fst snd buffer vim effects].
  rewrite (guarded_noop L (buffer w) (vim_delete_char (getCurrentCount (vim w))) Hx).
  repeat split.
Qed.

Lemma noop_mutation_spec_witness :
  nothingToChange atEndState (vim_replace_char (js "z")) = true
  /\ idle defaultEnv (vim (mkWorld initialVimState atEndState []))
  /\ mode (vim (mkWorld initialVimState atEndState [])) = NORMAL
  /\ nothingToChange atEndState (vim_delete_char 1) = true
  /\ forall (L : TextBufferLib) (P : TextBufferPorts),
       (handleVimAction atEndState (vim_replace_char (js "z")) = atEndState
        /\ undoStack (handleVimAction atEndState (vim_replace_char (js "z")))
           = undoStack atEndState)
       /\ fst (handleInput defaultEnv (charKey "x") (mkWorld initialVimState atEndState []))
          = true
       /\ buffer (snd (handleInput defaultEnv (charKey "x")
                                   (mkWorld initialVimState atEndState [])))
          = buffer (mkWorld initialVimState atEndState [])
       /\ lastCommand (vim (snd (handleInput defaultEnv (charKey "x")
                                             (mkWorld initialVimState atEndState []))))
          = Some ("x"%string, getCurrentCount (vim (mkWorld initialVimState atEndState []))).
Proof.
  assert (Hi : idle defaultEnv (vim (mkWorld initialVimState atEndState []))).
  { repeat split. }
  split; [reflexivity |].
  split; [exact Hi |].
  split; [reflexivity |].
  split; [reflexivity |].
  intros L P.
  apply (noop_mutation_spec L P defaultEnv atEndState (vim_replace_char (js "z"))
           (mkWorld initialVimState atEndState []));
    [reflexivity | exact Hi | reflexivity | reflexivity].
Defined.

(** ** C7: linewise yank and paste *)

Lemma splitNL_nonempty (t : jsstring) : splitNL t <> [].
Proof.
  destruct t as [| c t]; cbn; [discriminate |].
  destruct (N.eqb c NL); [discriminate |].
  destruct (splitNL t); discriminate.
Qed.

Lemma arrayFrom_cons (h : N) (t : jsstring) :
  arrayFrom (h :: t)
  = match t with
    | l :: t' =>
        if isHighSurrogate h && isLowSurrogate l
        then [h; l] :: arrayFrom t'
        else [h] :: arrayFrom t
    | [] => [[h]]
    end.
Proof. reflexivity. Qed.

Lemma concat_arrayFrom (s : jsstring) : List.concat (arrayFrom s) = s.
Proof.
  remember (List.length s) as n eqn:Hn. revert s Hn.
  induction n as [n IH] using lt_wf_ind. intros s Hn.
  destruct s as [| h t]; [reflexivity |].
  rewrite arrayFrom_cons.
  destruct t as [| l t']; [reflexivity |].
  destruct (isHighSurrogate h && isLowSurrogate l).
  - cbn [List.concat app].
    rewrite (IH (List.length t')); [reflexivity | subst n; cbn; lia | reflexivity].
  - cbn [List.concat app].
    rewrite (IH (List.length (l :: t'))); [reflexivity | subst n; cbn; lia | reflexivity].
Qed.

Lemma slice_all {A : Type} (l : list A) :
  slice l 0 (Some (Z.of_nat (List.length l))) = l.
Proof.
  unfold slice, relIndex. cbn [Z.ltb Z.compare].
  destruct (Z.ltb_spec (Z.of_nat (List.length l)) 0); [lia |].
  rewrite Z.min_id, Z.min_l by lia.
  cbn [Z.to_nat skipn]. rewrite Z.sub_0_r, Nat2Z.id. apply firstn_all.
Qed.

Lemma slice_from_end {A : Type} (l : list A) :
  slice l (Z.of_nat (List.length l)) None = [].
Proof.
  unfold slice, relIndex.
  destruct (Z.ltb_spec (Z.of_nat (List.length l)) 0); [lia |].
  rewrite Z.min_id, Z.sub_diag. reflexivity.
Qed.

(** The code points of a line up to its code-point length are the line. *)
Lemma cpSlice_whole (line : jsstring) : cpSlice line 0 (Some (cpLen line)) = line.
Proof.
  unfold cpSlice, cpLen, toCodePoints, join0.
  rewrite slice_all. apply concat_arrayFrom.
Qed.

Lemma cpSlice_past_end (line : jsstring) : cpSlice line (cpLen line) None = [].
Proof.
  unfold cpSlice, cpLen, toCodePoints, join0.
  rewrite slice_from_end. reflexivity.
Qed.

Lemma endsWith_app_NL (text : jsstring) : endsWith (text ++ [NL]) [NL] = true.
Proof.
  unfold endsWith. rewrite length_app.
  change (List.length [NL]) with 1%nat.
  replace (List.length text + 1 - 1)%nat with (List.length text) by lia.
  rewrite skipn_app, skipn_all, Nat.sub_diag.
  apply andb_true_intro. split; [apply Nat.leb_le; lia | reflexivity].
Qed.

Lemma findFrom_app_NL (t : jsstring) (i : Z) :
  0 <= i -> findFrom [NL] (t ++ [NL]) i <> -1.
Proof.
  revert i. induction t as [| c t IH]; intros i Hi; cbn [findFrom isPrefix app].
  - rewrite N.eqb_refl. cbn [andb]. lia.
  - destruct (N.eqb NL c); cbn [andb]; [lia | apply IH; lia].
Qed.

Lemma includes_app_NL (text : jsstring) : includes (text ++ [NL]) [NL] = true.
Proof.
  unfold includes, indexOf.
  change (Z.max 0 0) with 0.
  rewrite Z.min_l by (unfold strlen; lia).
  change (skipn (Z.to_nat 0) (text ++ [NL])) with (text ++ [NL]).
  pose proof (findFrom_app_NL text 0 ltac:(lia)) as G.
  destruct (Z.eqb_spec (findFrom [NL] (text ++ [NL]) 0) (-1)); [contradiction | reflexivity].
Qed.

Lemma slice_drop_last {A : Type} (l : list A) (x : A) :
  slice (l ++ [x]) 0 (Some (-1)) = l.
Proof.
  unfold slice, relIndex.
  change (0 <? 0) with false. change (-1 <? 0) with true. cbv beta iota.
  rewrite length_app. change (List.length [x]) with 1%nat.
  rewrite Z.min_l by lia.
  replace (Z.max (Z.of_nat (List.length l + 1) + -1) 0 - 0)
    with (Z.of_nat (List.length l)) by lia.
  rewrite Nat2Z.id. change (skipn (Z.to_nat 0) (l ++ [x])) with (l ++ [x]).
  rewrite firstn_app, firstn_all, Nat.sub_diag. cbn [firstn]. apply app_nil_r.
Qed.

Lemma firstn_snoc_lineAt (ls : list jsstring) (r : Z) :
  0 <= r < Z.of_nat (List.length ls) ->
  firstn (Z.to_nat r) ls ++ [lineAt ls r] = firstn (Z.to_nat r + 1) ls.
Proof.
  intros Hr. unfold lineAt, nthZ.
  destruct (Z.ltb_spec r 0); [lia |].
  assert (Hlt : (Z.to_nat r < List.length ls)%nat) by lia.
  clear Hr H. revert Hlt. generalize (Z.to_nat r) as n. clear r.
  induction ls as [| x xs IH]; intros [| n] Hn; cbn in *; try lia.
  - reflexivity.
  - f_equal. apply IH. lia.
Qed.

(** A paste with [p] of a linewise clipboard, [text] followed by a newline,
    keeps the cursor line whole and puts the lines of [text] right below it. *)
Lemma paste_linewise_after (L : TextBufferLib) (s : TextBufferState) (text : jsstring) :
  clipboard s = Some (text ++ [NL]) ->
  0 <= cursorRow s < Z.of_nat (List.length (lines s)) ->
  lines (handleVimAction s (vim_paste after))
  = firstn (Z.to_nat (cursorRow s) + 1) (lines s)
    ++ splitNL text
    ++ skipn (Z.to_nat (cursorRow s) + 1) (lines s).
Proof.
  intros Hc Hrow. unfold handleVimAction. rewrite Hc.
  assert (Hf : falsy (Some (text ++ [NL])) = false).
  { destruct text; reflexivity. }
  rewrite Hf, includes_app_NL, endsWith_app_NL, slice_drop_last.
  unfold replaceRangeInternal. cbn [lines setLines]. rewrite pushUndo_lines.
  rewrite cpSlice_whole, cpSlice_past_end.
  cbn [splitNL]. rewrite N.eqb_refl.
  pose proof (splitNL_nonempty text) as Hne.
  destruct (splitNL text) as [| p ps] eqn:Hsp; [contradiction |].
  match goal with
  | |- context [removelast ?a ++ [?b]] =>
      assert (Hrest : removelast a ++ [b] = p :: ps)
  end.
  { rewrite app_nil_r.
    change (last ([] :: p :: ps) []) with (last (p :: ps) []).
    symmetry. apply app_removelast_last. discriminate. }
  rewrite Hrest, app_nil_r.
  replace (Z.to_nat (cursorRow s + 1)) with (Z.to_nat (cursorRow s) + 1)%nat by lia.
  rewrite <- (firstn_snoc_lineAt (lines s) (cursorRow s) Hrow), <- app_assoc.
  reflexivity.
Qed.

(** In NORMAL mode with nothing pending, [yy] copies the cursor line,
    followed by a newline, into the clipboard and changes nothing else in
    the buffer. *)
Lemma yy_yanks_current_line (L : TextBufferLib) (P : TextBufferPorts)
    (env : Env) (w : World) :
  idle env (vim w) ->
  mode (vim w) = NORMAL ->
  pendingOperator (vim w) = None ->
  buffer (typeKeys env [charKey "y"; charKey "y"] w)
  = setClipboard (buffer w)
      (Some (lineAt (lines (buffer w)) (cursorRow (buffer w)) ++ [NL])).
Proof.
  intros Hidle Hmode Hop. unfold typeKeys. cbn [fold_left].
  rewrite (handleInput_idle L P env _ w Hidle) by reflexivity.
  rewrite Hmode. unfold handleNormalModeInput at 1. rewrite Hmode, Hop. key_tests.
  cbn [mode_eqb isVisual op_is andb snd].
  set (w1 := dispatch (SET_PENDING_OPERATOR (Some op_y)) w).
  assert (Hidle1 : idle env (vim w1)).
  { destruct Hidle as (H1 & H2 & H3 & H4). repeat split; assumption. }
  rewrite (handleInput_idle L P env _ w1 Hidle1) by reflexivity.
  assert (Hmode1 : mode (vim w1) = NORMAL) by exact Hmode.
  rewrite Hmode1. unfold handleNormalModeInput. rewrite Hmode1. key_tests.
  cbn [mode_eqb isVisual andb].
  change (pendingOperator (vim w1)) with (Some op_y).
  reflexivity.
Qed.

(** C7. Starting from lines = ["foo", "bar"] with cursor (0,0) in NORMAL
    mode (Vim mode on, the default vim-editor style), the keys y, y, j, p
    yield lines = ["foo", "bar", "foo"]: the linewise yank copies the current
    line with a trailing newline into the clipboard, and the linewise paste
    with p inserts it on the line below the cursor line. *)
Theorem yank_line_paste_below (L : TextBufferLib) (P : TextBufferPorts)
    (commandModeDisabled submits : bool) :
  let env := mkEnv true vim_editor commandModeDisabled submits in
  clipboard (buffer (typeKeys env [charKey "y"; charKey "y"] fooBarWorld))
  = Some (js "foo" ++ [NL])
  /\ cursorRow (buffer (typeKeys env [charKey "y"; charKey "y"; charKey "j"]
                                 fooBarWorld)) = 1
  /\ lines (buffer (typeKeys env [charKey "y"; charKey "y"; charKey "j"; charKey "p"]
                             fooBarWorld))
     = [js "foo"; js "bar"; js "foo"]
  /\ mode (vim (typeKeys env [charKey "y"; charKey "y"; charKey "j"; charKey "p"]
                         fooBarWorld)) = NORMAL.
Proof.
  destruct commandModeDisabled, submits; repeat split; reflexivity.
Qed.

(** ** C10: the visual operators yank before they delete *)

Lemma slice_three {A : Type} (l : list A) (a b : Z) :
  0 <= a <= b ->
  slice l 0 (Some a) ++ slice l a (Some b) ++ slice l b None = l.
Proof.
  intros Hab. unfold slice, relIndex.
  change (0 <? 0) with false. cbv beta iota.
  destruct (Z.ltb_spec a 0); [lia |].
  destruct (Z.ltb_spec b 0); [lia |].
  set (len := Z.of_nat (List.length l)).
  rewrite (Z.min_l 0 len) by lia.
  rewrite !Z.sub_0_r. change (skipn (Z.to_nat 0) l) with l.
  set (x := Z.to_nat (Z.min a len)).
  set (y := Z.to_nat (Z.min b len)).
  replace (Z.to_nat (Z.min b len - Z.min a len)) with (y - x)%nat by lia.
  assert (Hxy : (x <= y)%nat) by lia.
  assert (Hy : (y <= List.length l)%nat) by lia.
  replace (Z.to_nat (len - Z.min b len)) with (List.length l - y)%nat by lia.
  rewrite (firstn_all2 (n := (List.length l - y)%nat)) by (rewrite length_skipn; lia).
  replace (skipn y l) with (skipn (y - x) (skipn x l))
    by (rewrite skipn_skipn; f_equal; lia).
  rewrite firstn_skipn. apply firstn_skipn.
Qed.

(** A line is what lies before a range of code points, the range, and what
    lies after it. *)
Lemma cpSlice_three (line : jsstring) (a b : Z) :
  0 <= a <= b ->
  cpSlice line 0 (Some a) ++ cpSlice line a (Some b) ++ cpSlice line b None = line.
Proof.
  intros Hab. unfold cpSlice, join0.
  rewrite <- !concat_app, slice_three by exact Hab.
  apply concat_arrayFrom.
Qed.

Lemma selectionRange_ordered (anchor : Z * Z) (r c : Z) :
  let '(sr, sc, er, ec) := selectionRange anchor r c in
  sr <= er /\ (sr = er -> sc <= ec).
Proof.
  unfold selectionRange. destruct anchor as [ar ac]. cbn [fst snd].
  destruct (Z.ltb_spec ar r); cbn [orb].
  - lia.
  - destruct (Z.eqb_spec ar r); cbn [andb].
    + destruct (Z.ltb_spec ac c); lia.
    + lia.
Qed.

Lemma visual_operator_steps (L : TextBufferLib) (P : TextBufferPorts)
    (env : Env) (w : World) (key : string) :
  idle env (vim w) ->
  isVisual (mode (vim w)) = true ->
  key = "d"%string \/ key = "c"%string \/ key = "x"%string ->
  handleInput env (charKey key) w = (true, afterVisualOperator (modeAfter key) w).
Proof.
  intros Hidle Hvis Hkey.
  assert (Hctrl : (ctrl (charKey key) && nameIs (charKey key) "x") = false) by reflexivity.
  rewrite (handleInput_idle L P env _ w Hidle Hctrl).
  destruct (mode (vim w)) eqn:Hmode; try discriminate Hvis;
    unfold handleNormalModeInput; rewrite Hmode;
    destruct Hkey as [-> | [-> | ->]]; key_tests; reflexivity.
Qed.




(** ** C4: the history round trip *)

Module HistoryFacts.
Import History.

Section RoundTrip.

Variable userMessages : list jsstring.

Local Notation "'up'" := (navigateUp userMessages true).
Local Notation "'down'" := (navigateDown userMessages true).
Local Notation "'nmsg'" := (nMessages userMessages).

(** Entering navigation: the draft is stored and the newest message shown. *)
Lemma up_enters (p : Prompt) :
  historyIndex (hist p) = -1 -> 0 < nmsg ->
  snd (up p)
  = mkPrompt (mkHist 0 (currentQuery p))
             (match nthZ userMessages (nmsg - 1) with
              | Some t => t
              | None => currentQuery p
              end)
             (emitted p ++ [nthZ userMessages (nmsg - 1)])
             (snapshots p ++ [currentQuery p])
             (submitted p).
Proof.
  intros Hh Hn. unfold navigateUp. rewrite Hh. cbn [negb].
  destruct (Z.eqb_spec nmsg 0); [lia |].
  cbn. rewrite Z.sub_0_r. reflexivity.
Qed.

(** One step further into the past. *)
Lemma up_inside (p : Prompt) :
  0 <= historyIndex (hist p) < nmsg - 1 ->
  snd (up p)
  = mkPrompt (mkHist (historyIndex (hist p) + 1) (originalQueryBeforeNav (hist p)))
             (match nthZ userMessages (nmsg - 1 - (historyIndex (hist p) + 1)) with
              | Some t => t
              | None => currentQuery p
              end)
             (emitted p ++ [nthZ userMessages (nmsg - 1 - (historyIndex (hist p) + 1))])
             (snapshots p)
             (submitted p).
Proof.
  intros Hh. unfold navigateUp. cbn [negb].
  destruct (Z.eqb_spec nmsg 0); [lia |].
  destruct (Z.eqb_spec (historyIndex (hist p)) (-1)); [lia |].
  destruct (Z.ltb_spec (historyIndex (hist p)) (nmsg - 1)); [| lia].
  destruct (Z.eqb_spec (historyIndex (hist p) + 1) (historyIndex (hist p))); [lia |].
  reflexivity.
Qed.

(** One step back towards the draft. *)
Lemma down_inside (p : Prompt) :
  0 < historyIndex (hist p) ->
  snd (down p)
  = mkPrompt (mkHist (historyIndex (hist p) - 1) (originalQueryBeforeNav (hist p)))
             (match nthZ userMessages (nmsg - 1 - (historyIndex (hist p) - 1)) with
              | Some t => t
              | None => currentQuery p
              end)
             (emitted p ++ [nthZ userMessages (nmsg - 1 - (historyIndex (hist p) - 1))])
             (snapshots p)
             (submitted p).
Proof.
  intros Hh. unfold navigateDown. cbn [negb].
  destruct (Z.eqb_spec (historyIndex (hist p)) (-1)); [lia |].
  destruct (Z.eqb_spec (historyIndex (hist p) - 1) (-1)); [lia |].
  reflexivity.
Qed.

(** Leaving navigation: the stored draft comes back. *)
Lemma down_leaves (p : Prompt) :
  historyIndex (hist p) = 0 ->
  snd (down p)
  = mkPrompt (mkHist (-1) (originalQueryBeforeNav (hist p)))
             (originalQueryBeforeNav (hist p))
             (emitted p ++ [Some (originalQueryBeforeNav (hist p))])
             (snapshots p)
             (submitted p).
Proof.
  intros Hh. unfold navigateDown. rewrite Hh. reflexivity.
Qed.

Lemma press_up_inside (m : nat) : forall p : Prompt,
  0 <= historyIndex (hist p) ->
  historyIndex (hist p) + Z.of_nat m <= nmsg - 1 ->
  let p' := press up m p in
  historyIndex (hist p') = historyIndex (hist p) + Z.of_nat m
  /\ originalQueryBeforeNav (hist p') = originalQueryBeforeNav (hist p)
  /\ snapshots p' = snapshots p
  /\ List.length (emitted p') = (List.length (emitted p) + m)%nat.
Proof.
  induction m as [| m IH]; intros p H0 Hm; cbn [press].
  - cbv zeta. repeat split; lia.
  - cbv zeta. rewrite up_inside by lia.
    match goal with |- context [press _ m ?q] => specialize (IH q) end.
    cbn [hist historyIndex originalQueryBeforeNav snapshots emitted] in IH.
    destruct IH as (I1 & I2 & I3 & I4); [lia | lia |].
    rewrite I1, I2, I3, I4, length_app. cbn [List.length]. repeat split; lia.
Qed.

Lemma press_down_out (m : nat) : forall p : Prompt,
  historyIndex (hist p) = Z.of_nat m ->
  let p' := press down (S m) p in
  historyIndex (hist p') = -1
  /\ currentQuery p' = originalQueryBeforeNav (hist p)
  /\ last (emitted p') None = Some (originalQueryBeforeNav (hist p))
  /\ snapshots p' = snapshots p
  /\ List.length (emitted p') = (List.length (emitted p) + S m)%nat.
Proof.
  induction m as [| m IH]; intros p Hm.
  - cbn [press]. cbv zeta. rewrite down_leaves by exact Hm.
    cbn [hist historyIndex currentQuery emitted snapshots].
    rewrite last_last, length_app. cbn [List.length]. repeat split; lia.
  - change (press down (S (S m)) p) with (press down (S m) (snd (down p))).
    cbv zeta. rewrite down_inside by lia.
    match goal with |- context [press _ (S m) ?q] => specialize (IH q) end.
    cbn [hist historyIndex originalQueryBeforeNav snapshots emitted] in IH.
    destruct IH as (I1 & I2 & I3 & I4 & I5); [lia |].
    rewrite I1, I2, I3, I4, I5, length_app. cbn [List.length]. repeat split; lia.
Qed.

(** An inactive navigator ignores the keys. *)
Lemma press_inactive (f : Prompt -> bool * Prompt) (m : nat) (p : Prompt) :
  (forall p', snd (f p') = p') -> press f m p = p.
Proof.
  intros Hf. induction m as [| m IH]; cbn [press]; [reflexivity |].
  rewrite Hf. exact IH.
Qed.

End RoundTrip.

End HistoryFacts.

Import History.

(** C4. For every message list and every k <= len(user_messages), starting
    from history_index = -1 with any current draft, k times navigate_up
    followed by k times navigate_down leaves the prompt holding the original
    draft with history_index back at -1; when the navigator is active and
    k >= 1, the last text emitted is that draft, 2k texts were emitted, and
    the draft was snapshot exactly once, on entering navigation. *)
Theorem history_round_trip (userMessages : list jsstring) (isActive : bool)
    (stale draft : jsstring) (k : nat) :
  (k <= List.length userMessages)%nat ->
  let p := press (navigateDown userMessages isActive) k
             (press (navigateUp userMessages isActive) k (fresh stale draft)) in
  currentQuery p = draft
  /\ historyIndex (hist p) = -1
  /\ (isActive = true -> (1 <= k)%nat ->
      last (emitted p) None = Some draft
      /\ List.length (emitted p) = (2 * k)%nat
      /\ snapshots p = [draft]).
Proof.
  intros Hk p. subst p.
  destruct isActive.
  2: { rewrite !HistoryFacts.press_inactive by reflexivity.
       split; [reflexivity |]. split; [reflexivity |]. intros Hc. discriminate Hc. }
  destruct k as [| m].
  - cbn. split; [reflexivity |]. split; [reflexivity |]. intros _ Hc. lia.
  - change (press (navigateUp userMessages true) (S m) (fresh stale draft))
      with (press (navigateUp userMessages true) m
              (snd (navigateUp userMessages true (fresh stale draft)))).
    assert (Hn : 0 < nMessages userMessages) by (unfold nMessages; lia).
    rewrite HistoryFacts.up_enters by (reflexivity || exact Hn).
    match goal with
    | |- context [press (navigateUp _ _) m ?q] => set (p1 := q)
    end.
    assert (H1 : historyIndex (hist p1) = 0) by reflexivity.
    assert (H2 : originalQueryBeforeNav (hist p1) = draft) by reflexivity.
    assert (H3 : snapshots p1 = [draft]) by reflexivity.
    assert (H4 : List.length (emitted p1) = 1%nat) by reflexivity.
    clearbody p1.
    destruct (HistoryFacts.press_up_inside userMessages m p1) as (U1 & U2 & U3 & U4);
      [lia | unfold nMessages; lia |].
    set (p2 := press (navigateUp userMessages true) m p1) in *.
    clearbody p2.
    destruct (HistoryFacts.press_down_out userMessages m p2) as (D1 & D2 & D3 & D4 & D5); [lia |].
    rewrite D1, D2, D3, D4, D5, U2, U3, U4, H2, H3, H4.
    repeat split; lia.
Qed.

Lemma history_round_trip_witness :
  (3 <= List.length oneTwoThree)%nat
  /\ currentQuery (press (navigateDown oneTwoThree true) 3
                     (press (navigateUp oneTwoThree true) 3 (fresh [] (js "draft"))))
     = js "draft"
  /\ emitted (press (navigateDown oneTwoThree true) 3
                (press (navigateUp oneTwoThree true) 3 (fresh [] (js "draft"))))
     = map Some [js "three"; js "two"; js "one"; js "two"; js "three"; js "draft"].
Proof.
  split; [cbn; lia |].
  split.
  - apply (history_round_trip oneTwoThree true [] (js "draft") 3). cbn; lia.
  - reflexivity.
Defined.


(** ** C8: the confirmation waiter *)

Module ConfirmationFacts.
Import Confirmation.

Section Traces.

Variable Payload : Type.
Variable waiterId : string.

Arguments mkWaiter {Payload}.
Arguments Pending {Payload}.

(** Once both listeners are gone nothing reaches the waiter any more. *)
Lemma run_detached (v : PromiseState Payload) (es : list (Event Payload)) :
  run Payload waiterId (mkWaiter false false v) es = mkWaiter false false v.
Proof.
  induction es as [| e es IH]; [reflexivity |].
  unfold run in *. cbn [fold_left]. destruct e; exact IH.
Qed.

(** While it waits, the waiter is decided by the first event that concerns
    it, and by nothing after it. *)
Lemma run_waiting (es : list (Event Payload)) :
  run Payload waiterId (mkWaiter true true Pending) es
  = match firstRelevant Payload waiterId es with
    | None => mkWaiter true true Pending
    | Some e => mkWaiter false false (expected Payload (Some e))
    end.
Proof.
  induction es as [| e es IH]; [reflexivity |].
  destruct e as [msg |].
  - change (run Payload waiterId (mkWaiter true true Pending) (Publish Payload msg :: es))
      with (run Payload waiterId
              (onResponse Payload waiterId msg (mkWaiter true true Pending)) es).
    unfold onResponse. cbn [firstRelevant].
    destruct (String.eqb (correlationId Payload msg) waiterId).
    + apply run_detached.
    + exact IH.
  - apply run_detached.
Qed.

End Traces.

End ConfirmationFacts.

Import Confirmation.


(** The cases of confirmation.test.ts that bear on the claim: a response
    for another id is ignored and the next, matching one resolves with the
    mapped outcome; after the token fired a matching response comes too
    late. *)
Example awaitConfirmation_test_traces :
  let wrong := mkResponse unit "wrong-id" None true None in
  let right := mkResponse unit "my-id" None true None in
  promise unit (run unit "my-id" (awaitConfirmation unit false None)
                    [Publish unit wrong; Publish unit right])
  = Resolved unit (mkResult unit ProceedOnce None)
  /\ promise unit (run unit "my-id" (awaitConfirmation unit false None)
                       [Publish unit wrong; Abort unit; Publish unit right])
     = Rejected unit OperationCancelled.
Proof. split; reflexivity. Qed.

(** ** C6: search *)

Lemma isPrefix_nonempty_nil (q : jsstring) : q <> [] -> isPrefix q [] = false.
Proof. destruct q; [congruence | reflexivity]. Qed.

Lemma findFrom_spec (q : jsstring) : forall (s : jsstring) (i : Z),
  0 <= i ->
  (findFrom q s i = -1
   /\ forall j, (j <= List.length s)%nat -> isPrefix q (skipn j s) = false)
  \/ (exists j, (j <= List.length s)%nat
                /\ findFrom q s i = i + Z.of_nat j
                /\ isPrefix q (skipn j s) = true
                /\ forall j', (j' < j)%nat -> isPrefix q (skipn j' s) = false).
Proof.
  induction s as [| c t IH]; intros i Hi; cbn [findFrom].
  - destruct (isPrefix q []) eqn:E.
    + right. exists 0%nat. repeat split; [cbn; lia | lia | exact E | intros; lia].
    + left. split; [reflexivity |]. intros [| j] Hj; [exact E | cbn in Hj; lia].
  - destruct (isPrefix q (c :: t)) eqn:E.
    + right. exists 0%nat. repeat split; [cbn; lia | lia | exact E | intros; lia].
    + destruct (IH (i + 1) ltac:(lia)) as [[Hnone Hall] | (j & Hj & Hk & Hp & Hmin)].
      * left. split; [exact Hnone |].
        intros [| j] Hj; [exact E |]. cbn [skipn]. apply Hall. cbn in Hj. lia.
      * right. exists (S j). repeat split.
        -- cbn. lia.
        -- rewrite Hk. lia.
        -- exact Hp.
        -- intros [| j'] Hj'; [exact E |]. cbn [skipn]. apply Hmin. lia.
Qed.

Lemma indexOf_none (s q : jsstring) (from : Z) :
  indexOf s q from = -1 -> forall j, occursAt q s j -> j < from.
Proof.
  unfold indexOf, occursAt, strlen. intros Hidx j [Hj Hp].
  set (start := Z.min (Z.max from 0) (Z.of_nat (List.length s))) in *.
  assert (Hs : 0 <= start <= Z.of_nat (List.length s)) by lia.
  destruct (findFrom_spec q (skipn (Z.to_nat start) s) start ltac:(lia))
    as [[_ Hall] | (j' & _ & Hk & _)]; [| lia].
  destruct (Z.lt_ge_cases j start) as [Hlt | Hge]; [lia |].
  exfalso.
  specialize (Hall (Z.to_nat j - Z.to_nat start)%nat).
  rewrite skipn_skipn in Hall.
  replace (Z.to_nat j - Z.to_nat start + Z.to_nat start)%nat with (Z.to_nat j) in Hall by lia.
  rewrite Hall in Hp; [discriminate |].
  rewrite length_skipn. lia.
Qed.

Lemma indexOf_found (s q : jsstring) (from : Z) :
  indexOf s q from <> -1 ->
  occursAt q s (indexOf s q from)
  /\ (forall j, occursAt q s j -> from <= j -> indexOf s q from <= j)
  /\ (q <> [] -> from <= indexOf s q from).
Proof.
  unfold indexOf, occursAt, strlen. intros Hidx.
  set (start := Z.min (Z.max from 0) (Z.of_nat (List.length s))) in *.
  assert (Hs : 0 <= start <= Z.of_nat (List.length s)) by lia.
  destruct (findFrom_spec q (skipn (Z.to_nat start) s) start ltac:(lia))
    as [[Hnone _] | (j' & Hj' & Hk & Hp & Hmin)]; [contradiction |].
  rewrite length_skipn in Hj'. rewrite skipn_skipn in Hp.
  rewrite Hk.
  replace (Z.to_nat (start + Z.of_nat j')) with (j' + Z.to_nat start)%nat by lia.
  split; [split; [lia | exact Hp] |].
  split.
  - intros j [Hj Hpj] Hfrom.
    destruct (Z.lt_ge_cases j (start + Z.of_nat j')) as [Hlt | Hge]; [| lia].
    exfalso.
    specialize (Hmin (Z.to_nat j - Z.to_nat start)%nat ltac:(lia)).
    rewrite skipn_skipn in Hmin.
    replace (Z.to_nat j - Z.to_nat start + Z.to_nat start)%nat with (Z.to_nat j) in Hmin by lia.
    rewrite Hmin in Hpj. discriminate.
  - intros Hq.
    destruct (Z.le_gt_cases from (Z.of_nat (List.length s))) as [Hle | Hgt]; [lia |].
    exfalso.
    assert (Hstart : Z.to_nat start = List.length s) by lia.
    rewrite Hstart in Hp.
    rewrite skipn_all2 in Hp by lia.
    rewrite (isPrefix_nonempty_nil q Hq) in Hp. discriminate.
Qed.

(** What a loop over rows finds, it finds at a row of the buffer at or
    after the start of the loop. *)
Lemma scanUp_some {A : Type} (f : Z -> jsstring -> option A) (lines : list jsstring)
    (a : nat) (p : A) :
  scanUp f (skipn a lines) (Z.of_nat a) = Some p ->
  exists i line, Z.of_nat a <= i /\ nthZ lines i = Some line /\ f i line = Some p.
Proof.
  remember (skipn a lines) as rest eqn:Hrest.
  revert a Hrest. induction rest as [| l t IH]; intros a Hrest; cbn [scanUp]; [discriminate |].
  assert (Hnth : nth_error lines a = Some l).
  { rewrite <- (firstn_skipn a lines) at 1. rewrite <- Hrest.
    assert (Ha : (a <= List.length lines)%nat).
    { destruct (Nat.le_gt_cases a (List.length lines)) as [H | H]; [exact H |].
      rewrite skipn_all2 in Hrest by lia. discriminate. }
    rewrite nth_error_app2 by (rewrite length_firstn; lia).
    rewrite length_firstn, Nat.min_l, Nat.sub_diag by lia. reflexivity. }
  destruct (f (Z.of_nat a) l) as [p' |] eqn:Hf.
  - intros [= <-]. exists (Z.of_nat a), l. split; [lia |]. split; [| exact Hf].
    unfold nthZ. destruct (Z.ltb_spec (Z.of_nat a) 0); [lia |].
    rewrite Nat2Z.id. exact Hnth.
  - intros Hscan.
    destruct (IH (S a)) as (i & line & Hi & Hl & Hfi).
    + rewrite <- (Nat.add_1_l a), <- skipn_skipn, <- Hrest. reflexivity.
    + replace (Z.of_nat (S a)) with (Z.of_nat a + 1) by lia. exact Hscan.
    + exists i, line. split; [lia |]. split; assumption.
Qed.

(** What a loop over rows does not find is at none of the rows it visits. *)
Lemma scanUp_none {A : Type} (f : Z -> jsstring -> option A) (rows : list jsstring)
    (a : Z) :
  scanUp f rows a = None ->
  forall j line, nth_error rows j = Some line -> f (a + Z.of_nat j) line = None.
Proof.
  revert a. induction rows as [| l t IH]; intros a Hscan j line Hj.
  - destruct j; discriminate.
  - cbn [scanUp] in Hscan. destruct (f a l) eqn:Hf; [discriminate |].
    destruct j as [| j]; cbn in Hj.
    + injection Hj as <-. rewrite Z.add_0_r. exact Hf.
    + replace (a + Z.of_nat (S j)) with (a + 1 + Z.of_nat j) by lia.
      apply (IH _ Hscan _ _ Hj).
Qed.

Lemma nthZ_lineAt (lines : list jsstring) (r : Z) :
  0 <= r < Z.of_nat (List.length lines) -> nthZ lines r = Some (lineAt lines r).
Proof.
  intros Hr. unfold lineAt, nthZ.
  destruct (Z.ltb_spec r 0); [lia |].
  destruct (nth_error lines (Z.to_nat r)) eqn:E; [reflexivity |].
  apply nth_error_None in E. lia.
Qed.

Lemma nthZ_Some {A : Type} (l : list A) (i : Z) (x : A) :
  nthZ l i = Some x -> 0 <= i /\ nth_error l (Z.to_nat i) = Some x.
Proof.
  unfold nthZ. destruct (Z.ltb_spec i 0); [discriminate |]. intros H'. split; [lia | exact H'].
Qed.

Lemma nth_error_firstn_Some {A : Type} (l : list A) (k i : nat) (x : A) :
  nth_error (firstn k l) i = Some x -> nth_error l i = Some x /\ (i < k)%nat.
Proof.
  revert k i. induction l as [| y l IH]; intros [| k] [| i]; cbn; try discriminate.
  - intros H. split; [exact H | lia].
  - intros H. destruct (IH _ _ H). split; [assumption | lia].
Qed.

Lemma nth_error_firstn_lt {A : Type} (l : list A) (k i : nat) :
  (i < k)%nat -> nth_error (firstn k l) i = nth_error l i.
Proof.
  revert k i. induction l as [| y l IH]; intros [| k] [| i] H; cbn; try reflexivity; try lia.
  apply IH. lia.
Qed.

Lemma nth_error_skipn_shift {A : Type} (l : list A) (k i : nat) :
  nth_error (skipn k l) i = nth_error l (k + i).
Proof.
  revert l. induction k as [| k IH]; intros [| y l]; cbn; try reflexivity.
  - destruct i; reflexivity.
  - apply IH.
Qed.

Section SearchForward.

Variables (lines : list jsstring) (r c : Z) (q : jsstring).
Hypothesis Hrow : 0 <= r < Z.of_nat (List.length lines).

Lemma searchForward_sound (r' c' : Z) :
  searchForward lines r c q = Some (r', c') -> matchAt lines q r' c'.
Proof.
  unfold searchForward.
  destruct (Z.eqb_spec (indexOf (lineAt lines r) q (c + 1)) (-1)) as [E1 | E1]; cbn [negb].
  - destruct (scanUp _ (skipn (Z.to_nat (r + 1)) lines) (r + 1)) as [p |] eqn:E2.
    + intros [= ->].
      replace (r + 1) with (Z.of_nat (Z.to_nat (r + 1))) in E2 at 2 by lia.
      apply scanUp_some in E2. destruct E2 as (i & line & _ & Hline & Hf).
      destruct (Z.eqb_spec (indexOf line q 0) (-1)) as [E | E]; cbn [negb] in Hf;
        [discriminate |].
      injection Hf as <- <-. exists line. split; [exact Hline |].
      apply (indexOf_found line q 0 E).
    + intros E3.
      change (firstn (Z.to_nat (r + 1)) lines)
        with (skipn 0 (firstn (Z.to_nat (r + 1)) lines)) in E3.
      apply (scanUp_some _ _ 0%nat) in E3. destruct E3 as (i & line & _ & Hline & Hf).
      destruct (Z.eqb_spec (indexOf line q 0) (-1)) as [E | E]; cbn [negb andb] in Hf;
        [discriminate |].
      destruct ((i <? r) || (indexOf line q 0 <? c)); [| discriminate].
      injection Hf as <- <-. exists line. split.
      * apply nthZ_Some in Hline. destruct Hline as [Hi Hn].
        apply nth_error_firstn_Some in Hn. destruct Hn as [Hn _].
        unfold nthZ. destruct (Z.ltb_spec i 0); [lia | exact Hn].
      * apply (indexOf_found line q 0 E).
  - intros [= <- <-]. exists (lineAt lines r). split; [apply nthZ_lineAt; exact Hrow |].
    apply (indexOf_found _ q (c + 1) E1).
Qed.

Lemma searchForward_complete :
  searchForward lines r c q = None ->
  forall r' c', matchAt lines q r' c' -> r' = r /\ c' = c.
Proof.
  unfold searchForward.
  destruct (Z.eqb_spec (indexOf (lineAt lines r) q (c + 1)) (-1)) as [E1 | E1]; cbn [negb];
    [| discriminate].
  destruct (scanUp _ (skipn (Z.to_nat (r + 1)) lines) (r + 1)) as [p |] eqn:E2;
    [discriminate |].
  intros E3 r' c' (line & Hline & Hocc).
  apply nthZ_Some in Hline. destruct Hline as [Hr' Hn].
  destruct (Z.lt_ge_cases r r') as [Hgt | Hle].
  - (* a later row: the second loop saw it *)
    exfalso.
    pose proof (scanUp_none _ _ _ E2 (Z.to_nat r' - Z.to_nat (r + 1))%nat line) as Hf.
    rewrite nth_error_skipn_shift in Hf.
    replace (Z.to_nat (r + 1) + (Z.to_nat r' - Z.to_nat (r + 1)))%nat
      with (Z.to_nat r') in Hf by lia.
    specialize (Hf Hn). cbv beta zeta in Hf.
    destruct (Z.eqb_spec (indexOf line q 0) (-1)) as [E | E]; cbn [negb] in Hf;
      [| discriminate].
    pose proof (indexOf_none line q 0 E c' Hocc). destruct Hocc. lia.
  - (* the cursor row or an earlier one: the wrap-around loop saw it *)
    pose proof (scanUp_none _ _ _ E3 (Z.to_nat r') line) as Hf.
    rewrite nth_error_firstn_lt in Hf by lia.
    specialize (Hf Hn). cbv beta zeta in Hf.
    rewrite Z.add_0_l, Z2Nat.id in Hf by lia.
    destruct (Z.eqb_spec (indexOf line q 0) (-1)) as [E | E]; cbn [negb andb] in Hf.
    + exfalso. pose proof (indexOf_none line q 0 E c' Hocc). destruct Hocc. lia.
    + destruct ((r' <? r) || (indexOf line q 0 <? c)) eqn:Hb; [discriminate |].
      apply orb_false_iff in Hb. destruct Hb as [Hb1 Hb2].
      apply Z.ltb_ge in Hb1. apply Z.ltb_ge in Hb2.
      assert (Hrr : r' = r) by lia. subst r'.
      split; [reflexivity |].
      assert (Hsame : line = lineAt lines r).
      { unfold lineAt, nthZ. destruct (Z.ltb_spec r 0); [lia |]. now rewrite Hn. }
      subst line.
      pose proof (indexOf_none _ q (c + 1) E1 c' Hocc).
      destruct (indexOf_found _ q 0 E) as (_ & Hmin & _).
      specialize (Hmin c' Hocc). destruct Hocc. lia.
Qed.

Lemma searchForward_priority :
  q <> [] ->
  (exists r'' c'', matchAt lines q r'' c'' /\ isAfter r'' c'' r c) ->
  exists r' c', searchForward lines r c q = Some (r', c') /\ isAfter r' c' r c.
Proof.
  intros Hq (r'' & c'' & (line & Hline & Hocc) & Hafter).
  unfold searchForward.
  destruct (Z.eqb_spec (indexOf (lineAt lines r) q (c + 1)) (-1)) as [E1 | E1]; cbn [negb].
  - destruct (scanUp _ (skipn (Z.to_nat (r + 1)) lines) (r + 1)) as [p |] eqn:E2.
    + replace (r + 1) with (Z.of_nat (Z.to_nat (r + 1))) in E2 at 2 by lia.
      apply scanUp_some in E2. destruct E2 as (i & line' & Hi & _ & Hf).
      destruct (negb (indexOf line' q 0 =? -1)); [| discriminate].
      injection Hf as <-. exists i, (indexOf line' q 0).
      split; [reflexivity |]. left. lia.
    + exfalso. apply nthZ_Some in Hline. destruct Hline as [Hr'' Hn].
      destruct Hafter as [Hgt | [Heq Hgt]].
      * pose proof (scanUp_none _ _ _ E2 (Z.to_nat r'' - Z.to_nat (r + 1))%nat line) as Hf.
        rewrite nth_error_skipn_shift in Hf.
        replace (Z.to_nat (r + 1) + (Z.to_nat r'' - Z.to_nat (r + 1)))%nat
          with (Z.to_nat r'') in Hf by lia.
        specialize (Hf Hn). cbv beta zeta in Hf.
        destruct (Z.eqb_spec (indexOf line q 0) (-1)) as [E | E]; cbn [negb] in Hf;
          [| discriminate].
        pose proof (indexOf_none line q 0 E c'' Hocc). destruct Hocc. lia.
      * subst r''.
        assert (Hsame : line = lineAt lines r).
        { unfold lineAt, nthZ. destruct (Z.ltb_spec r 0); [lia |]. now rewrite Hn. }
        subst line.
        pose proof (indexOf_none _ q (c + 1) E1 c'' Hocc). lia.
  - exists r, (indexOf (lineAt lines r) q (c + 1)). split; [reflexivity |].
    right. split; [reflexivity |].
    destruct (indexOf_found _ q (c + 1) E1) as (_ & _ & Hfrom).
    specialize (Hfrom Hq). lia.
Qed.

End SearchForward.

(** [n] and [N] run the search of [/] and [?] again on the stored query. *)
Lemma search_next_is_search (L : TextBufferLib) (s : TextBufferState)
    (q : jsstring) (d : Direction) :
  lastSearchQuery s = Some q -> q <> [] ->
  handleVimAction s (vim_search_next d) = handleVimAction s (vim_search q d).
Proof.
  intros Hq Hne. unfold handleVimAction. rewrite Hq.
  destruct q as [| u q']; [congruence |]. cbn [falsy].
  destruct (searchFind s (u :: q') d) as [[fr fc] |];
    destruct s; cbn in *; subst; reflexivity.
Qed.

(** X8. What the search does, in the indices that String.indexOf counts (UTF-16
    code units): the forward search leaves the cursor where it is or puts it
    on an occurrence of the query; it puts it on an occurrence whenever the
    query occurs anywhere but at the cursor itself (the search wraps around);
    and an occurrence after the cursor, later on its line or on a later line,
    is taken before the search wraps. In either direction the search stores
    the query and leaves the text alone, and [vim_search_next] on a stored
    query is that same search again. *)
Lemma search_spec (L : TextBufferLib) (s : TextBufferState) (q : jsstring) :
  0 <= cursorRow s < Z.of_nat (List.length (lines s)) ->
  let s' := handleVimAction s (vim_search q forward) in
  (forall d, lastSearchQuery (handleVimAction s (vim_search q d)) = Some q
             /\ lines (handleVimAction s (vim_search q d)) = lines s)
  /\ ((cursorRow s' = cursorRow s /\ cursorCol s' = cursorCol s)
      \/ matchAt (lines s) q (cursorRow s') (cursorCol s'))
  /\ ((exists r c, matchAt (lines s) q r c /\ (r <> cursorRow s \/ c <> cursorCol s)) ->
      matchAt (lines s) q (cursorRow s') (cursorCol s'))
  /\ (q <> [] ->
      (exists r c, matchAt (lines s) q r c /\ isAfter r c (cursorRow s) (cursorCol s)) ->
      isAfter (cursorRow s') (cursorCol s') (cursorRow s) (cursorCol s))
  /\ (lastSearchQuery s = Some q -> q <> [] ->
      forall d, handleVimAction s (vim_search_next d) = handleVimAction s (vim_search q d)).
Proof.
  intros Hrow s'. subst s'.
  split.
  { intros d. unfold handleVimAction.
    destruct (searchFind s q d) as [[fr fc] |]; split; reflexivity. }
  assert (Hs' : handleVimAction s (vim_search q forward)
                = match searchForward (lines s) (cursorRow s) (cursorCol s) q with
                  | Some (fr, fc) =>
                      setLastSearchQuery (setCursor s fr fc None) (Some q)
                  | None => setLastSearchQuery s (Some q)
                  end) by reflexivity.
  rewrite Hs'. clear Hs'.
  destruct (searchForward (lines s) (cursorRow s) (cursorCol s) q) as [[fr fc] |] eqn:E.
  - pose proof (searchForward_sound _ _ _ _ Hrow _ _ E) as Hm.
    cbn [cursorRow cursorCol setCursor setLastSearchQuery].
    split; [right; exact Hm |].
    split; [intros _; exact Hm |].
    split.
    + intros Hq Hex.
      destruct (searchForward_priority _ _ _ _ Hrow Hq Hex) as (r' & c' & E' & Ha).
      rewrite E in E'. injection E' as <- <-. exact Ha.
    + intros Hq Hne d. apply (search_next_is_search L s q d Hq Hne).
  - cbn [cursorRow cursorCol setLastSearchQuery].
    split; [left; split; reflexivity |].
    split.
    + intros (r & c & Hm & Hneq). exfalso.
      destruct (searchForward_complete _ _ _ _ Hrow E r c Hm). lia.
    + split.
      * intros Hq Hex. exfalso.
        destruct (searchForward_priority _ _ _ _ Hrow Hq Hex) as (r' & c' & E' & _).
        rewrite E in E'. discriminate.
      * intros Hq Hne d. apply (search_next_is_search L s q d Hq Hne).
Qed.

Example search_spec_example :
  0 <= cursorRow abcXbc < Z.of_nat (List.length (lines abcXbc))
  /\ lastSearchQuery abcXbc = Some (js "bc")
  /\ js "bc" <> []
  /\ matchAt (lines abcXbc) (js "bc") 1 1
  /\ forall L : TextBufferLib,
       cursorRow (handleVimAction abcXbc (vim_search (js "bc") forward)) = 1
       /\ cursorCol (handleVimAction abcXbc (vim_search (js "bc") forward)) = 1
       /\ isAfter (cursorRow (handleVimAction abcXbc (vim_search (js "bc") forward)))
                  (cursorCol (handleVimAction abcXbc (vim_search (js "bc") forward)))
                  (cursorRow abcXbc) (cursorCol abcXbc)
       /\ handleVimAction abcXbc (vim_search_next forward)
          = handleVimAction abcXbc (vim_search (js "bc") forward).
Proof.
  assert (Hrow : 0 <= cursorRow abcXbc < Z.of_nat (List.length (lines abcXbc)))
    by (cbn; lia).
  assert (Hm : matchAt (lines abcXbc) (js "bc") 1 1).
  { exists (js "xbc"). split; [reflexivity |]. split; [cbn; lia | reflexivity]. }
  split; [exact Hrow |].
  split; [reflexivity |].
  split; [discriminate |].
  split; [exact Hm |].
  intros L.
  destruct (search_spec L abcXbc (js "bc") Hrow) as (_ & _ & _ & Hafter & Hnext).
  split; [reflexivity |].
  split; [reflexivity |].
  split.
  - apply Hafter; [discriminate |].
    exists 1, 1. split; [exact Hm | left; cbn; lia].
  - apply Hnext; [reflexivity | discriminate].
Defined.

Lemma toCodePoints_noSurrogates (s : jsstring) :
  noSurrogates s = true -> toCodePoints s = map (fun u => [u]) s.
Proof.
  unfold toCodePoints. induction s as [| h t IH]; [reflexivity |].
  intros Hs. cbn [noSurrogates forallb] in Hs.
  apply andb_true_iff in Hs. destruct Hs as [Hh Ht].
  rewrite arrayFrom_cons. destruct t as [| l t']; [reflexivity |].
  apply negb_true_iff in Hh. rewrite Hh. cbn [andb map].
  f_equal. apply IH. exact Ht.
Qed.

Lemma cpLen_noSurrogates (s : jsstring) :
  noSurrogates s = true -> cpLen s = strlen s.
Proof.
  intros Hs. unfold cpLen, strlen.
  rewrite (toCodePoints_noSurrogates s Hs), length_map. reflexivity.
Qed.

(** C6 fails on the code where a line holds a surrogate pair. On the line
    x U+1F600 y the text "y" is the code point at column 2. The forward search
    for "y" from (0,0) stores what String.indexOf returns, the UTF-16 index 3,
    as the cursor column: the cursor ends at column 3, the end of the line,
    and not on the occurrence. The query is stored all the same. *)
Theorem search_lands_beside_the_match (L : TextBufferLib) :
  let s' := handleVimAction xFaceY (vim_search (js "y") forward) in
  cpSlice (lineAt (lines xFaceY) 0) 2 (Some 3) = js "y"
  /\ cpLen (lineAt (lines xFaceY) 0) = 3
  /\ cursorRow s' = 0
  /\ cursorCol s' = 3
  /\ cpSlice (lineAt (lines s') (cursorRow s')) (cursorCol s') None = []
  /\ lastSearchQuery s' = Some (js "y").
Proof.
  cbv zeta. repeat split; reflexivity.
Qed.

(** ** C1: the cursor invariant *)

(** C1 fails on the code. Yank the text above, paste it, go to the start of
    the line and search for "x": the search stores the index that
    String.indexOf returns, 4, a count of UTF-16 code units, as the cursor
    column, while the line has 3 code points. The reached state breaks
    [cursorCol <= codepoint_len(lines[cursorRow])]. *)
Theorem search_leaves_cursor_past_end_of_line (L : TextBufferLib) :
  let s := reach [vim_yank twoFacesAndX; vim_paste before;
                  vim_move_to_line_start; vim_search (js "x") forward] in
  lines s = [twoFacesAndX]
  /\ cursorRow s = 0
  /\ cursorCol s = 4
  /\ cpLen (lineAt (lines s) (cursorRow s)) = 3
  /\ ~ (0 <= cursorCol s <= cpLen (lineAt (lines s) (cursorRow s))).
Proof.
  cbv zeta. repeat split; try reflexivity.
  vm_compute. intros [_ H]. apply H. reflexivity.
Qed.

(** * Further properties of the code

    Properties of the reducer, of the controller, of the history hook and of
    the confirmation waiter beyond C1 to C10, each read off the source. *)

(** ** Where the plain cursor moves leave the cursor *)

Lemma cpLen_nonneg (s : jsstring) : 0 <= cpLen s.
Proof. unfold cpLen. lia. Qed.

Lemma moveLeftLoop_inside (lines : list jsstring) (n : nat) : forall r c,
  0 <= r < Z.of_nat (List.length lines) ->
  0 <= c <= cpLen (lineAt lines r) ->
  0 <= fst (moveLeftLoop n lines r c) < Z.of_nat (List.length lines)
  /\ 0 <= snd (moveLeftLoop n lines r c)
       <= cpLen (lineAt lines (fst (moveLeftLoop n lines r c))).
Proof.
  induction n as [| n IH]; intros r c Hr Hc; cbn [moveLeftLoop].
  - cbn [fst snd]. split; assumption.
  - destruct (Z.ltb_spec 0 c).
    + apply IH; lia.
    + destruct (Z.ltb_spec 0 r).
      * pose proof (cpLen_nonneg (lineAt lines (r - 1))).
        apply IH; [lia |].
        destruct (Z.eqb_spec (cpLen (lineAt lines (r - 1))) 0); lia.
      * apply IH; assumption.
Qed.

Lemma skipMarksRight_bounds (L : TextBufferLib) (pts : list jsstring) (len : Z)
    (fuel : nat) : forall c,
  c <= len - 1 ->
  c <= skipMarksRight fuel pts len c <= len - 1.
Proof.
  induction fuel as [| f IH]; intros c Hc; cbn [skipMarksRight]; [lia |].
  destruct ((c <? Z.of_nat (List.length pts)) && isCombiningMark (nthZ pts c)); cbn [andb];
    [| lia].
  destruct (Z.ltb_spec c (len - 1)); [| lia].
  specialize (IH (c + 1) ltac:(lia)). lia.
Qed.

Lemma moveRightLoop_inside (L : TextBufferLib) (lines : list jsstring) (n : nat) :
  forall r c,
  0 <= r < Z.of_nat (List.length lines) ->
  0 <= c <= cpLen (lineAt lines r) ->
  0 <= fst (moveRightLoop n lines r c) < Z.of_nat (List.length lines)
  /\ 0 <= snd (moveRightLoop n lines r c)
       <= cpLen (lineAt lines (fst (moveRightLoop n lines r c))).
Proof.
  induction n as [| n IH]; intros r c Hr Hc; cbn [moveRightLoop].
  - cbn [fst snd]. split; assumption.
  - destruct (Z.eqb_spec (cpLen (lineAt lines r)) 0).
    + destruct (Z.ltb_spec r (Z.of_nat (List.length lines) - 1)).
      * apply IH; [lia |]. pose proof (cpLen_nonneg (lineAt lines (r + 1))). lia.
      * apply IH; assumption.
    + destruct (Z.ltb_spec c (cpLen (lineAt lines r) - 1)).
      * apply IH; [lia |].
        pose proof (skipMarksRight_bounds L (toCodePoints (lineAt lines r))
                      (cpLen (lineAt lines r))
                      (List.length (toCodePoints (lineAt lines r))) (c + 1) ltac:(lia)).
        lia.
      * destruct (Z.ltb_spec r (Z.of_nat (List.length lines) - 1)).
        -- apply IH; [lia |]. pose proof (cpLen_nonneg (lineAt lines (r + 1))). lia.
        -- apply IH; assumption.
Qed.

Lemma firstNonSpace_bounds (cps : list jsstring) : forall col,
  col <= firstNonSpace cps col <= col + Z.of_nat (List.length cps).
Proof.
  induction cps as [| c t IH]; intros col; cbn [firstNonSpace List.length]; [lia |].
  destruct (testSpace (Some c)); [| lia].
  specialize (IH (col + 1)). lia.
Qed.

Lemma str_eqb_eq (a b : jsstring) : str_eqb a b = true <-> a = b.
Proof.
  revert b. induction a as [| x a IH]; intros [| y b]; cbn [str_eqb];
    try (split; [discriminate | congruence]); [tauto |].
  rewrite andb_true_iff, N.eqb_eq, IH. split; [intros [-> ->]; reflexivity | intros [= -> ->]; tauto].
Qed.

Lemma findIndexUp_spec {A : Type} (p : A -> bool) (l : list A) : forall i,
  match findIndexUp p l i with
  | Some k => exists j x, k = i + Z.of_nat j /\ nth_error l j = Some x /\ p x = true
                          /\ forall j' y, (j' < j)%nat -> nth_error l j' = Some y -> p y = false
  | None => forall j y, nth_error l j = Some y -> p y = false
  end.
Proof.
  induction l as [| x t IH]; intros i; cbn [findIndexUp].
  - intros [| j] y; discriminate.
  - destruct (p x) eqn:Hp.
    + exists 0%nat, x. repeat split; [lia | exact Hp | intros; lia].
    + specialize (IH (i + 1)). destruct (findIndexUp p t (i + 1)) as [k |].
      * destruct IH as (j & y & Hk & Hn & Hy & Hmin).
        exists (S j), y. repeat split; [lia | exact Hn | exact Hy |].
        intros [| j'] z Hj' Hz; cbn in Hz; [congruence |]. apply (Hmin j'); [lia | exact Hz].
      * intros [| j] y Hy; cbn in Hy; [congruence |]. apply (IH j); exact Hy.
Qed.

Lemma findIndexDown_spec {A : Type} (p : A -> bool) (l : list A) : forall i,
  match findIndexDown p l i with
  | Some k => exists j x, k = i - Z.of_nat j /\ nth_error l j = Some x /\ p x = true
                          /\ forall j' y, (j' < j)%nat -> nth_error l j' = Some y -> p y = false
  | None => forall j y, nth_error l j = Some y -> p y = false
  end.
Proof.
  induction l as [| x t IH]; intros i; cbn [findIndexDown].
  - intros [| j] y; discriminate.
  - destruct (p x) eqn:Hp.
    + exists 0%nat, x. repeat split; [lia | exact Hp | intros; lia].
    + specialize (IH (i - 1)). destruct (findIndexDown p t (i - 1)) as [k |].
      * destruct IH as (j & y & Hk & Hn & Hy & Hmin).
        exists (S j), y. repeat split; [lia | exact Hn | exact Hy |].
        intros [| j'] z Hj' Hz; cbn in Hz; [congruence |]. apply (Hmin j'); [lia | exact Hz].
      * intros [| j] y Hy; cbn in Hy; [congruence |]. apply (IH j); exact Hy.
Qed.

(** Reading the reversed prefix [arr[top], arr[top-1], ..., arr[0]]. *)
Lemma nth_error_rev_firstn {A : Type} (l : list A) (top : Z) (j : nat) :
  -1 <= top < Z.of_nat (List.length l) ->
  nth_error (rev (firstn (Z.to_nat (top + 1)) l)) j
  = if (Z.of_nat j <=? top) then nth_error l (Z.to_nat (top - Z.of_nat j)) else None.
Proof.
  intros Htop.
  assert (Hlen : List.length (firstn (Z.to_nat (top + 1)) l) = Z.to_nat (top + 1))
    by (rewrite length_firstn; lia).
  destruct (Z.leb_spec (Z.of_nat j) top) as [Hj | Hj].
  - rewrite nth_error_rev, Hlen.
    destruct (Nat.ltb_spec j (Z.to_nat (top + 1))); [| lia].
    rewrite nth_error_firstn.
    destruct (Nat.ltb_spec (Z.to_nat (top + 1) - S j) (Z.to_nat (top + 1))); [| lia].
    f_equal. lia.
  - apply nth_error_None. rewrite length_rev, Hlen. lia.
Qed.

Lemma nthZ_of_nth_error {A : Type} (l : list A) (i : Z) (x : A) :
  0 <= i -> nth_error l (Z.to_nat i) = Some x -> nthZ l i = Some x.
Proof. intros Hi H. unfold nthZ. destruct (Z.ltb_spec i 0); [lia | exact H]. Qed.

Lemma pairColsForward_sound (o c : jsstring) (chars : list jsstring) :
  forall col depth k,
  pairColsForward o c chars col depth = inl k ->
  exists j, k = col + Z.of_nat j /\ nth_error chars j = Some c.
Proof.
  induction chars as [| ch t IH]; intros col depth k; cbn [pairColsForward]; [discriminate |].
  assert (Hrec : forall d, pairColsForward o c t (col + 1) d = inl k ->
                 exists j, k = col + Z.of_nat j /\ nth_error (ch :: t) j = Some c).
  { intros d Hd. destruct (IH _ _ _ Hd) as (j & Hk & Hn).
    exists (S j). split; [lia | exact Hn]. }
  destruct (str_eqb ch o); [apply Hrec |].
  destruct (str_eqb ch c) eqn:Hc; [| apply Hrec].
  destruct (depth =? 0); [| apply Hrec].
  intros [= <-]. apply str_eqb_eq in Hc. subst ch.
  exists 0%nat. split; [lia | reflexivity].
Qed.

Lemma pairRowsForward_sound (o c : jsstring) (sr sc : Z) (ls : list jsstring) :
  forall row depth r' c',
  pairRowsForward o c sr sc ls row depth = Some (r', c') ->
  exists j line, r' = row + Z.of_nat j /\ nth_error ls j = Some line
                 /\ nthZ (toCodePoints line) c' = Some c
                 /\ (r' = sr -> sc <= c').
Proof.
  induction ls as [| line t IH]; intros row depth r' c'; cbn [pairRowsForward];
    [discriminate |].
  set (colStart := Z.max (if row =? sr then sc else 0) 0).
  destruct (pairColsForward o c (skipn (Z.to_nat colStart) (toCodePoints line)) colStart depth)
    as [col | d] eqn:E.
  - intros [= <- <-]. apply pairColsForward_sound in E. destruct E as (j & Hk & Hn).
    rewrite nth_error_skipn_shift in Hn.
    exists 0%nat, line. split; [lia |]. split; [reflexivity |]. split.
    + apply nthZ_of_nth_error; [lia |].
      replace (Z.to_nat col) with (Z.to_nat colStart + j)%nat by lia. exact Hn.
    + intros Hr. subst colStart. destruct (Z.eqb_spec row sr); lia.
  - intros H. destruct (IH _ _ _ _ H) as (j & l & Hr & Hn & Hc & Hs).
    exists (S j), l. split; [lia |]. split; [exact Hn |]. split; assumption.
Qed.

Lemma pairColsBackward_sound (c o : jsstring) (chars : list jsstring) :
  forall col depth k,
  pairColsBackward c o chars col depth = inl k ->
  exists j, k = col - Z.of_nat j /\ nth_error chars j = Some o.
Proof.
  induction chars as [| ch t IH]; intros col depth k; cbn [pairColsBackward]; [discriminate |].
  assert (Hrec : forall d, pairColsBackward c o t (col - 1) d = inl k ->
                 exists j, k = col - Z.of_nat j /\ nth_error (ch :: t) j = Some o).
  { intros d Hd. destruct (IH _ _ _ Hd) as (j & Hk & Hn).
    exists (S j). split; [lia | exact Hn]. }
  destruct (str_eqb ch c); [apply Hrec |].
  destruct (str_eqb ch o) eqn:Ho; [| apply Hrec].
  destruct (depth =? 0); [| apply Hrec].
  intros [= <-]. apply str_eqb_eq in Ho. subst ch.
  exists 0%nat. split; [lia | reflexivity].
Qed.

Lemma pairRowsBackward_sound (c o : jsstring) (sr sc : Z) (ls : list jsstring) :
  forall row depth r' c',
  pairRowsBackward c o sr sc ls row depth = Some (r', c') ->
  exists j line, r' = row - Z.of_nat j /\ nth_error ls j = Some line
                 /\ nthZ (toCodePoints line) c' = Some o
                 /\ (r' = sr -> c' <= sc).
Proof.
  induction ls as [| line t IH]; intros row depth r' c'; cbn [pairRowsBackward];
    [discriminate |].
  set (chars := toCodePoints line).
  set (colStart := if row =? sr then sc else Z.of_nat (List.length chars) - 1).
  set (top := Z.min colStart (Z.of_nat (List.length chars) - 1)).
  destruct (pairColsBackward c o (rev (firstn (Z.to_nat (top + 1)) chars)) top depth)
    as [col | d] eqn:E.
  - intros [= <- <-]. apply pairColsBackward_sound in E. destruct E as (j & Hk & Hn).
    destruct (Z.lt_ge_cases top (-1)) as [Hneg | Htop].
    { replace (Z.to_nat (top + 1)) with 0%nat in Hn by lia.
      cbn [firstn rev] in Hn. destruct j; discriminate. }
    rewrite (nth_error_rev_firstn chars top j ltac:(lia)) in Hn.
    destruct (Z.leb_spec (Z.of_nat j) top); [| discriminate].
    exists 0%nat, line. split; [lia |]. split; [reflexivity |]. split.
    + apply nthZ_of_nth_error; [lia |].
      replace col with (top - Z.of_nat j) by lia. exact Hn.
    + intros Hr. subst top colStart. destruct (Z.eqb_spec row sr); lia.
  - intros H. destruct (IH _ _ _ _ H) as (j & l & Hr & Hn & Hc & Hs).
    exists (S j), l. split; [lia |]. split; [exact Hn |]. split; assumption.
Qed.

Lemma lineAt_of_nth_error (lines : list jsstring) (r : Z) (line : jsstring) :
  0 <= r -> nth_error lines (Z.to_nat r) = Some line -> lineAt lines r = line.
Proof.
  intros Hr H. unfold lineAt. rewrite (nthZ_of_nth_error lines r line Hr H). reflexivity.
Qed.

Lemma findPairForward_sound (lines : list jsstring) (sr sc : Z) (o c : jsstring)
    (r' c' : Z) :
  0 <= sr ->
  findPairForward lines sr sc o c = Some (r', c') ->
  codePointAt lines r' c' = Some c
  /\ 0 <= r' < Z.of_nat (List.length lines)
  /\ (sr < r' \/ (r' = sr /\ sc <= c')).
Proof.
  intros Hsr. unfold findPairForward. rewrite Z.max_l by lia. intros H.
  apply pairRowsForward_sound in H. destruct H as (j & line & Hr & Hn & Hc & Hs).
  rewrite nth_error_skipn_shift in Hn.
  assert (Hnth : nth_error lines (Z.to_nat r') = Some line)
    by (replace (Z.to_nat r') with (Z.to_nat sr + j)%nat by lia; exact Hn).
  assert (Hlt : (Z.to_nat r' < List.length lines)%nat) by (apply nth_error_Some; congruence).
  unfold codePointAt. rewrite (lineAt_of_nth_error lines r' line ltac:(lia) Hnth).
  split; [exact Hc |]. split; [lia |].
  destruct j as [| j]; [right; split; [lia | apply Hs; lia] | left; lia].
Qed.

Lemma findPairBackward_sound (lines : list jsstring) (sr sc : Z) (c o : jsstring)
    (r' c' : Z) :
  findPairBackward lines sr sc c o = Some (r', c') ->
  codePointAt lines r' c' = Some o
  /\ 0 <= r' < Z.of_nat (List.length lines)
  /\ (r' < sr \/ (r' = sr /\ c' <= sc)).
Proof.
  unfold findPairBackward.
  set (top := Z.min sr (Z.of_nat (List.length lines) - 1)). intros H.
  apply pairRowsBackward_sound in H. destruct H as (j & line & Hr & Hn & Hc & Hs).
  destruct (Z.lt_ge_cases top (-1)) as [Hneg | Htop].
  { replace (Z.to_nat (top + 1)) with 0%nat in Hn by lia.
    cbn [firstn rev] in Hn. destruct j; discriminate. }
  rewrite (nth_error_rev_firstn lines top j ltac:(lia)) in Hn.
  destruct (Z.leb_spec (Z.of_nat j) top); [| discriminate].
  replace (top - Z.of_nat j) with r' in Hn by lia.
  unfold codePointAt. rewrite (lineAt_of_nth_error lines r' line ltac:(lia) Hn).
  split; [exact Hc |]. split; [lia |].
  destruct (Z.eq_dec r' sr) as [-> | Hne]; [right; split; [reflexivity | apply Hs; reflexivity] |].
  left. lia.
Qed.

(** What [findMatchingPair] answers: the bracket it starts from is the one
    under the cursor or the first one after it on the line, and the position
    it returns holds the partner of that bracket, after it for an opening
    bracket and before it for a closing one. *)
Lemma findMatchingPair_sound (lines : list jsstring) (r c r' c' : Z) :
  findMatchingPair lines r c = Some (r', c') ->
  exists a from to,
    (a = c \/ c < a)
    /\ codePointAt lines r a = Some from
    /\ bracketPartner from = Some to
    /\ codePointAt lines r' c' = Some to
    /\ 0 <= r' < Z.of_nat (List.length lines)
    /\ (if isSome (pairs (Some from)) then isAfter r' c' r a else isAfter r a r' c').
Proof.
  unfold findMatchingPair.
  set (cps := toCodePoints (lineAt lines r)).
  set (isPairChar := fun ch : jsstring =>
         isSome (pairs (Some ch)) || isSome (reversePairs (Some ch))).
  set (from0 := Z.max (c + 1) 0).
  assert (Hactive : exists a, (a = c \/ c < a) /\
            (if negb (isSome (pairs (nthZ cps c))) && negb (isSome (reversePairs (nthZ cps c)))
             then match findIndexUp isPairChar (skipn (Z.to_nat from0) cps) from0 with
                  | Some i => (i, nthZ cps i)
                  | None => (c, nthZ cps c)
                  end
             else (c, nthZ cps c)) = (a, nthZ cps a)).
  { destruct (negb (isSome (pairs (nthZ cps c))) && negb (isSome (reversePairs (nthZ cps c)))).
    - pose proof (findIndexUp_spec isPairChar (skipn (Z.to_nat from0) cps) from0) as H.
      destruct (findIndexUp isPairChar _ from0) as [i |].
      + destruct H as (j & x & Hi & _). exists i. split; [right; lia | reflexivity].
      + exists c. split; [left; reflexivity | reflexivity].
    - exists c. split; [left; reflexivity | reflexivity]. }
  destruct Hactive as (a & Ha & ->).
  destruct (nthZ cps a) as [ch |] eqn:Hch; [| discriminate].
  assert (Hrow : 0 <= r).
  { destruct (Z.lt_ge_cases r 0) as [Hneg | Hok]; [| exact Hok].
    exfalso. subst cps. unfold lineAt, nthZ in Hch.
    destruct (Z.ltb_spec r 0); [| lia]. cbn in Hch.
    destruct (a <? 0); [discriminate |]. destruct (Z.to_nat a); discriminate. }
  destruct (pairs (Some ch)) as [closer |] eqn:Hp.
  - intros H. apply findPairForward_sound in H; [| exact Hrow].
    destruct H as (Hc & Hr' & Hdir).
    exists a, ch, closer. split; [exact Ha |]. split; [exact Hch |].
    split; [unfold bracketPartner; rewrite Hp; reflexivity |].
    split; [exact Hc |]. split; [exact Hr' |].
    rewrite Hp. cbn [isSome]. unfold isAfter. lia.
  - destruct (reversePairs (Some ch)) as [opener |] eqn:Hq; [| discriminate].
    intros H. apply findPairBackward_sound in H.
    destruct H as (Hc & Hr' & Hdir).
    exists a, ch, opener. split; [exact Ha |]. split; [exact Hch |].
    split; [unfold bracketPartner; rewrite Hp; exact Hq |].
    split; [exact Hc |]. split; [exact Hr' |].
    rewrite Hp. cbn [isSome]. unfold isAfter. lia.
Qed.

Lemma codePointAt_inside (lines : list jsstring) (r c : Z) (ch : jsstring) :
  codePointAt lines r c = Some ch -> 0 <= c < cpLen (lineAt lines r).
Proof.
  unfold codePointAt, cpLen. intros H. apply nthZ_Some in H. destruct H as [Hc Hn].
  assert ((Z.to_nat c < List.length (toCodePoints (lineAt lines r)))%nat)
    by (apply nth_error_Some; congruence).
  lia.
Qed.

Ltac inside_text :=
  unfold cursorInText, linesCount in *;
  cbn [setCursor lines cursorRow cursorCol preferredCol] in *.



(** ** The sticky column *)

Lemma lastCol_if (line : jsstring) :
  (if 0 <? cpLen line then cpLen line - 1 else 0) = lastCol line.
Proof. unfold lastCol. destruct (Z.ltb_spec 0 (cpLen line)); lia. Qed.

(** X2. The sticky column of j and k: with no column remembered yet and at
    least n rows on either side of the cursor, n rows down put the cursor on
    the remembered column or on the last column of a shorter line, and n rows
    up again bring it back to the row and the column it started from (and the
    same for up, then down); the column is then remembered. *)
Theorem vertical_round_trip (L : TextBufferLib) (s : TextBufferState) (n : Z) :
  0 <= n <= cursorRow s ->
  cursorRow s + n < linesCount s ->
  preferredCol s = None ->
  cursorCol s <= lastCol (lineAt (lines s) (cursorRow s)) ->
  let down := handleVimAction s (vim_move_down n) in
  let up := handleVimAction s (vim_move_up n) in
  cursorRow down = cursorRow s + n
  /\ cursorCol down = Z.min (cursorCol s) (lastCol (lineAt (lines s) (cursorRow s + n)))
  /\ handleVimAction down (vim_move_up n) = setCursor s (cursorRow s) (cursorCol s) (Some (cursorCol s))
  /\ cursorRow up = cursorRow s - n
  /\ cursorCol up = Z.min (cursorCol s) (lastCol (lineAt (lines s) (cursorRow s - n)))
  /\ handleVimAction up (vim_move_down n) = setCursor s (cursorRow s) (cursorCol s) (Some (cursorCol s)).
Proof.
  intros Hn Hlast Hpref Hcol. unfold linesCount in Hlast.
  cbv zeta. unfold handleVimAction.
  rewrite Hpref. cbn [setCursor lines cursorRow cursorCol preferredCol].
  rewrite !lastCol_if.
  replace (Z.min (Z.of_nat (List.length (lines s)) - 1) (cursorRow s + n))
    with (cursorRow s + n) by lia.
  replace (Z.max 0 (cursorRow s - n)) with (cursorRow s - n) by lia.
  replace (Z.max 0 (cursorRow s + n - n)) with (cursorRow s) by lia.
  replace (Z.min (Z.of_nat (List.length (lines s)) - 1) (cursorRow s - n + n))
    with (cursorRow s) by lia.
  replace (Z.min (cursorCol s) (lastCol (lineAt (lines s) (cursorRow s))))
    with (cursorCol s) by lia.
  repeat split; reflexivity.
Qed.

Lemma vertical_round_trip_witness :
  0 <= 1 <= cursorRow raggedLines
  /\ cursorRow raggedLines + 1 < linesCount raggedLines
  /\ preferredCol raggedLines = None
  /\ cursorCol raggedLines <= lastCol (lineAt (lines raggedLines) (cursorRow raggedLines))
  /\ forall L : TextBufferLib,
       cursorCol (handleVimAction raggedLines (vim_move_down 1)) = 2
       /\ handleVimAction (handleVimAction raggedLines (vim_move_down 1)) (vim_move_up 1)
          = setCursor raggedLines 1 5 (Some 5).
Proof.
  assert (H1 : 0 <= 1 <= cursorRow raggedLines) by (cbn; lia).
  assert (H2 : cursorRow raggedLines + 1 < linesCount raggedLines) by (cbn; lia).
  assert (H3 : cursorCol raggedLines
               <= lastCol (lineAt (lines raggedLines) (cursorRow raggedLines)))
    by (vm_compute; discriminate).
  split; [exact H1 |]. split; [exact H2 |]. split; [reflexivity |]. split; [exact H3 |].
  intros L.
  destruct (vertical_round_trip L raggedLines 1 H1 H2 eq_refl H3) as (_ & _ & Hback & _).
  split; [reflexivity | exact Hback].
Defined.

(** ** Finding a character on the line *)

(** X3. f, F, t and T: the find looks at the code points of the cursor's line
    on one side of the cursor. If the character does not occur there the
    state is returned as it is; otherwise the cursor goes to the nearest
    occurrence on that side (f, F), or to the column just before it on the
    cursor's side (t, T), clamped to the line, and nothing but the cursor
    column and the remembered column changes. *)
Theorem find_char_spec (L : TextBufferLib) (s : TextBufferState) (ch : jsstring)
    (d : Direction) (t : FindType) :
  let line := lineAt (lines s) (cursorRow s) in
  let cps := toCodePoints line in
  let s' := handleVimAction s (vim_find_char ch d t) in
  (s' = s /\ forall k, beyond d (cursorCol s) k -> nthZ cps k <> Some ch)
  \/ exists k, nearest d cps (cursorCol s) ch k
               /\ s' = setCursor s (cursorRow s) (landing d t k (cpLen line)) None.
Proof.
  cbv zeta. unfold handleVimAction.
  set (line := lineAt (lines s) (cursorRow s)).
  set (cps := toCodePoints line).
  assert (Hlen : cpLen line = Z.of_nat (List.length cps)) by reflexivity.
  destruct d.
  - (* forward *)
    set (start := Z.max (cursorCol s + 1) 0).
    pose proof (findIndexUp_spec (fun c => str_eqb c ch) (skipn (Z.to_nat start) cps) start) as H.
    destruct (findIndexUp _ _ start) as [k |].
    + right. destruct H as (j & x & Hk & Hn & Hx & Hmin).
      apply str_eqb_eq in Hx. subst x.
      rewrite nth_error_skipn_shift in Hn.
      assert (Hkn : nth_error cps (Z.to_nat k) = Some ch)
        by (replace (Z.to_nat k) with (Z.to_nat start + j)%nat by lia; exact Hn).
      assert (Hklt : (Z.to_nat k < List.length cps)%nat)
        by (apply nth_error_Some; congruence).
      exists k. split.
      * split; [cbn [beyond]; lia |]. split.
        -- unfold nthZ. destruct (Z.ltb_spec k 0); [lia | exact Hkn].
        -- intros i Hi. cbn [beyond] in *.
           destruct (Z.lt_trichotomy i k) as [Hlt | [Heq | Hgt]]; [| tauto | left; exact Hgt].
           right. right. unfold nthZ. destruct (Z.ltb_spec i 0); [discriminate |].
           intros Hi'.
           specialize (Hmin (Z.to_nat i - Z.to_nat start)%nat ch ltac:(lia)).
           rewrite nth_error_skipn_shift in Hmin.
           replace (Z.to_nat start + (Z.to_nat i - Z.to_nat start))%nat
             with (Z.to_nat i) in Hmin by lia.
           specialize (Hmin Hi'). cbn beta in Hmin.
           assert (str_eqb ch ch = true) by (apply str_eqb_eq; reflexivity). congruence.
      * f_equal. rewrite Hlen. destruct t; cbn [landing]; lia.
    + left. split; [reflexivity |].
      intros k Hk. cbn [beyond] in Hk. unfold nthZ.
      destruct (Z.ltb_spec k 0); [discriminate |]. intros Hn.
      specialize (H (Z.to_nat k - Z.to_nat start)%nat ch).
      rewrite nth_error_skipn_shift in H.
      replace (Z.to_nat start + (Z.to_nat k - Z.to_nat start))%nat with (Z.to_nat k) in H by lia.
      specialize (H Hn). cbn beta in H.
      assert (str_eqb ch ch = true) by (apply str_eqb_eq; reflexivity). congruence.
  - (* backward *)
    set (top := Z.min (cursorCol s - 1) (Z.of_nat (List.length cps) - 1)).
    pose proof (findIndexDown_spec (fun c => str_eqb c ch)
                  (rev (firstn (Z.to_nat (top + 1)) cps)) top) as H.
    destruct (Z.lt_ge_cases top (-1)) as [Hneg | Htop].
    + (* the cursor column is negative: nothing lies before it *)
      replace (Z.to_nat (top + 1)) with 0%nat in * by lia.
      cbn [firstn rev findIndexDown] in *.
      left. split; [reflexivity |].
      intros k Hk. cbn [beyond] in Hk. unfold nthZ.
      destruct (Z.ltb_spec k 0); [discriminate | lia].
    + assert (Hb : -1 <= top < Z.of_nat (List.length cps)) by lia.
      destruct (findIndexDown _ _ top) as [k |].
      * right. destruct H as (j & x & Hk & Hn & Hx & Hmin).
        apply str_eqb_eq in Hx. subst x.
        rewrite (nth_error_rev_firstn cps top j Hb) in Hn.
        destruct (Z.leb_spec (Z.of_nat j) top); [| discriminate].
        replace (top - Z.of_nat j) with k in Hn by lia.
        exists k. split.
        -- split; [cbn [beyond]; lia |]. split.
           ++ unfold nthZ. destruct (Z.ltb_spec k 0); [lia | exact Hn].
           ++ intros i Hi. cbn [beyond] in *.
              destruct (Z.lt_trichotomy i k) as [Hlt | [Heq | Hgt]]; [left; exact Hlt | tauto |].
              right. right. unfold nthZ. destruct (Z.ltb_spec i 0); [discriminate |].
              intros Hi'.
              assert (Hit : i <= top).
              { assert ((Z.to_nat i < List.length cps)%nat)
                  by (apply nth_error_Some; congruence). lia. }
              specialize (Hmin (Z.to_nat (top - i)) ch ltac:(lia)).
              rewrite (nth_error_rev_firstn cps top _ Hb) in Hmin.
              destruct (Z.leb_spec (Z.of_nat (Z.to_nat (top - i))) top); [| lia].
              replace (top - Z.of_nat (Z.to_nat (top - i))) with i in Hmin by lia.
              specialize (Hmin Hi'). cbn beta in Hmin.
              assert (str_eqb ch ch = true) by (apply str_eqb_eq; reflexivity). congruence.
        -- f_equal. rewrite Hlen. destruct t; cbn [landing]; lia.
      * left. split; [reflexivity |].
        intros k Hk. cbn [beyond] in Hk. unfold nthZ.
        destruct (Z.ltb_spec k 0); [discriminate |]. intros Hn.
        assert (Hkt : k <= top).
        { assert ((Z.to_nat k < List.length cps)%nat)
            by (apply nth_error_Some; congruence). lia. }
        specialize (H (Z.to_nat (top - k)) ch).
        rewrite (nth_error_rev_firstn cps top _ Hb) in H.
        destruct (Z.leb_spec (Z.of_nat (Z.to_nat (top - k))) top); [| lia].
        replace (top - Z.of_nat (Z.to_nat (top - k))) with k in H by lia.
        specialize (H Hn). cbn beta in H.
        assert (str_eqb ch ch = true) by (apply str_eqb_eq; reflexivity). congruence.
Qed.

(** ** The first character that is not white space *)

Lemma firstNonSpace_spec (cps : list jsstring) : forall col,
  let k := firstNonSpace cps col in
  (forall j, (j < Z.to_nat (k - col))%nat -> testSpace (nth_error cps j) = true)
  /\ testSpace (nth_error cps (Z.to_nat (k - col))) = false.
Proof.
  induction cps as [| c t IH]; intros col; cbn [firstNonSpace]; cbv zeta.
  - rewrite Z.sub_diag. split; [intros j Hj; cbn in Hj; lia | reflexivity].
  - destruct (testSpace (Some c)) eqn:Hc.
    + specialize (IH (col + 1)). cbv zeta in IH. destruct IH as [Hall Hstop].
      pose proof (firstNonSpace_bounds t (col + 1)) as Hlow.
      replace (Z.to_nat (firstNonSpace t (col + 1) - col))
        with (S (Z.to_nat (firstNonSpace t (col + 1) - (col + 1)))) by lia.
      split.
      * intros [| j] Hj; [exact Hc |]. cbn [nth_error]. apply Hall. lia.
      * exact Hstop.
    + rewrite Z.sub_diag. split; [intros j Hj; cbn in Hj; lia | exact Hc].
Qed.

(** X4. ^ and I put the cursor on the first code point of the line that is
    not white space: every column before the new cursor column holds white
    space and the column itself does not. On a line of white space only that
    column is the end of the line, one past its last character. Nothing but
    the cursor changes. *)
Theorem first_nonwhitespace_spec (L : TextBufferLib) (s : TextBufferState) (insert : bool) :
  let a := if insert then vim_insert_at_line_start else vim_move_to_first_nonwhitespace in
  let cps := toCodePoints (lineAt (lines s) (cursorRow s)) in
  let s' := handleVimAction s a in
  s' = setCursor s (cursorRow s) (cursorCol s') None
  /\ 0 <= cursorCol s' <= Z.of_nat (List.length cps)
  /\ (forall j, 0 <= j < cursorCol s' -> testSpace (nthZ cps j) = true)
  /\ testSpace (nthZ cps (cursorCol s')) = false.
Proof.
  cbv zeta.
  set (cps := toCodePoints (lineAt (lines s) (cursorRow s))).
  assert (Hs' : handleVimAction s (if insert then vim_insert_at_line_start
                                   else vim_move_to_first_nonwhitespace)
                = setCursor s (cursorRow s) (firstNonSpace cps 0) None)
    by (destruct insert; reflexivity).
  rewrite Hs'. cbn [setCursor cursorCol].
  pose proof (firstNonSpace_bounds cps 0) as Hb.
  destruct (firstNonSpace_spec cps 0) as [Hall Hstop]. rewrite Z.sub_0_r in Hall, Hstop.
  split; [reflexivity |]. split; [lia |]. split.
  - intros j Hj. unfold nthZ. destruct (Z.ltb_spec j 0); [lia |]. apply Hall. lia.
  - unfold nthZ. destruct (Z.ltb_spec (firstNonSpace cps 0) 0); [lia | exact Hstop].
Qed.

(** ** Matching brackets *)


(** ** Undo *)

Lemma undo_after_pushUndo (s s' : TextBufferState) :
  undoStack s' = undoStack (pushUndo s) -> snapshot (undo s') = snapshot s.
Proof.
  intros H. unfold undo. rewrite H. unfold pushUndo. cbn [undoStack setUndoStack].
  assert (Hrev : exists older,
            rev (if (historyLimit <? List.length (undoStack s ++ [snapshot s]))%nat
                 then tl (undoStack s ++ [snapshot s])
                 else undoStack s ++ [snapshot s])
            = snapshot s :: older).
  { destruct (historyLimit <? List.length (undoStack s ++ [snapshot s]))%nat eqn:E.
    - destruct (undoStack s) as [| y u]; [discriminate E |].
      cbn [app tl]. rewrite rev_unit. eexists. reflexivity.
    - rewrite rev_unit. eexists. reflexivity. }
  destruct Hrev as [older ->]. reflexivity.
Qed.

Ltac split_cases :=
  repeat match goal with
  | |- context [if ?b then _ else _] => destruct b
  | |- context [match ?x with _ => _ end] => destruct x
  end.

Lemma reducer_pushes_once (L : TextBufferLib) (s : TextBufferState) (a : VimAction) :
  (lines (handleVimAction s a) = lines s
   /\ undoStack (handleVimAction s a) = undoStack s)
  \/ undoStack (handleVimAction s a) = undoStack (pushUndo s).
Proof.
  destruct a; unfold handleVimAction; cbv zeta; split_cases;
    first [ left; split; reflexivity
          | right;
            cbn [undoStack setCursorCol setCursorRowCol setSelectionAnchor setLines];
            rewrite ?replaceRangeInternal_undoStack; reflexivity ].
Qed.




(** ** The backward search *)

Lemma lastUpTo_spec (q : jsstring) (bound : Z) : forall (s : jsstring) (i acc : Z),
  (lastUpTo q s i bound acc = acc
   /\ forall j, (j <= List.length s)%nat -> i + Z.of_nat j <= bound ->
                isPrefix q (skipn j s) = false)
  \/ (exists j, (j <= List.length s)%nat
                /\ lastUpTo q s i bound acc = i + Z.of_nat j
                /\ i + Z.of_nat j <= bound
                /\ isPrefix q (skipn j s) = true
                /\ forall j', (j < j' <= List.length s)%nat -> i + Z.of_nat j' <= bound ->
                              isPrefix q (skipn j' s) = false).
Proof.
  induction s as [| c t IH]; intros i acc; cbn [lastUpTo].
  - destruct (Z.leb_spec i bound) as [Hle | Hgt]; cbn [andb].
    + destruct (isPrefix q []) eqn:E.
      * right. exists 0%nat. cbn [List.length skipn].
        repeat split; [lia | lia | lia | exact E | intros; lia].
      * left. split; [reflexivity |].
        intros [| j] Hj _; [exact E | cbn in Hj; lia].
    + left. split; [reflexivity |]. intros j Hj Hb. lia.
  - set (acc' := if (i <=? bound) && isPrefix q (c :: t) then i else acc).
    destruct (IH (i + 1) acc') as [[Hres Hnone] | (j & Hj & Hres & Hb & Hp & Hmax)].
    + rewrite Hres. subst acc'.
      destruct (Z.leb_spec i bound) as [Hle | Hgt]; cbn [andb].
      * destruct (isPrefix q (c :: t)) eqn:E.
        -- right. exists 0%nat. cbn [List.length skipn].
           repeat split; [lia | lia | lia | exact E |].
           intros [| j'] Hj' Hb'; [lia |]. cbn [skipn].
           apply Hnone; [cbn [List.length] in Hj'; lia | lia].
        -- left. split; [reflexivity |].
           intros [| j] Hj Hb; [exact E |]. cbn [skipn].
           apply Hnone; [cbn [List.length] in Hj; lia | lia].
      * left. split; [reflexivity |]. intros j Hj Hb. lia.
    + right. exists (S j). cbn [List.length skipn].
      repeat split; [lia | rewrite Hres; lia | lia | exact Hp |].
      intros [| j'] Hj' Hb'; [lia |]. cbn [skipn]. apply Hmax; lia.
Qed.

Lemma lastIndexOf_none (s q : jsstring) (from : option Z) :
  lastIndexOf s q from = -1 -> forall j, occursAt q s j -> lastBound s from < j.
Proof.
  change (lastIndexOf s q from) with (lastUpTo q s 0 (lastBound s from) (-1)).
  unfold occursAt, strlen. intros Hidx j [Hj Hp].
  destruct (lastUpTo_spec q (lastBound s from) s 0 (-1))
    as [[_ Hnone] | (j' & _ & Hres & _)]; [| lia].
  destruct (Z.lt_ge_cases (lastBound s from) j) as [Hlt | Hge]; [exact Hlt |].
  exfalso. specialize (Hnone (Z.to_nat j) ltac:(lia) ltac:(lia)). congruence.
Qed.

Lemma lastIndexOf_found (s q : jsstring) (from : option Z) :
  lastIndexOf s q from <> -1 ->
  occursAt q s (lastIndexOf s q from)
  /\ lastIndexOf s q from <= lastBound s from
  /\ forall j, occursAt q s j -> j <= lastBound s from -> j <= lastIndexOf s q from.
Proof.
  change (lastIndexOf s q from) with (lastUpTo q s 0 (lastBound s from) (-1)).
  unfold occursAt, strlen. intros Hidx.
  destruct (lastUpTo_spec q (lastBound s from) s 0 (-1))
    as [[Hres _] | (j' & Hj' & Hres & Hb & Hp & Hmax)]; [contradiction |].
  rewrite Hres. cbn [Z.add]. rewrite Nat2Z.id.
  split; [split; [lia | exact Hp] |]. split; [lia |].
  intros j [Hj Hpj] Hbj.
  destruct (Z.le_gt_cases j (Z.of_nat j')) as [Hle | Hgt]; [exact Hle |].
  exfalso. specialize (Hmax (Z.to_nat j) ltac:(lia) ltac:(lia)). congruence.
Qed.

Lemma scanDown_some {A : Type} (f : Z -> jsstring -> option A) (rows : list jsstring) :
  forall (i : Z) (p : A),
  scanDown f rows i = Some p ->
  exists j line, nth_error rows j = Some line /\ f (i - Z.of_nat j) line = Some p.
Proof.
  induction rows as [| l t IH]; intros i p; cbn [scanDown]; [discriminate |].
  destruct (f i l) as [p' |] eqn:Hf.
  - intros [= <-]. exists 0%nat, l. split; [reflexivity |]. rewrite Z.sub_0_r. exact Hf.
  - intros H. destruct (IH _ _ H) as (j & line & Hn & Hfj).
    exists (S j), line. split; [exact Hn |].
    replace (i - Z.of_nat (S j)) with (i - 1 - Z.of_nat j) by lia. exact Hfj.
Qed.

Lemma scanDown_none {A : Type} (f : Z -> jsstring -> option A) (rows : list jsstring) :
  forall i : Z,
  scanDown f rows i = None ->
  forall j line, nth_error rows j = Some line -> f (i - Z.of_nat j) line = None.
Proof.
  induction rows as [| l t IH]; intros i Hscan j line Hj.
  - destruct j; discriminate.
  - cbn [scanDown] in Hscan. destruct (f i l) eqn:Hf; [discriminate |].
    destruct j as [| j]; cbn in Hj.
    + injection Hj as <-. rewrite Z.sub_0_r. exact Hf.
    + replace (i - Z.of_nat (S j)) with (i - 1 - Z.of_nat j) by lia.
      apply (IH _ Hscan _ _ Hj).
Qed.

(** Reading the reversed suffix [arr[len-1], arr[len-2], ..., arr[k]]. *)
Lemma nth_error_rev_skipn {A : Type} (l : list A) (k j : nat) :
  (k <= List.length l)%nat ->
  nth_error (rev (skipn k l)) j
  = if (j <? List.length l - k)%nat then nth_error l (List.length l - 1 - j) else None.
Proof.
  intros Hk.
  destruct (Nat.ltb_spec j (List.length l - k)) as [Hj | Hj].
  - rewrite nth_error_rev, length_skipn.
    destruct (Nat.ltb_spec j (List.length l - k)); [| lia].
    rewrite nth_error_skipn_shift. f_equal. lia.
  - apply nth_error_None. rewrite length_rev, length_skipn. exact Hj.
Qed.

Section SearchBackward.

Variables (lines : list jsstring) (r c : Z) (q : jsstring).
Hypothesis Hrow : 0 <= r < Z.of_nat (List.length lines).

Local Notation "'above'" := (rev (firstn (Z.to_nat (r - 1 + 1)) lines)).
Local Notation "'below'" := (rev (skipn (Z.to_nat r) lines)).

Lemma searchBackward_unfold :
  searchBackward lines r c q
  = let idx := lastIndexOf (lineAt lines r) q (Some (c - 1)) in
    if negb (idx =? -1) then Some (r, idx)
    else
      match scanDown (fun i line =>
                        let idx := lastIndexOf line q None in
                        if negb (idx =? -1) then Some (i, idx) else None)
                     above (r - 1) with
      | Some p => Some p
      | None =>
          scanDown (fun i line =>
                      let idx := lastIndexOf line q None in
                      if negb (idx =? -1) && ((r <? i) || (c <? idx))
                      then Some (i, idx) else None)
                   below (Z.of_nat (List.length lines) - 1)
      end.
Proof.
  unfold searchBackward. replace (r - 1 + 1) with r by lia. reflexivity.
Qed.

Lemma above_row (j : nat) (line : jsstring) :
  nth_error above j = Some line ->
  0 <= r - 1 - Z.of_nat j /\ nth_error lines (Z.to_nat (r - 1 - Z.of_nat j)) = Some line.
Proof.
  rewrite (nth_error_rev_firstn lines (r - 1) j ltac:(lia)).
  destruct (Z.leb_spec (Z.of_nat j) (r - 1)) as [Hle | Hgt]; [| discriminate].
  intros Hn. split; [lia | exact Hn].
Qed.

Lemma below_row (j : nat) (line : jsstring) :
  nth_error below j = Some line ->
  r <= Z.of_nat (List.length lines) - 1 - Z.of_nat j
  /\ nth_error lines (Z.to_nat (Z.of_nat (List.length lines) - 1 - Z.of_nat j)) = Some line.
Proof.
  rewrite (nth_error_rev_skipn lines (Z.to_nat r) j ltac:(lia)).
  destruct (Nat.ltb_spec j (List.length lines - Z.to_nat r)) as [Hlt | Hge]; [| discriminate].
  intros Hn. split; [lia |].
  replace (Z.to_nat (Z.of_nat (List.length lines) - 1 - Z.of_nat j))
    with (List.length lines - 1 - j)%nat by lia.
  exact Hn.
Qed.

Lemma matchAt_row (i : Z) (line : jsstring) (k : Z) :
  0 <= i -> nth_error lines (Z.to_nat i) = Some line -> occursAt q line k ->
  matchAt lines q i k.
Proof.
  intros Hi Hn Hocc. exists line. split; [| exact Hocc].
  unfold nthZ. destruct (Z.ltb_spec i 0); [lia | exact Hn].
Qed.

Lemma searchBackward_sound (r' c' : Z) :
  searchBackward lines r c q = Some (r', c') -> matchAt lines q r' c'.
Proof.
  rewrite searchBackward_unfold. cbv zeta.
  destruct (Z.eqb_spec (lastIndexOf (lineAt lines r) q (Some (c - 1))) (-1)) as [E1 | E1];
    cbn [negb].
  - destruct (scanDown _ above (r - 1)) as [p |] eqn:E2.
    + intros [= ->]. apply scanDown_some in E2. destruct E2 as (j & line & Hn & Hf).
      cbv beta zeta in Hf.
      destruct (Z.eqb_spec (lastIndexOf line q None) (-1)) as [E | E]; cbn [negb] in Hf;
        [discriminate |].
      injection Hf as <- <-. apply above_row in Hn. destruct Hn as [Hi Hn].
      apply (matchAt_row _ line _ Hi Hn). apply (lastIndexOf_found line q None E).
    + intros E3. apply scanDown_some in E3. destruct E3 as (j & line & Hn & Hf).
      cbv beta zeta in Hf.
      destruct (Z.eqb_spec (lastIndexOf line q None) (-1)) as [E | E]; cbn [negb andb] in Hf;
        [discriminate |].
      match type of Hf with (if ?b then _ else _) = _ => destruct b end; [| discriminate].
      injection Hf as <- <-. apply below_row in Hn. destruct Hn as [Hi Hn].
      apply matchAt_row with (line := line);
        [lia | exact Hn | apply (lastIndexOf_found line q None E)].
  - intros [= <- <-]. exists (lineAt lines r). split; [apply nthZ_lineAt; exact Hrow |].
    apply (lastIndexOf_found _ q _ E1).
Qed.

Lemma searchBackward_complete :
  searchBackward lines r c q = None ->
  forall r' c', matchAt lines q r' c' -> r' = r /\ c' = c.
Proof.
  rewrite searchBackward_unfold. cbv zeta.
  destruct (Z.eqb_spec (lastIndexOf (lineAt lines r) q (Some (c - 1))) (-1)) as [E1 | E1];
    cbn [negb]; [| discriminate].
  destruct (scanDown _ above (r - 1)) as [p |] eqn:E2; [discriminate |].
  intros E3 r' c' (line & Hline & Hocc).
  apply nthZ_Some in Hline. destruct Hline as [Hr' Hn].
  assert (Hlt : (Z.to_nat r' < List.length lines)%nat) by (apply nth_error_Some; congruence).
  destruct (Z.lt_ge_cases r' r) as [Hup | Hdown].
  - (* an earlier row: the second loop saw it *)
    exfalso.
    pose proof (scanDown_none _ _ _ E2 (Z.to_nat (r - 1 - r')) line) as Hf.
    rewrite (nth_error_rev_firstn lines (r - 1) _ ltac:(lia)) in Hf.
    destruct (Z.leb_spec (Z.of_nat (Z.to_nat (r - 1 - r'))) (r - 1)); [| lia].
    replace (r - 1 - Z.of_nat (Z.to_nat (r - 1 - r'))) with r' in Hf by lia.
    specialize (Hf Hn). cbv beta zeta in Hf.
    destruct (Z.eqb_spec (lastIndexOf line q None) (-1)) as [E | E]; cbn [negb] in Hf;
      [| discriminate].
    pose proof (lastIndexOf_none line q None E c' Hocc) as Hb.
    cbn [lastBound] in Hb. destruct Hocc. lia.
  - (* the cursor row or a later one: the wrap-around loop saw it *)
    pose proof (scanDown_none _ _ _ E3 (List.length lines - 1 - Z.to_nat r')%nat line) as Hf.
    rewrite (nth_error_rev_skipn lines (Z.to_nat r) _ ltac:(lia)) in Hf.
    destruct (Nat.ltb_spec (List.length lines - 1 - Z.to_nat r')
                           (List.length lines - Z.to_nat r)); [| lia].
    replace (List.length lines - 1 - (List.length lines - 1 - Z.to_nat r'))%nat
      with (Z.to_nat r') in Hf by lia.
    specialize (Hf Hn). cbv beta zeta in Hf.
    replace (Z.of_nat (List.length lines) - 1
             - Z.of_nat (List.length lines - 1 - Z.to_nat r')) with r' in Hf by lia.
    destruct (Z.eqb_spec (lastIndexOf line q None) (-1)) as [E | E]; cbn [negb andb] in Hf.
    + exfalso. pose proof (lastIndexOf_none line q None E c' Hocc) as Hb.
      cbn [lastBound] in Hb. destruct Hocc. lia.
    + destruct ((r <? r') || (c <? lastIndexOf line q None)) eqn:Hb; [discriminate |].
      apply orb_false_iff in Hb. destruct Hb as [Hb1 Hb2].
      apply Z.ltb_ge in Hb1. apply Z.ltb_ge in Hb2.
      assert (Hrr : r' = r) by lia. subst r'.
      split; [reflexivity |].
      assert (Hsame : lineAt lines r = line)
        by (apply lineAt_of_nth_error; [lia | exact Hn]).
      rewrite Hsame in E1.
      pose proof (lastIndexOf_none line q _ E1 c' Hocc) as Hlow. cbn [lastBound] in Hlow.
      destruct (lastIndexOf_found line q None E) as (_ & _ & Hmax).
      specialize (Hmax c' Hocc). cbn [lastBound] in Hmax. destruct Hocc. lia.
Qed.

Lemma searchBackward_priority :
  0 < c ->
  (exists r'' c'', matchAt lines q r'' c'' /\ isAfter r c r'' c'') ->
  exists r' c', searchBackward lines r c q = Some (r', c') /\ isAfter r c r' c'.
Proof.
  intros Hc (r'' & c'' & (line & Hline & Hocc) & Hbefore).
  rewrite searchBackward_unfold. cbv zeta.
  destruct (Z.eqb_spec (lastIndexOf (lineAt lines r) q (Some (c - 1))) (-1)) as [E1 | E1];
    cbn [negb].
  - destruct (scanDown _ above (r - 1)) as [p |] eqn:E2.
    + apply scanDown_some in E2. destruct E2 as (j & line' & Hn & Hf).
      cbv beta zeta in Hf.
      destruct (negb (lastIndexOf line' q None =? -1)); [| discriminate].
      injection Hf as <-. eexists _, _. split; [reflexivity |]. left. lia.
    + exfalso. apply nthZ_Some in Hline. destruct Hline as [Hr'' Hn].
      destruct Hbefore as [Hlt | [Heq Hlt]].
      * pose proof (scanDown_none _ _ _ E2 (Z.to_nat (r - 1 - r'')) line) as Hf.
        rewrite (nth_error_rev_firstn lines (r - 1) _ ltac:(lia)) in Hf.
        destruct (Z.leb_spec (Z.of_nat (Z.to_nat (r - 1 - r''))) (r - 1)); [| lia].
        replace (r - 1 - Z.of_nat (Z.to_nat (r - 1 - r''))) with r'' in Hf by lia.
        specialize (Hf Hn). cbv beta zeta in Hf.
        destruct (Z.eqb_spec (lastIndexOf line q None) (-1)) as [E | E]; cbn [negb] in Hf;
          [| discriminate].
        pose proof (lastIndexOf_none line q None E c'' Hocc) as Hb.
        cbn [lastBound] in Hb. destruct Hocc. lia.
      * subst r''.
        assert (Hsame : lineAt lines r = line) by (apply lineAt_of_nth_error; [lia | exact Hn]).
        rewrite Hsame in E1.
        pose proof (lastIndexOf_none line q _ E1 c'' Hocc) as Hlow.
        cbn [lastBound] in Hlow. lia.
  - eexists _, _. split; [reflexivity |]. right. split; [reflexivity |].
    destruct (lastIndexOf_found _ q _ E1) as (_ & Hb & _). cbn [lastBound] in Hb. lia.
Qed.

(** From the first column the backward search looks at column 0 itself
    ([lastIndexOf] takes a negative start as 0): on a line that begins with
    the query it answers the cursor's own position. *)
Lemma searchBackward_first_column :
  c = 0 -> occursAt q (lineAt lines r) 0 -> searchBackward lines r c q = Some (r, 0).
Proof.
  intros Hc Hocc. rewrite searchBackward_unfold. cbv zeta. rewrite Hc.
  destruct (Z.eqb_spec (lastIndexOf (lineAt lines r) q (Some (0 - 1))) (-1)) as [E1 | E1];
    cbn [negb].
  - exfalso. pose proof (lastIndexOf_none _ q _ E1 0 Hocc) as Hb. cbn [lastBound] in Hb. lia.
  - destruct (lastIndexOf_found _ q _ E1) as ([Hlow _] & Hb & _). cbn [lastBound] in Hb.
    do 2 f_equal. lia.
Qed.

End SearchBackward.

(** X9. The backward search, in the indices that String.lastIndexOf counts
    (UTF-16 code units): it stores the query and leaves the text alone; it
    leaves the cursor where it is or puts it on an occurrence of the query,
    and on an occurrence whenever the query occurs anywhere but at the cursor
    itself (the search wraps around); from a column after the first, an
    occurrence before the cursor is taken before the search wraps. From the
    first column of a line that begins with the query the cursor stays where
    it is, even when earlier lines hold the query: lastIndexOf reads the
    start index -1 as 0. *)
Theorem search_backward_spec (L : TextBufferLib) (s : TextBufferState) (q : jsstring) :
  0 <= cursorRow s < Z.of_nat (List.length (lines s)) ->
  let s' := handleVimAction s (vim_search q backward) in
  lines s' = lines s
  /\ lastSearchQuery s' = Some q
  /\ ((cursorRow s' = cursorRow s /\ cursorCol s' = cursorCol s)
      \/ matchAt (lines s) q (cursorRow s') (cursorCol s'))
  /\ ((exists r c, matchAt (lines s) q r c /\ (r <> cursorRow s \/ c <> cursorCol s)) ->
      matchAt (lines s) q (cursorRow s') (cursorCol s'))
  /\ (0 < cursorCol s ->
      (exists r c, matchAt (lines s) q r c /\ isAfter (cursorRow s) (cursorCol s) r c) ->
      isAfter (cursorRow s) (cursorCol s) (cursorRow s') (cursorCol s'))
  /\ (cursorCol s = 0 -> occursAt q (lineAt (lines s) (cursorRow s)) 0 ->
      cursorRow s' = cursorRow s /\ cursorCol s' = 0).
Proof.
  intros Hrow s'. subst s'.
  assert (Hs' : handleVimAction s (vim_search q backward)
                = match searchBackward (lines s) (cursorRow s) (cursorCol s) q with
                  | Some (fr, fc) =>
                      setLastSearchQuery (setCursor s fr fc None) (Some q)
                  | None => setLastSearchQuery s (Some q)
                  end) by reflexivity.
  rewrite Hs'. clear Hs'.
  destruct (searchBackward (lines s) (cursorRow s) (cursorCol s) q) as [[fr fc] |] eqn:E;
    cbn [lines lastSearchQuery cursorRow cursorCol setCursor setLastSearchQuery];
    (split; [reflexivity |]); (split; [reflexivity |]).
  - pose proof (searchBackward_sound _ _ _ _ Hrow _ _ E) as Hm.
    split; [right; exact Hm |].
    split; [intros _; exact Hm |].
    split.
    + intros Hc Hex.
      destruct (searchBackward_priority _ _ _ _ Hrow Hc Hex) as (r' & c' & E' & Ha).
      rewrite E in E'. injection E' as <- <-. exact Ha.
    + intros Hc Hocc.
      rewrite (searchBackward_first_column _ _ _ _ Hc Hocc) in E.
      injection E as <- <-. split; reflexivity.
  - split; [left; split; reflexivity |].
    split.
    + intros (r & c & Hm & Hneq). exfalso.
      destruct (searchBackward_complete _ _ _ _ Hrow E r c Hm). lia.
    + split.
      * intros Hc Hex. exfalso.
        destruct (searchBackward_priority _ _ _ _ Hrow Hc Hex) as (r' & c' & E' & _).
        rewrite E in E'. discriminate.
      * intros Hc Hocc. exfalso.
        rewrite (searchBackward_first_column _ _ _ _ Hc Hocc) in E. discriminate.
Qed.

Lemma search_backward_spec_witness :
  0 <= cursorRow onSecondBc < Z.of_nat (List.length (lines onSecondBc))
  /\ 0 < cursorCol onSecondBc
  /\ matchAt (lines onSecondBc) (js "bc") 0 1
  /\ forall L : TextBufferLib,
       cursorRow (handleVimAction onSecondBc (vim_search (js "bc") backward)) = 0
       /\ cursorCol (handleVimAction onSecondBc (vim_search (js "bc") backward)) = 1
       /\ isAfter (cursorRow onSecondBc) (cursorCol onSecondBc)
                  (cursorRow (handleVimAction onSecondBc (vim_search (js "bc") backward)))
                  (cursorCol (handleVimAction onSecondBc (vim_search (js "bc") backward))).
Proof.
  assert (Hrow : 0 <= cursorRow onSecondBc < Z.of_nat (List.length (lines onSecondBc)))
    by (cbn; lia).
  assert (Hm : matchAt (lines onSecondBc) (js "bc") 0 1).
  { exists (js "abc"). split; [reflexivity |]. split; [cbn; lia | reflexivity]. }
  split; [exact Hrow |].
  split; [cbn; lia |].
  split; [exact Hm |].
  intros L.
  destruct (search_backward_spec L onSecondBc (js "bc") Hrow) as (_ & _ & _ & _ & Hbefore & _).
  split; [reflexivity |].
  split; [reflexivity |].
  apply Hbefore; [cbn; lia |].
  exists 0, 1. split; [exact Hm | left; cbn; lia].
Defined.

(** ** What the controller calls outside the buffer *)

Section ControllerEffects.

Context {L : TextBufferLib} {P : TextBufferPorts}.
Variable env : Env.

Lemma effects_updateMode (m : VimMode) (w : World) :
  effects (updateMode m w) = effects w.
Proof. unfold updateMode. destruct (negb (mode_eqb m COMMAND)); reflexivity. Qed.

Ltac effects_case :=
  match goal with
  | |- context [snd (if ?b then _ else _)] => destruct b
  | |- context [snd (match ?x with _ => _ end)] => destruct x
  | |- context [effects (match ?x with _ => _ end)] => destruct x
  end.

Ltac effects_done :=
  cbn [snd effects dispatch buf onBuffer];
  rewrite ?effects_updateMode;
  cbn [snd effects dispatch buf onBuffer];
  try reflexivity.

Lemma effects_executeCommand (t : string) (n : Z) (w : World) :
  effects (snd (executeCommand t n w)) = effects w.
Proof.
  unfold executeCommand. repeat effects_case; effects_done.
Qed.

Lemma effects_handleNormalModeInput (st : VimState) (k : Key) (w : World) :
  effects (snd (handleNormalModeInput env st k w)) = effects w.
Proof.
  unfold handleNormalModeInput, handleDirection, handleOperatorMotion, handleChangeMovement.
  cbv zeta.
  repeat effects_case; effects_done;
    repeat effects_case; effects_done;
    rewrite ?effects_executeCommand; effects_done.
Qed.

Lemma effects_handleCommandModeInput (st : VimState) (k : Key) (w : World) :
  effects (snd (handleCommandModeInput st k w)) = effects w.
Proof.
  unfold handleCommandModeInput. cbv zeta.
  repeat effects_case; effects_done.
Qed.

(** The branch of [handleInsertModeInput] that calls [onSubmit] comes after
    the branch that leaves a plain Enter to the prompt, so it is never
    taken. *)
Lemma effects_handleInsertModeInput (k : Key) (w : World) :
  effects (snd (handleInsertModeInput env k w)) = effects w.
Proof.
  unfold handleInsertModeInput.
  destruct (nameIs k "escape"); [effects_done |].
  destruct (ctrl k && nameIs k "w"); [effects_done |].
  destruct (ctrl k && nameIs k "u"); [effects_done |].
  destruct (nameIs k "return") eqn:Hret, (ctrl k) eqn:Hctrl;
    cbn [andb orb negb]; rewrite ?orb_true_r; cbn [andb orb negb];
    repeat effects_case; effects_done.
Qed.

Lemma handleInput_effects (k : Key) (w : World) :
  effects (snd (handleInput env k w))
  = if vimEnabled env && negb (pendingReplace (vim w)) && negb (isSome (pendingFind (vim w)))
       && pendingChord (vim w) && ctrl k && nameIs k "e"
    then effects w ++ [OpenedExternalEditor]
    else effects w.
Proof.
  unfold handleInput. cbv zeta.
  destruct (vimEnabled env); cbn [negb andb snd]; [| reflexivity].
  destruct (pendingReplace (vim w)); cbn [negb andb snd]; [reflexivity |].
  destruct (pendingFind (vim w)); cbn [negb andb snd isSome]; [reflexivity |].
  destruct (pendingChord (vim w)); cbn [negb andb snd].
  - destruct (ctrl k && nameIs k "e"); reflexivity.
  - destruct (ctrl k && nameIs k "x"); [reflexivity |].
    destruct (mode (vim w)).
    + apply effects_handleNormalModeInput.
    + apply effects_handleInsertModeInput.
    + apply effects_handleNormalModeInput.
    + apply effects_handleNormalModeInput.
    + apply effects_handleCommandModeInput.
Qed.

End ControllerEffects.


(** ** An invariant of the controller *)

Lemma parseDigit_of_count_key (k : Key) (c : Z) :
  isDigit1To9 (sequence k) || (seqIs k "0" && (0 <? c)) = true ->
  0 <= parseDigit (sequence k).
Proof.
  intros H. apply orb_true_iff in H. destruct H as [H | H].
  - destruct (sequence k) as [| u [| v t]]; cbn [isDigit1To9] in H; try discriminate.
    apply andb_true_iff in H. destruct H as [H1 _]. apply N.leb_le in H1.
    cbn [parseDigit]. lia.
  - apply andb_true_iff in H. destruct H as [H _].
    unfold seqIs in H. apply str_eqb_eq in H. rewrite H. cbn. lia.
Qed.

Section Settled.

Context {L : TextBufferLib} {P : TextBufferPorts}.
Variable env : Env.

Ltac settled_case :=
  match goal with
  | |- context [snd (if ?b then _ else _)] => destruct b eqn:?
  | |- context [snd (match ?x with _ => _ end)] => destruct x eqn:?
  | |- context [vim (match ?x with _ => _ end)] => destruct x eqn:?
  end.

Ltac settle_goal :=
  cbn [snd vim dispatch buf onBuffer emit updateMode vimReducer
       mode commandBuffer count negb mode_eqb];
  unfold clearPending;
  cbn [snd vim dispatch buf onBuffer emit updateMode vimReducer
       mode commandBuffer count negb mode_eqb];
  try (split; [cbn [count]; try lia | cbn [mode commandBuffer]; intros; try congruence; auto]).

Lemma settled_executeCommand (t : string) (n : Z) (w : World) :
  settled (vim w) -> settled (vim (snd (executeCommand t n w))).
Proof.
  intros [Hc Hb]. unfold executeCommand. repeat settled_case; settle_goal.
Qed.

Lemma settled_clear_count (w : World) :
  settled (vim w) -> settled (vim (dispatch CLEAR_COUNT w)).
Proof. intros [Hc Hb]. settle_goal. Qed.

Lemma settled_handleNormalModeInput (k : Key) (w : World) :
  settled (vim w) -> mode (vim w) <> COMMAND ->
  settled (vim (snd (handleNormalModeInput env (vim w) k w))).
Proof.
  intros Hs Hm. pose proof Hs as [Hc Hb]. specialize (Hb Hm).
  unfold handleNormalModeInput, handleDirection, handleOperatorMotion, handleChangeMovement.
  cbv zeta.
  repeat settled_case;
    try (apply settled_clear_count);
    try (repeat settled_case; try apply settled_executeCommand; try exact Hs; settle_goal; fail);
    settle_goal.
  all: try (unfold DIGIT_MULTIPLIER;
            match goal with
            | H : _ || _ = true |- _ => pose proof (parseDigit_of_count_key _ _ H); lia
            end).
Qed.

Lemma settled_handleInsertModeInput (k : Key) (w : World) :
  settled (vim w) -> mode (vim w) <> COMMAND ->
  settled (vim (snd (handleInsertModeInput env k w))).
Proof.
  intros Hs Hm. pose proof Hs as [Hc Hb]. specialize (Hb Hm).
  unfold handleInsertModeInput. repeat settled_case; settle_goal.
Qed.

Lemma settled_handleCommandModeInput (k : Key) (w : World) :
  settled (vim w) -> mode (vim w) = COMMAND ->
  settled (vim (snd (handleCommandModeInput (vim w) k w))).
Proof.
  intros [Hc Hb] Hm. unfold handleCommandModeInput. cbv zeta.
  repeat settled_case; settle_goal.
Qed.

Lemma settled_handleInput (k : Key) (w : World) :
  settled (vim w) -> settled (vim (snd (handleInput env k w))).
Proof.
  intros Hs. pose proof Hs as [Hc Hb].
  unfold handleInput. cbv zeta.
  destruct (negb (vimEnabled env)); [exact Hs |].
  destruct (pendingReplace (vim w)); [settle_goal |].
  destruct (pendingFind (vim w)); [settle_goal |].
  destruct (pendingChord (vim w)).
  { destruct (ctrl k && nameIs k "e"); settle_goal. }
  destruct (ctrl k && nameIs k "x"); [settle_goal |].
  destruct (mode (vim w)) eqn:Hm.
  - apply settled_handleNormalModeInput; [exact Hs | congruence].
  - apply settled_handleInsertModeInput; [exact Hs | congruence].
  - apply settled_handleNormalModeInput; [exact Hs | congruence].
  - apply settled_handleNormalModeInput; [exact Hs | congruence].
  - apply settled_handleCommandModeInput; [exact Hs | exact Hm].
Qed.

End Settled.

(** X11. An invariant of the controller: whatever keys are typed, in whatever
    mode and with whatever settings, the count is never negative and the
    command line is empty outside COMMAND mode. *)
Theorem controller_stays_settled (L : TextBufferLib) (P : TextBufferPorts) (env : Env)
    (ks : list Key) (w : World) :
  settled (vim w) -> settled (vim (typeKeys env ks w)).
Proof.
  revert w. induction ks as [| k ks IH]; intros w Hs; [exact Hs |].
  unfold typeKeys. cbn [fold_left]. apply IH. apply settled_handleInput. exact Hs.
Qed.

Lemma controller_stays_settled_witness :
  settled (vim freshWorld)
  /\ forall (L : TextBufferLib) (P : TextBufferPorts),
       settled (vim (typeKeys defaultEnv
                       [charKey "3"; charKey "/"; charKey "a"; escapeKey; charKey "0"]
                       freshWorld)).
Proof.
  assert (H0 : settled (vim freshWorld)) by (split; [cbn; lia | reflexivity]).
  split; [exact H0 |].
  intros L P. apply (controller_stays_settled L P defaultEnv _ freshWorld H0).
Defined.

(** ** Prefix keys *)

Lemma handleInput_command_key (L : TextBufferLib) (P : TextBufferPorts) env k w :
  idle env (vim w) ->
  takesCommands (mode (vim w)) = true ->
  (ctrl k && nameIs k "x") = false ->
  handleInput env k w = handleNormalModeInput env (vim w) k w.
Proof.
  intros Hidle Hm Hk. rewrite (handleInput_idle L P env k w Hidle Hk).
  destruct (mode (vim w)); try discriminate Hm; reflexivity.
Qed.



(** X13. r takes the next key whatever it is, Escape included: the key is
    handled, its sequence replaces the character under the cursor (the
    reducer leaves the state alone at the end of the line), and the last
    command becomes (r, 1) while the mode stays. A following . is handled
    but repeats nothing: executeCommand has no case for r. *)
Theorem replace_takes_any_key (L : TextBufferLib) (P : TextBufferPorts) (env : Env)
    (k : Key) (w : World) :
  idle env (vim w) ->
  takesCommands (mode (vim w)) = true ->
  let w1 := snd (handleInput env (charKey "r") w) in
  let w2 := snd (handleInput env k w1) in
  let w3 := snd (handleInput env (charKey ".") w2) in
  fst (handleInput env k w1) = true
  /\ buffer w2 = handleVimAction (buffer w) (vim_replace_char (sequence k))
  /\ lastCommand (vim w2) = Some ("r"%string, 1)
  /\ mode (vim w2) = mode (vim w)
  /\ fst (handleInput env (charKey ".") w2) = true
  /\ buffer w3 = buffer w2.
Proof.
  intros Hidle Hm. pose proof Hidle as (He & Hr & Hf & Hc).
  rewrite (handleInput_command_key L P env (charKey "r") w Hidle Hm) by reflexivity.
  assert (H1 : handleNormalModeInput env (vim w) (charKey "r") w
               = (true, dispatch CLEAR_COUNT (dispatch (SET_PENDING_REPLACE true) w))).
  { unfold handleNormalModeInput. key_tests.
    destruct (mode (vim w)); try discriminate Hm; reflexivity. }
  rewrite H1. cbv zeta. cbn [snd].
  set (w1 := dispatch CLEAR_COUNT (dispatch (SET_PENDING_REPLACE true) w)).
  assert (H2 : handleInput env k w1
               = (true, dispatch (SET_LAST_COMMAND (Some ("r"%string, 1)))
                          (dispatch CLEAR_COUNT
                             (dispatch (SET_PENDING_REPLACE false)
                                (buf (vim_replace_char (sequence k)) w1))))).
  { unfold handleInput. rewrite He. reflexivity. }
  rewrite H2. cbn [fst snd].
  set (w2 := dispatch _ (dispatch _ (dispatch _ (buf _ w1)))).
  assert (Hidle2 : idle env (vim w2)) by (repeat split; assumption).
  assert (Hm2 : mode (vim w2) = mode (vim w)) by reflexivity.
  rewrite (handleInput_command_key L P env (charKey ".") w2 Hidle2) by
    (rewrite ?Hm2; first [exact Hm | reflexivity]).
  assert (H3 : handleNormalModeInput env (vim w2) (charKey ".") w2
               = (true, dispatch CLEAR_COUNT w2)).
  { unfold handleNormalModeInput. key_tests. rewrite Hm2.
    destruct (mode (vim w)); try discriminate Hm; reflexivity. }
  rewrite H3. repeat split.
Qed.

Lemma replace_takes_any_key_witness :
  idle defaultEnv (vim helloNormal)
  /\ takesCommands (mode (vim helloNormal)) = true
  /\ forall (L : TextBufferLib) (P : TextBufferPorts),
       buffer (snd (handleInput defaultEnv escapeKey
                      (snd (handleInput defaultEnv (charKey "r") helloNormal))))
       = handleVimAction (buffer helloNormal) (vim_replace_char (sequence escapeKey))
       /\ lines (handleVimAction (buffer helloNormal) (vim_replace_char (sequence escapeKey)))
          = [[104; 27; 108; 108; 111]%N].
Proof.
  assert (Hi : idle defaultEnv (vim helloNormal)) by (repeat split).
  split; [exact Hi |].
  split; [reflexivity |].
  intros L P.
  destruct (replace_takes_any_key L P defaultEnv escapeKey helloNormal Hi eq_refl)
    as (_ & Hb & _).
  split; [exact Hb | reflexivity].
Defined.

(** ** The count *)

Lemma digit_cases (d : Z) :
  isDigit d = true ->
  d = 0 \/ d = 1 \/ d = 2 \/ d = 3 \/ d = 4 \/ d = 5 \/ d = 6 \/ d = 7 \/ d = 8 \/ d = 9.
Proof. unfold isDigit. intros H. apply andb_true_iff in H. lia. Qed.

Lemma digit_key_counts (L : TextBufferLib) (P : TextBufferPorts) (env : Env)
    (d : Z) (w : World) :
  idle env (vim w) ->
  takesCommands (mode (vim w)) = true ->
  isDigit d = true ->
  0 < d \/ 0 < count (vim w) ->
  handleInput env (digitKey d) w = (true, dispatch (INCREMENT_COUNT d) w).
Proof.
  intros Hidle Hm Hd Hpos.
  rewrite (handleInput_command_key L P env (digitKey d) w Hidle Hm) by reflexivity.
  unfold handleNormalModeInput.
  destruct (digit_cases d Hd) as [-> | [-> | [-> | [-> | [-> | [-> | [-> | [-> | [-> | ->]]]]]]]]];
    change (digitKey _) with (charKey "0") || change (digitKey _) with (charKey "1")
    || change (digitKey _) with (charKey "2") || change (digitKey _) with (charKey "3")
    || change (digitKey _) with (charKey "4") || change (digitKey _) with (charKey "5")
    || change (digitKey _) with (charKey "6") || change (digitKey _) with (charKey "7")
    || change (digitKey _) with (charKey "8") || change (digitKey _) with (charKey "9");
    key_tests; rewrite ?andb_false_r; [| reflexivity ..].
  destruct (Z.ltb_spec 0 (count (vim w))); [reflexivity | lia].
Qed.

Lemma typing_digits (L : TextBufferLib) (P : TextBufferPorts) (env : Env)
    (ds : list Z) : forall w : World,
  idle env (vim w) ->
  takesCommands (mode (vim w)) = true ->
  forallb isDigit ds = true ->
  0 <= count (vim w) ->
  startsCount (count (vim w)) ds = true ->
  ds <> [] ->
  typeKeys env (map digitKey ds) w
  = dispatch (SET_COUNT (decimal (count (vim w)) ds)) w.
Proof.
  induction ds as [| d ds IH]; intros w Hidle Hm Hds Hc Hstart Hne; [congruence |].
  cbn [forallb] in Hds. apply andb_true_iff in Hds. destruct Hds as [Hd Hds].
  assert (Hpos : 0 < d \/ 0 < count (vim w)).
  { unfold startsCount in Hstart. apply orb_true_iff in Hstart.
    destruct Hstart as [H | H]; apply Z.ltb_lt in H; tauto. }
  unfold typeKeys. cbn [map fold_left].
  rewrite (digit_key_counts L P env d w Hidle Hm Hd Hpos). cbn [snd].
  fold (typeKeys env (map digitKey ds) (dispatch (INCREMENT_COUNT d) w)).
  assert (Hd' : 0 <= d <= 9) by (unfold isDigit in Hd; apply andb_true_iff in Hd; lia).
  destruct ds as [| d' ds'].
  - cbn [map typeKeys fold_left decimal]. destruct w as [[ ] b e]; reflexivity.
  - rewrite IH.
    + cbn [decimal fold_left]. destruct w as [[ ] b e]; reflexivity.
    + destruct Hidle as (He & Hr & Hf & Hch). repeat split; assumption.
    + exact Hm.
    + exact Hds.
    + cbn [dispatch vim vimReducer count]. unfold DIGIT_MULTIPLIER. lia.
    + unfold startsCount. apply orb_true_iff. left. apply Z.ltb_lt.
      cbn [dispatch vim vimReducer count]. unfold DIGIT_MULTIPLIER. lia.
    + discriminate.
Qed.

Lemma decimal_positive (ds : list Z) :
  forallb isDigit ds = true -> startsCount 0 ds = true -> ds <> [] -> 0 < decimal 0 ds.
Proof.
  intros Hds Hstart Hne.
  destruct ds as [| d ds']; [congruence |].
  cbn [forallb] in Hds. apply andb_true_iff in Hds. destruct Hds as [Hd Hds].
  unfold startsCount in Hstart. change (0 <? 0) with false in Hstart.
  cbn [orb] in Hstart. apply Z.ltb_lt in Hstart.
  unfold decimal. cbn [fold_left].
  assert (Hgen : forall c, 0 < c -> 0 < fold_left (fun c d => c * 10 + d) ds' c).
  { clear Hne. induction ds' as [| e ds'' IH]; intros c Hcpos; cbn [fold_left]; [exact Hcpos |].
    cbn [forallb] in Hds. apply andb_true_iff in Hds. destruct Hds as [He Hds].
    apply IH; [exact Hds |]. unfold isDigit in He. apply andb_true_iff in He. lia. }
  apply Hgen. lia.
Qed.



Lemma typeKeys_app (L : TextBufferLib) (P : TextBufferPorts) (env : Env)
    (ks1 ks2 : list Key) (w : World) :
  typeKeys env (ks1 ++ ks2) w = typeKeys env ks2 (typeKeys env ks1 w).
Proof. unfold typeKeys. apply fold_left_app. Qed.



(** ** The search line *)

Lemma slice_tail {A : Type} (x : A) (l : list A) : slice (x :: l) 1 None = l.
Proof.
  unfold slice, relIndex. cbn [List.length].
  destruct (Z.ltb_spec 1 0); [lia |].
  replace (Z.to_nat (Z.min 1 (Z.of_nat (S (List.length l))))) with 1%nat by lia.
  cbn [skipn].
  replace (Z.to_nat (Z.of_nat (S (List.length l)) - Z.min 1 (Z.of_nat (S (List.length l)))))
    with (List.length l) by lia.
  apply firstn_all.
Qed.

Lemma command_line_grows (L : TextBufferLib) (P : TextBufferPorts) (env : Env)
    (ks : list Key) : forall w : World,
  idle env (vim w) ->
  mode (vim w) = COMMAND ->
  forallb isQueryKey ks = true ->
  typeKeys env ks w
  = dispatch (SET_COMMAND_BUFFER (commandBuffer (vim w) ++ List.concat (map sequence ks))) w.
Proof.
  induction ks as [| k ks IH]; intros w Hidle Hm Hks.
  - cbn [map List.concat typeKeys fold_left]. rewrite app_nil_r.
    destruct w as [[ ] b e]; reflexivity.
  - cbn [forallb] in Hks. apply andb_true_iff in Hks. destruct Hks as [Hk Hks].
    unfold isQueryKey in Hk. rewrite !andb_true_iff, !negb_true_iff in Hk.
    destruct Hk as ((((Hlen & Hesc) & Hret) & Hbs) & Hx).
    unfold typeKeys. cbn [map fold_left].
    rewrite (handleInput_idle L P env k w Hidle Hx), Hm.
    unfold handleCommandModeInput. rewrite Hesc, Hret, Hbs, Hlen. cbn [snd].
    fold (typeKeys env ks (dispatch (SET_COMMAND_BUFFER (commandBuffer (vim w) ++ sequence k)) w)).
    rewrite IH.
    + cbn [List.concat map dispatch vim vimReducer commandBuffer]. rewrite <- app_assoc.
      reflexivity.
    + destruct Hidle as (He & Hr & Hf & Hch). repeat split; assumption.
    + exact Hm.
    + exact Hks.
Qed.

(** X15. The search line: in NORMAL mode of the vim-editor style with command
    mode enabled, / or ? opens COMMAND mode, the keys typed after it are
    gathered in the command line without touching the buffer, and Enter
    returns to NORMAL mode with an empty command line and runs vim_search on
    the text typed, forward for / and backward for ?; with nothing typed it
    runs no search. *)
Theorem command_line_search (L : TextBufferLib) (P : TextBufferPorts) (env : Env)
    (d : Direction) (ks : list Key) (w : World) :
  idle env (vim w) ->
  mode (vim w) = NORMAL ->
  vimModeStyle env = vim_editor ->
  disableVimCommandMode env = false ->
  forallb isQueryKey ks = true ->
  let query := List.concat (map sequence ks) in
  let typed := typeKeys env (searchKey d :: ks) w in
  let w' := typeKeys env (searchKey d :: ks ++ [returnKey]) w in
  mode (vim typed) = COMMAND
  /\ commandBuffer (vim typed) = sequence (searchKey d) ++ query
  /\ buffer typed = buffer w
  /\ mode (vim w') = NORMAL
  /\ commandBuffer (vim w') = []
  /\ buffer w' = match query with
                 | [] => buffer w
                 | _ :: _ => handleVimAction (buffer w) (vim_search query d)
                 end.
Proof.
  intros Hidle Hm Hstyle Hcmd Hks. cbv zeta.
  assert (Hctrl : (ctrl (searchKey d) && nameIs (searchKey d) "x") = false)
    by (destruct d; reflexivity).
  assert (H1 : handleInput env (searchKey d) w
               = (true, dispatch (SET_COMMAND_BUFFER (sequence (searchKey d)))
                          (updateMode COMMAND w))).
  { rewrite (handleInput_idle L P env _ w Hidle Hctrl), Hm.
    unfold handleNormalModeInput. rewrite Hm, Hstyle, Hcmd.
    destruct d; cbn [searchKey]; key_tests; reflexivity. }
  set (w1 := dispatch (SET_COMMAND_BUFFER (sequence (searchKey d))) (updateMode COMMAND w)) in *.
  assert (Hidle1 : idle env (vim w1))
    by (destruct Hidle as (He & Hr & Hf & Hch); repeat split; assumption).
  assert (Htyped : typeKeys env (searchKey d :: ks) w
                   = dispatch (SET_COMMAND_BUFFER
                                 (sequence (searchKey d) ++ List.concat (map sequence ks))) w1).
  { unfold typeKeys. cbn [fold_left]. rewrite H1. cbn [snd].
    apply (command_line_grows L P env ks w1 Hidle1); [reflexivity | exact Hks]. }
  set (query := List.concat (map sequence ks)) in *.
  split; [rewrite Htyped; reflexivity |].
  split; [rewrite Htyped; reflexivity |].
  split; [rewrite Htyped; reflexivity |].
  assert (Hw' : typeKeys env (searchKey d :: ks ++ [returnKey]) w
                = snd (handleInput env returnKey (typeKeys env (searchKey d :: ks) w))).
  { unfold typeKeys. rewrite app_comm_cons, fold_left_app. reflexivity. }
  rewrite Hw', Htyped.
  set (w2 := dispatch (SET_COMMAND_BUFFER (sequence (searchKey d) ++ query)) w1).
  assert (Hidle2 : idle env (vim w2))
    by (destruct Hidle as (He & Hr & Hf & Hch); repeat split; assumption).
  rewrite (handleInput_idle L P env returnKey w2 Hidle2) by reflexivity.
  change (mode (vim w2)) with COMMAND. cbv iota.
  unfold handleCommandModeInput.
  change (nameIs returnKey "escape") with false.
  change (nameIs returnKey "return") with true. cbv iota zeta.
  change (commandBuffer (vim w2)) with (sequence (searchKey d) ++ query).
  destruct d; cbn [searchKey sequence charKey js list_ascii_of_string map app];
    change (isPrefix (JS.js ":") (N_of_ascii "/" :: query)) with false;
    change (isPrefix (JS.js ":") (N_of_ascii "?" :: query)) with false;
    change (isPrefix (JS.js "/") (N_of_ascii "/" :: query)) with true;
    change (isPrefix (JS.js "/") (N_of_ascii "?" :: query)) with false;
    change (isPrefix (JS.js "?") (N_of_ascii "?" :: query)) with true;
    cbn [orb]; cbv iota; rewrite slice_tail; destruct query; repeat split.
Qed.

Lemma command_line_search_witness :
  idle defaultEnv (vim helloNormal)
  /\ mode (vim helloNormal) = NORMAL
  /\ forallb isQueryKey [charKey "l"; charKey "o"] = true
  /\ forall (L : TextBufferLib) (P : TextBufferPorts),
       buffer (typeKeys defaultEnv
                 (searchKey forward :: [charKey "l"; charKey "o"] ++ [returnKey]) helloNormal)
       = handleVimAction (buffer helloNormal) (vim_search (js "lo") forward)
       /\ cursorCol (handleVimAction (buffer helloNormal) (vim_search (js "lo") forward)) = 3.
Proof.
  assert (Hi : idle defaultEnv (vim helloNormal)) by (repeat split).
  split; [exact Hi |].
  split; [reflexivity |]. split; [reflexivity |].
  intros L P.
  destruct (command_line_search L P defaultEnv forward [charKey "l"; charKey "o"] helloNormal
              Hi eq_refl eq_refl eq_refl eq_refl) as (_ & _ & _ & _ & _ & Hb).
  split; [exact Hb | reflexivity].
Defined.

(** ** Keys that compose *)

(** X16. In NORMAL mode with no operator pending, the keys j, k, G, / and ?
    are handled by Vim in the vim-editor style; in the bash-vim style they
    are not handled and nothing changes, so that the prompt can use them for
    its history. *)
Theorem bash_vim_yields_history_keys (L : TextBufferLib) (P : TextBufferPorts)
    (env : Env) (c : string) (w : World) :
  idle env (vim w) ->
  mode (vim w) = NORMAL ->
  pendingOperator (vim w) = None ->
  In c historyKeys ->
  fst (handleInput env (charKey c) w)
  = match vimModeStyle env with bash_vim => false | vim_editor => true end
  /\ (vimModeStyle env = bash_vim -> snd (handleInput env (charKey c) w) = w).
Proof.
  intros Hidle Hm Hop Hc.
  rewrite (handleInput_idle L P env (charKey c) w Hidle) by reflexivity.
  rewrite Hm. unfold handleNormalModeInput, yieldsToHistory, handleDirection.
  rewrite Hm, Hop.
  cbn [In historyKeys] in Hc.
  destruct Hc as [<- | [<- | [<- | [<- | [<- | []]]]]]; key_tests;
    cbn [mode_eqb isSome op_is andb orb negb];
    destruct (vimModeStyle env); cbn [fst snd andb];
    repeat match goal with
           | |- context [if ?b then _ else _] => destruct b
           end;
    split; solve [reflexivity | intros; reflexivity | intros; discriminate].
Qed.

Lemma bash_vim_yields_history_keys_witness :
  idle bashEnv (vim helloNormal)
  /\ mode (vim helloNormal) = NORMAL
  /\ pendingOperator (vim helloNormal) = None
  /\ In "j"%string historyKeys
  /\ forall (L : TextBufferLib) (P : TextBufferPorts),
       fst (handleInput bashEnv (charKey "j") helloNormal) = false
       /\ snd (handleInput bashEnv (charKey "j") helloNormal) = helloNormal.
Proof.
  assert (Hi : idle bashEnv (vim helloNormal)) by (repeat split).
  assert (Hin : In "j"%string historyKeys) by (left; reflexivity).
  split; [exact Hi |].
  split; [reflexivity |]. split; [reflexivity |]. split; [exact Hin |].
  intros L P.
  destruct (bash_vim_yields_history_keys L P bashEnv "j" helloNormal Hi eq_refl eq_refl Hin)
    as [Hf Hs].
  split; [exact Hf | exact (Hs eq_refl)].
Defined.

(** X17. The repeat key: in NORMAL mode x, and dd, run the deletion with the
    current count, and a following . runs the same deletion with the same
    count once more on the state the first one left; the count is cleared. *)
Theorem dot_repeats_last_deletion (L : TextBufferLib) (P : TextBufferPorts)
    (env : Env) (w : World) :
  idle env (vim w) ->
  mode (vim w) = NORMAL ->
  pendingOperator (vim w) = None ->
  let n := getCurrentCount (vim w) in
  let x := vim_delete_char n in
  let dd := vim_delete_line n in
  buffer (typeKeys env [charKey "x"] w) = handleVimAction (buffer w) x
  /\ buffer (typeKeys env [charKey "x"; charKey "."] w)
     = handleVimAction (handleVimAction (buffer w) x) x
  /\ buffer (typeKeys env [charKey "d"; charKey "d"] w) = handleVimAction (buffer w) dd
  /\ buffer (typeKeys env [charKey "d"; charKey "d"; charKey "."] w)
     = handleVimAction (handleVimAction (buffer w) dd) dd
  /\ count (vim (typeKeys env [charKey "x"; charKey "."] w)) = 0
  /\ count (vim (typeKeys env [charKey "d"; charKey "d"; charKey "."] w)) = 0.
Proof.
  intros Hidle Hm Hop. pose proof Hidle as (He & Hr & Hf & Hch). cbv zeta.
  destruct w as [[m cb n po pc pr pi pf lf lc] b e].
  cbn [vim mode pendingOperator pendingReplace pendingFind pendingChord] in *.
  subst m po pr pf pc.
  unfold typeKeys, handleInput. cbn [fold_left vim pendingReplace pendingFind pendingChord mode].
  rewrite He. cbn [negb].
  repeat split.
Qed.

Lemma dot_repeats_last_deletion_witness :
  idle defaultEnv (vim helloNormal)
  /\ mode (vim helloNormal) = NORMAL
  /\ pendingOperator (vim helloNormal) = None
  /\ forall (L : TextBufferLib) (P : TextBufferPorts),
       buffer (typeKeys defaultEnv [charKey "x"; charKey "."] helloNormal)
       = handleVimAction (handleVimAction (buffer helloNormal) (vim_delete_char 1))
                         (vim_delete_char 1)
       /\ lines (handleVimAction (handleVimAction (buffer helloNormal) (vim_delete_char 1))
                                 (vim_delete_char 1))
          = [js "hlo"].
Proof.
  assert (Hi : idle defaultEnv (vim helloNormal)) by (repeat split).
  split; [exact Hi |].
  split; [reflexivity |]. split; [reflexivity |].
  intros L P.
  destruct (dot_repeats_last_deletion L P defaultEnv helloNormal Hi eq_refl eq_refl)
    as (_ & Hb & _).
  split; [exact Hb | reflexivity].
Defined.



(** X19. Insert mode and back: with the cursor on a character, a moves one
    column right into INSERT mode and Escape moves one column left again, so
    a then Escape leaves the cursor where it was; i then Escape leaves it one
    column to the left, and at column 0 where it was. Nothing but the cursor
    (and the forgotten remembered column) changes. *)
Theorem insert_escape_steps_back (L : TextBufferLib) (P : TextBufferPorts)
    (env : Env) (w : World) :
  idle env (vim w) ->
  mode (vim w) = NORMAL ->
  pendingOperator (vim w) = None ->
  0 <= cursorCol (buffer w) < cpLen (lineAt (lines (buffer w)) (cursorRow (buffer w))) ->
  let b := buffer w in
  let afterA := typeKeys env [charKey "a"; escapeKey] w in
  let afterI := typeKeys env [charKey "i"; escapeKey] w in
  mode (vim (typeKeys env [charKey "a"] w)) = INSERT
  /\ cursorCol (buffer (typeKeys env [charKey "a"] w)) = cursorCol b + 1
  /\ mode (vim afterA) = NORMAL
  /\ buffer afterA = setCursor b (cursorRow b) (cursorCol b) None
  /\ mode (vim afterI) = NORMAL
  /\ buffer afterI = setCursor b (cursorRow b) (Z.max 0 (cursorCol b - 1)) None.
Proof.
  intros Hidle Hm Hop Hcol. pose proof Hidle as (He & Hr & Hf & Hch). cbv zeta.
  destruct w as [[m cb n po pc pr pi pf lf lc] b e].
  destruct env as [enabled style noCommandMode submits].
  cbn [vim mode buffer pendingOperator pendingReplace pendingFind pendingChord vimEnabled] in *.
  subst m po pr pf pc enabled.
  set (w := mkWorld _ b e).
  set (env := mkEnv true style noCommandMode submits).
  assert (Ha : handleVimAction b vim_append_at_cursor
               = setCursor b (cursorRow b) (cursorCol b + 1) None).
  { unfold handleVimAction.
    destruct (Z.ltb_spec (cursorCol b) (cpLen (lineAt (lines b) (cursorRow b)))); [| lia].
    reflexivity. }
  assert (Hesc : forall s, handleVimAction s vim_escape_insert_mode
                 = setCursor s (cursorRow s) (Z.max 0 (cursorCol s - 1)) None).
  { intros s. unfold handleVimAction. f_equal.
    destruct (Z.ltb_spec 0 (cursorCol s)); lia. }
  assert (E1 : buffer (typeKeys env [charKey "a"] w)
               = handleVimAction b vim_append_at_cursor) by reflexivity.
  assert (E2 : buffer (typeKeys env [charKey "a"; escapeKey] w)
               = handleVimAction (handleVimAction b vim_append_at_cursor)
                                 vim_escape_insert_mode) by reflexivity.
  assert (E3 : buffer (typeKeys env [charKey "i"; escapeKey] w)
               = handleVimAction (handleVimAction b vim_insert_at_cursor)
                                 vim_escape_insert_mode) by reflexivity.
  rewrite E1, E2, E3, !Hesc, Ha.
  split; [reflexivity |].
  split; [reflexivity |].
  split; [reflexivity |].
  split; [| split; reflexivity].
  unfold setCursor.
  cbn [cursorRow cursorCol lines preferredCol selectionAnchor
       clipboard lastSearchQuery undoStack].
  f_equal. lia.
Qed.

Lemma insert_escape_steps_back_witness :
  idle defaultEnv (vim helloNormal)
  /\ mode (vim helloNormal) = NORMAL
  /\ pendingOperator (vim helloNormal) = None
  /\ 0 <= cursorCol (buffer helloNormal)
       < cpLen (lineAt (lines (buffer helloNormal)) (cursorRow (buffer helloNormal)))
  /\ forall (L : TextBufferLib) (P : TextBufferPorts),
       buffer (typeKeys defaultEnv [charKey "a"; escapeKey] helloNormal) = buffer helloNormal
       /\ cursorCol (buffer (typeKeys defaultEnv [charKey "i"; escapeKey] helloNormal)) = 0.
Proof.
  assert (Hi : idle defaultEnv (vim helloNormal)) by (repeat split).
  assert (Hc : 0 <= cursorCol (buffer helloNormal)
               < cpLen (lineAt (lines (buffer helloNormal)) (cursorRow (buffer helloNormal))))
    by (split; vm_compute; first [reflexivity | discriminate]).
  split; [exact Hi |].
  split; [reflexivity |]. split; [reflexivity |]. split; [exact Hc |].
  intros L P.
  destruct (insert_escape_steps_back L P defaultEnv helloNormal Hi eq_refl eq_refl Hc)
    as (_ & _ & _ & Ha & _ & Hb).
  split; [rewrite Ha; reflexivity | rewrite Hb; reflexivity].
Defined.

(** ** More keys that compose *)

Lemma splitNL_singleLine (t : jsstring) : singleLine t = true -> splitNL t = [t].
Proof.
  induction t as [| c t IH]; [reflexivity |].
  cbn [singleLine forallb]. intros H. apply andb_true_iff in H. destruct H as [Hc Ht].
  apply negb_true_iff in Hc. cbn [splitNL]. rewrite Hc, (IH Ht). reflexivity.
Qed.

(** X20. In NORMAL mode with nothing pending, on a cursor line of the buffer,
    the keys y, y, p duplicate the cursor line: the lines up to and including
    the cursor line stay, a copy of the cursor line follows, then the lines
    that were below; the clipboard holds the line with a newline and the mode
    is NORMAL. The splice itself is replaceRangeInternal, modelled from the
    spec. *)
Theorem yank_paste_duplicates_line (L : TextBufferLib) (P : TextBufferPorts)
    (env : Env) (w : World) :
  idle env (vim w) ->
  mode (vim w) = NORMAL ->
  pendingOperator (vim w) = None ->
  0 <= cursorRow (buffer w) < linesCount (buffer w) ->
  singleLine (lineAt (lines (buffer w)) (cursorRow (buffer w))) = true ->
  let line := lineAt (lines (buffer w)) (cursorRow (buffer w)) in
  let w' := typeKeys env [charKey "y"; charKey "y"; charKey "p"] w in
  lines (buffer w')
  = firstn (Z.to_nat (cursorRow (buffer w)) + 1) (lines (buffer w))
    ++ [line]
    ++ skipn (Z.to_nat (cursorRow (buffer w)) + 1) (lines (buffer w))
  /\ clipboard (buffer w') = Some (line ++ [NL])
  /\ mode (vim w') = NORMAL.
Proof.
  intros Hidle Hm Hop Hrow Hline. pose proof Hidle as (He & Hr & Hf & Hch). cbv zeta.
  destruct w as [[m cb n po pc pr pi pf lf lc] b e].
  destruct env as [enabled style noCommandMode submits].
  cbn [vim mode buffer pendingOperator pendingReplace pendingFind pendingChord vimEnabled] in *.
  subst m po pr pf pc enabled.
  set (w := mkWorld _ b e).
  set (env := mkEnv true style noCommandMode submits).
  set (line := lineAt (lines b) (cursorRow b)) in *.
  assert (E : buffer (typeKeys env [charKey "y"; charKey "y"; charKey "p"] w)
              = handleVimAction (setClipboard b (Some (line ++ [NL]))) (vim_paste after))
    by reflexivity.
  rewrite E.
  split; [| split; [| reflexivity]].
  2: { unfold handleVimAction. cbv zeta. split_cases; reflexivity. }
  rewrite (paste_linewise_after L (setClipboard b (Some (line ++ [NL]))) line eq_refl Hrow).
  rewrite (splitNL_singleLine line Hline). reflexivity.
Qed.

Lemma yank_paste_duplicates_line_witness :
  idle defaultEnv (vim fooBarWorld)
  /\ mode (vim fooBarWorld) = NORMAL
  /\ pendingOperator (vim fooBarWorld) = None
  /\ 0 <= cursorRow (buffer fooBarWorld) < linesCount (buffer fooBarWorld)
  /\ singleLine (lineAt (lines (buffer fooBarWorld)) (cursorRow (buffer fooBarWorld))) = true
  /\ forall (L : TextBufferLib) (P : TextBufferPorts),
       lines (buffer (typeKeys defaultEnv [charKey "y"; charKey "y"; charKey "p"] fooBarWorld))
       = [js "foo"; js "foo"; js "bar"].
Proof.
  assert (Hi : idle defaultEnv (vim fooBarWorld)) by (repeat split).
  assert (Hr : 0 <= cursorRow (buffer fooBarWorld) < linesCount (buffer fooBarWorld))
    by (cbn; lia).
  split; [exact Hi |].
  split; [reflexivity |]. split; [reflexivity |]. split; [exact Hr |]. split; [reflexivity |].
  intros L P.
  exact (proj1 (yank_paste_duplicates_line L P defaultEnv fooBarWorld Hi eq_refl eq_refl Hr
                  eq_refl)).
Defined.





(** ** Motions in the visual modes *)

Lemma sameButCursor_trans (s1 s2 s3 : TextBufferState) :
  sameButCursor s1 s2 -> sameButCursor s2 s3 -> sameButCursor s1 s3.
Proof.
  unfold sameButCursor. intros (A1 & A2 & A3 & A4 & A5) (B1 & B2 & B3 & B4 & B5).
  repeat split; congruence.
Qed.

Ltac frame_cases :=
  unfold handleVimAction;
  repeat match goal with
         | |- context [let '(_, _) := ?p in _] => destruct p
         | |- context [match ?x with Some _ => _ | None => _ end] => destruct x
         end;
  first [apply sameButCursor_refl | apply sameButCursor_setCursor].

Lemma visual_motion_key (L : TextBufferLib) (P : TextBufferPorts) (env : Env)
    (c : string) (w : World) :
  idle env (vim w) ->
  isVisual (mode (vim w)) = true ->
  pendingOperator (vim w) = None ->
  In c motionKeys ->
  let w' := snd (handleInput env (charKey c) w) in
  fst (handleInput env (charKey c) w) = true
  /\ idle env (vim w')
  /\ mode (vim w') = mode (vim w)
  /\ pendingOperator (vim w') = None
  /\ sameButCursor (buffer w) (buffer w')
  /\ effects w' = effects w.
Proof.
  intros Hidle Hvis Hop Hc. pose proof Hidle as (He & Hr & Hf & Hch). cbv zeta.
  rewrite (handleInput_idle L P env (charKey c) w Hidle) by reflexivity.
  assert (Hnorm : mode_eqb (mode (vim w)) NORMAL = false)
    by (destruct (mode (vim w)); try discriminate Hvis; reflexivity).
  assert (Hhandler : match mode (vim w) with
                     | INSERT => handleInsertModeInput env (charKey c) w
                     | COMMAND => handleCommandModeInput (vim w) (charKey c) w
                     | _ => handleNormalModeInput env (vim w) (charKey c) w
                     end = handleNormalModeInput env (vim w) (charKey c) w)
    by (destruct (mode (vim w)); try discriminate Hvis; reflexivity).
  rewrite Hhandler. clear Hhandler.
  unfold handleNormalModeInput, handleDirection, yieldsToHistory.
  rewrite Hnorm, Hop.
  cbn [In motionKeys] in Hc.
  destruct Hc as [<- | [<- | [<- | [<- | [<- | [<- | [<- | [<- | [<- | [<- | [<- | [<- | []]]]]]]]]]]]];
    key_tests; cbn [op_is andb orb isSome negb]; rewrite ?andb_false_r;
    repeat match goal with
           | |- context [match vimModeStyle env with _ => _ end] => destruct (vimModeStyle env)
           | |- context [if 0 <? ?n then _ else _] => destruct (0 <? n)
           end;
    cbn [fst snd dispatch buf vim buffer effects vimReducer mode pendingOperator];
    (split; [reflexivity |]);
    (split; [repeat split; assumption |]);
    (split; [reflexivity |]);
    (split; [first [exact Hop | reflexivity] |]);
    (split; [| reflexivity]);
    first [apply sameButCursor_refl | frame_cases].
Qed.



(** ** More on the history hook *)

Lemma message_defined (userMessages : list jsstring) (i : Z) :
  0 <= i <= nMessages userMessages - 1 ->
  exists t, nthZ userMessages (nMessages userMessages - 1 - i) = Some t.
Proof.
  unfold nMessages, nthZ. intros Hi.
  destruct (Z.ltb_spec (Z.of_nat (List.length userMessages) - 1 - i) 0); [lia |].
  destruct (nth_error userMessages (Z.to_nat (Z.of_nat (List.length userMessages) - 1 - i)))
    as [t |] eqn:E; [exists t; reflexivity |].
  apply nth_error_None in E. lia.
Qed.

Lemma call_keeps_index_in_range (userMessages : list jsstring) (isActive : bool)
    (c : HistoryCall) (p : Prompt) :
  indexInRange userMessages p ->
  indexInRange userMessages (call userMessages isActive p c)
  /\ exists texts, emitted (call userMessages isActive p c) = emitted p ++ map Some texts.
Proof.
  unfold indexInRange. intros Hp.
  assert (Hnone : exists texts, emitted p = emitted p ++ map Some texts)
    by (exists []; cbn [map]; rewrite app_nil_r; reflexivity).
  pose proof (Nat2Z.is_nonneg (List.length userMessages)) as Hn. fold (nMessages userMessages) in Hn.
  destruct c as [| | index | value]; cbn [call].
  - (* up *)
    unfold navigateUp.
    destruct isActive; cbn [negb snd]; [| split; assumption].
    destruct (Z.eqb_spec (nMessages userMessages) 0); cbn [snd]; [split; assumption |].
    destruct (Z.eqb_spec (historyIndex (hist p)) (-1)) as [Hh | Hh].
    + rewrite Hh. cbn [negb Z.eqb snd setHistoryIndex setOriginalQueryBeforeNav onChange
                       hist historyIndex emitted].
      split; [lia |].
      destruct (message_defined userMessages 0 ltac:(lia)) as [t Ht]. rewrite Ht.
      exists [t]. reflexivity.
    + destruct (Z.ltb_spec (historyIndex (hist p)) (nMessages userMessages - 1));
        cbn [snd]; [| split; assumption].
      destruct (Z.eqb_spec (historyIndex (hist p) + 1) (historyIndex (hist p))); [lia |].
      cbn [negb snd setHistoryIndex onChange hist historyIndex emitted].
      split; [lia |].
      destruct (message_defined userMessages (historyIndex (hist p) + 1) ltac:(lia)) as [t Ht].
      rewrite Ht. exists [t]. reflexivity.
  - (* down *)
    unfold navigateDown.
    destruct isActive; cbn [negb snd]; [| split; assumption].
    destruct (Z.eqb_spec (historyIndex (hist p)) (-1)); cbn [snd]; [split; assumption |].
    destruct (Z.eqb_spec (historyIndex (hist p) - 1) (-1));
      cbn [snd setHistoryIndex onChange hist historyIndex emitted].
    + split; [lia |]. exists [originalQueryBeforeNav (hist p)]. reflexivity.
    + split; [lia |].
      destruct (message_defined userMessages (historyIndex (hist p) - 1) ltac:(lia)) as [t Ht].
      rewrite Ht. exists [t]. reflexivity.
  - (* goToIndex *)
    unfold goToIndex.
    destruct isActive; cbn [negb snd]; [| split; assumption].
    destruct ((nMessages userMessages =? 0) && negb (index =? -1)) eqn:Hempty; cbn [snd];
      [split; assumption |].
    set (target := Z.max (-1) (Z.min index (nMessages userMessages - 1))).
    destruct (Z.eqb_spec target (-1)) as [Ht | Ht].
    + rewrite andb_false_r.
      cbn [snd setHistoryIndex onChange hist historyIndex emitted].
      split; [lia |]. exists [originalQueryBeforeNav (hist p)]. reflexivity.
    + assert (Hin : 0 <= target <= nMessages userMessages - 1).
      { subst target. destruct (Z.eqb_spec (nMessages userMessages) 0) as [H0 | H0]; [| lia].
        cbn [andb] in Hempty. apply negb_false_iff, Z.eqb_eq in Hempty. lia. }
      destruct (message_defined userMessages target Hin) as [t Hmsg].
      destruct ((historyIndex (hist p) =? -1) && negb false);
        cbn [snd setHistoryIndex setOriginalQueryBeforeNav onChange hist historyIndex emitted];
        rewrite Hmsg; (split; [lia | exists [t]; reflexivity]).
  - (* submit *)
    unfold handleSubmit, resetHistoryNav.
    destruct (trim value); cbn [hist historyIndex emitted]; (split; [lia | exact Hnone]).
Qed.

(** X23. An invariant of the history hook: whatever is called (navigateUp,
    navigateDown, goToIndex with any index, handleSubmit with any text), in
    whatever order, active or not, the history index stays between -1 and
    the index of the oldest message, and every text the hook pushes into the
    prompt is a defined string: it never reads past the ends of the message
    list. *)
Theorem history_index_stays_in_range (userMessages : list jsstring) (isActive : bool)
    (cs : list HistoryCall) (p : Prompt) :
  indexInRange userMessages p ->
  indexInRange userMessages (calls userMessages isActive cs p)
  /\ exists texts, emitted (calls userMessages isActive cs p) = emitted p ++ map Some texts.
Proof.
  revert p. induction cs as [| c cs IH]; intros p Hp.
  - split; [exact Hp |]. exists []. cbn. rewrite app_nil_r. reflexivity.
  - destruct (call_keeps_index_in_range userMessages isActive c p Hp) as [Hc [t1 H1]].
    destruct (IH _ Hc) as [Hcs [t2 H2]].
    split; [exact Hcs |].
    exists (t1 ++ t2). unfold calls in *. cbn [fold_left].
    rewrite H2, H1, map_app, app_assoc. reflexivity.
Qed.

Lemma history_index_stays_in_range_witness :
  indexInRange oneTwoThree (fresh [] (js "draft"))
  /\ indexInRange oneTwoThree
       (calls oneTwoThree true [CallUp; CallGoTo 7; CallUp; CallDown; CallSubmit (js " go ")]
              (fresh [] (js "draft")))
  /\ emitted (calls oneTwoThree true [CallUp; CallGoTo 7; CallUp; CallDown]
                    (fresh [] (js "draft")))
     = map Some [js "three"; js "one"; js "two"].
Proof.
  assert (H0 : indexInRange oneTwoThree (fresh [] (js "draft"))) by (cbv; split; discriminate).
  split; [exact H0 |].
  split.
  - apply (history_index_stays_in_range oneTwoThree true
             [CallUp; CallGoTo 7; CallUp; CallDown; CallSubmit (js " go ")]
             (fresh [] (js "draft")) H0).
  - reflexivity.
Defined.

Section HistoryJumps.

Variable userMessages : list jsstring.

Local Notation "'up'" := (navigateUp userMessages true).
Local Notation "'nmsg'" := (nMessages userMessages).

Lemma messageAt_defined (i : Z) :
  0 <= i <= nmsg - 1 -> exists t, messageAt userMessages i = Some t.
Proof.
  unfold messageAt, nMessages, nthZ. intros Hi.
  destruct (Z.ltb_spec (Z.of_nat (List.length userMessages) - 1 - i) 0); [lia |].
  destruct (nth_error userMessages (Z.to_nat (Z.of_nat (List.length userMessages) - 1 - i)))
    as [t |] eqn:E; [exists t; reflexivity |].
  apply nth_error_None in E. lia.
Qed.

(** Where [m] presses of up lead from the draft. *)
Lemma press_up_from_draft (m : nat) (stale draft : jsstring) :
  (m < List.length userMessages)%nat ->
  exists t log,
    messageAt userMessages (Z.of_nat m) = Some t
    /\ press up (S m) (fresh stale draft)
       = mkPrompt (mkHist (Z.of_nat m) draft) t (log ++ [Some t]) [draft] [].
Proof.
  induction m as [| m IH]; intros Hm.
  - destruct (messageAt_defined 0 ltac:(unfold nMessages; lia)) as [t Ht].
    exists t, []. split; [exact Ht |].
    cbn [press]. rewrite HistoryFacts.up_enters by (reflexivity || (unfold nMessages; lia)).
    unfold messageAt in Ht. rewrite Z.sub_0_r in Ht. rewrite Ht. reflexivity.
  - destruct (IH ltac:(lia)) as (t0 & log & _ & Hp).
    destruct (messageAt_defined (Z.of_nat (S m)) ltac:(unfold nMessages; lia)) as [t Ht].
    exists t, (log ++ [Some t0]). split; [exact Ht |].
    assert (Hstep : forall n p, press up (S n) p = snd (up (press up n p))).
    { induction n as [| n IHn]; intros p; [reflexivity |].
      change (press up (S (S n)) p) with (press up (S n) (snd (up p))).
      rewrite IHn. reflexivity. }
    rewrite Hstep, Hp.
    rewrite HistoryFacts.up_inside
      by (cbn [hist historyIndex]; unfold nMessages; lia).
    cbn [hist historyIndex originalQueryBeforeNav currentQuery emitted snapshots submitted].
    unfold messageAt in Ht.
    replace (Z.of_nat m + 1) with (Z.of_nat (S m)) by lia.
    rewrite Ht. reflexivity.
Qed.

Lemma up_at_oldest (p : Prompt) :
  historyIndex (hist p) = nmsg - 1 -> up p = (false, p).
Proof.
  intros Hh. unfold navigateUp. cbn [negb].
  destruct (Z.eqb_spec nmsg 0) as [H0 | H0]; [reflexivity |].
  destruct (Z.eqb_spec (historyIndex (hist p)) (-1)); [unfold nMessages in *; lia |].
  destruct (Z.ltb_spec (historyIndex (hist p)) (nmsg - 1)); [lia | reflexivity].
Qed.

End HistoryJumps.

(** X24. navigateUp stops at the oldest message: as many presses as there are
    messages lead to the last index, there a further press answers false and
    changes nothing, and so any number of presses beyond leaves the prompt as
    it is (with no messages the first press already answers false). *)
Theorem navigateUp_stops_at_oldest (userMessages : list jsstring)
    (stale draft : jsstring) (k : nat) :
  let oldest := press (navigateUp userMessages true) (List.length userMessages)
                      (fresh stale draft) in
  historyIndex (hist oldest) = nMessages userMessages - 1
  /\ navigateUp userMessages true oldest = (false, oldest)
  /\ press (navigateUp userMessages true) (List.length userMessages + k) (fresh stale draft)
     = oldest.
Proof.
  cbv zeta.
  set (oldest := press (navigateUp userMessages true) (List.length userMessages)
                       (fresh stale draft)).
  assert (Hidx : historyIndex (hist oldest) = nMessages userMessages - 1).
  { subst oldest. destruct (List.length userMessages) as [| m] eqn:E.
    - unfold nMessages. rewrite E. reflexivity.
    - destruct (press_up_from_draft userMessages m stale draft ltac:(lia))
        as (t & log & _ & ->).
      unfold nMessages. rewrite E. cbn [hist historyIndex]. lia. }
  pose proof (up_at_oldest userMessages oldest Hidx) as Hstop.
  split; [exact Hidx |]. split; [exact Hstop |].
  assert (Hplus : forall n m p, press (navigateUp userMessages true) (n + m) p
                  = press (navigateUp userMessages true) m
                          (press (navigateUp userMessages true) n p)).
  { induction n as [| n IHn]; intros m p; [reflexivity |].
    cbn [Nat.add press]. apply IHn. }
  rewrite Hplus. fold oldest.
  induction k as [| k IH]; [reflexivity |].
  cbn [press]. rewrite Hstop. exact IH.
Qed.

(** X25. goToIndex(i) on a stored message jumps where i + 1 presses of up
    walk: the same index, the same stored draft, the same text in the
    prompt, that message; goToIndex(-1) from there brings the draft back.
    Called while not navigating, goToIndex(-1) pushes the stored original
    into the prompt, whatever the prompt holds at that time. *)
Theorem goToIndex_jumps (userMessages : list jsstring) (stale draft : jsstring) (i : nat) :
  (i < List.length userMessages)%nat ->
  let jumped := snd (goToIndex userMessages true (Z.of_nat i) (fresh stale draft)) in
  let walked := press (navigateUp userMessages true) (S i) (fresh stale draft) in
  let back := snd (goToIndex userMessages true (-1) jumped) in
  hist jumped = hist walked
  /\ currentQuery jumped = currentQuery walked
  /\ snapshots jumped = snapshots walked
  /\ Some (currentQuery jumped) = messageAt userMessages (Z.of_nat i)
  /\ historyIndex (hist back) = -1
  /\ currentQuery back = draft
  /\ currentQuery (snd (goToIndex userMessages true (-1) (fresh stale draft))) = stale.
Proof.
  intros Hi. cbv zeta.
  destruct (press_up_from_draft userMessages i stale draft Hi) as (t & log & Ht & ->).
  assert (Hj : snd (goToIndex userMessages true (Z.of_nat i) (fresh stale draft))
               = mkPrompt (mkHist (Z.of_nat i) draft) t [Some t] [draft] []).
  { unfold goToIndex. cbn [negb fresh hist historyIndex].
    destruct (Z.eqb_spec (nMessages userMessages) 0) as [H0 | H0];
      [unfold nMessages in H0; lia |].
    cbn [andb].
    replace (Z.max (-1) (Z.min (Z.of_nat i) (nMessages userMessages - 1)))
      with (Z.of_nat i) by (unfold nMessages; lia).
    destruct (Z.eqb_spec (Z.of_nat i) (-1)); [lia |].
    cbn [Z.eqb negb andb snd setHistoryIndex setOriginalQueryBeforeNav onChange
         hist historyIndex originalQueryBeforeNav currentQuery emitted snapshots submitted].
    unfold messageAt in Ht. rewrite Ht. reflexivity. }
  rewrite Hj. cbn [hist currentQuery snapshots].
  split; [reflexivity |]. split; [reflexivity |]. split; [reflexivity |].
  split; [symmetry; exact Ht |].
  unfold goToIndex. cbn [negb hist historyIndex fresh Z.eqb andb].
  rewrite !andb_false_r. cbn [snd].
  replace (Z.max (-1) (Z.min (-1) (nMessages userMessages - 1))) with (-1)
    by (unfold nMessages; lia).
  cbn [Z.eqb negb andb].
  destruct (Z.of_nat i =? -1); repeat split.
Qed.

Lemma goToIndex_jumps_witness :
  (1 < List.length oneTwoThree)%nat
  /\ currentQuery (snd (goToIndex oneTwoThree true 1 (fresh [] (js "draft")))) = js "two"
  /\ currentQuery (snd (goToIndex oneTwoThree true (-1)
                          (snd (goToIndex oneTwoThree true 1 (fresh [] (js "draft"))))))
     = js "draft".
Proof.
  split; [cbn; lia |].
  split; [reflexivity |].
  apply (goToIndex_jumps oneTwoThree [] (js "draft") 1). cbn; lia.
Defined.

(** ** The waiter when subscribing fails *)

(** X26. If messageBus.subscribe throws, the waiter rejects with the error
    thrown and holds no listener: whatever the bus delivers and whether or
    not the token fires afterwards, the promise keeps that rejection. *)
Theorem subscribe_failure_is_final (Payload : Type) (waiterId error : string)
    (es : list (Event Payload)) :
  let w := run Payload waiterId (awaitConfirmation Payload false (Some error)) es in
  promise Payload w = Rejected Payload (SubscribeFailed error)
  /\ subscribed Payload w = false
  /\ abortListening Payload w = false.
Proof.
  cbv zeta.
  assert (Hstart : awaitConfirmation Payload false (Some error)
                   = mkWaiter Payload false false (Rejected Payload (SubscribeFailed error)))
    by reflexivity.
  rewrite Hstart, ConfirmationFacts.run_detached.
  repeat split.
Qed.

